(** * Teams assignment downloader: the collector, verified

    A shallow embedding of [TeamsAssignmentDownloader.py] and the proofs of its
    specification.  Python values are modelled as follows.

    - A [str] is a sequence of Unicode code points: [list N].  Literals are
      written [py "text"]; the double quote is written by its code point.
    - [os.path] is [posixpath].
    - The filesystem is a finite table from path spellings to nodes, with
      the limits of Linux on the length of names.
    - A function that can raise returns a [result]; a function that changes
      the filesystem threads a [state].

    Part I holds the definitions, in the order of the source; Part II the
    lemmas and the theorems of the specification's claims about the
    functions of the source; Part III what the code shows beyond them: the
    sanitizer's fixed points, the effect of a run on the filesystem, its end
    and its exceptions, assignment discovery, and the questions of [main];
    Part IV the claims about the files of a whole run: the extension and the
    base name of each copy, and what is walked with a selector. *)

From Stdlib Require Import Ascii String.
From Stdlib Require Import List NArith ZArith Bool Lia Arith.
From Stdlib Require Import Sorting.Sorted Sorting.Permutation DecimalN FinFun.
Import ListNotations.

(* ================================================================== *)
(** * Part I.  Definitions *)
(* ================================================================== *)

(** ** Python strings *)

(** One Unicode code point. *)
Definition char := N.

(** A Python [str]. *)
Definition str := list char.

(** The [str] written by an ASCII literal. *)
Definition py (s : string) : str := map N_of_ascii (list_ascii_of_string s).
Arguments py s%_string_scope.

Definition SPACE : char := 32%N.
Definition DOT : char := 46%N.
Definition UNDERSCORE : char := 95%N.
Definition SLASH : char := 47%N.

Definition char_eqb (a b : char) : bool := N.eqb a b.

(** [c in s] for a one-character [c]. *)
Definition char_in (c : char) (s : str) : bool := existsb (char_eqb c) s.

Fixpoint str_eqb (a b : str) : bool :=
  match a, b with
  | [], [] => true
  | x :: a', y :: b' => char_eqb x y && str_eqb a' b'
  | _, _ => false
  end.

(** [Py_UNICODE_ISSPACE]: the code points [str.strip()] removes. *)
Definition is_whitespace (c : char) : bool :=
  ((9 <=? c) && (c <=? 13)            (* \t \n \v \f \r *)
   || (28 <=? c) && (c <=? 31)        (* FS GS RS US *)
   || (c =? 32)
   || (c =? 133)                      (* NEL *)
   || (c =? 160)                      (* NBSP *)
   || (c =? 5760)                     (* U+1680 *)
   || (8192 <=? c) && (c <=? 8202)    (* U+2000 .. U+200A *)
   || (c =? 8232) || (c =? 8233)      (* U+2028, U+2029 *)
   || (c =? 8239)                     (* U+202F *)
   || (c =? 8287)                     (* U+205F *)
   || (c =? 12288))%N.                (* U+3000 *)

(** [s.lstrip(chars)]: drop the leading characters that satisfy [p]. *)
Fixpoint lstrip (p : char -> bool) (s : str) : str :=
  match s with
  | [] => []
  | c :: t => if p c then lstrip p t else s
  end.

(** [s.rstrip(chars)]: drop the trailing characters that satisfy [p]. *)
Fixpoint rstrip (p : char -> bool) (s : str) : str :=
  match s with
  | [] => []
  | c :: t =>
      match rstrip p t with
      | [] => if p c then [] else [c]
      | r => c :: r
      end
  end.

(** [s.strip()] *)
Definition strip (s : str) : str := lstrip is_whitespace (rstrip is_whitespace s).

(** [s.rstrip(".")] *)
Definition rstrip_dots (s : str) : str := rstrip (fun c => char_eqb c DOT) s.

(** [s.replace(old, new)] for a one-character [old]. *)
Definition replace_char (old new : char) (s : str) : str :=
  map (fun c => if char_eqb c old then new else c) s.

(** [s.replace("  ", " ")]: one pass, left to right, over the occurrences of
    two spaces that do not overlap. *)
Fixpoint replace_double_space (s : str) : str :=
  match s with
  | a :: ((b :: t) as r) =>
      if char_eqb a SPACE && char_eqb b SPACE
      then SPACE :: replace_double_space t
      else a :: replace_double_space r
  | _ => s
  end.

(** ["  " in s] *)
Fixpoint has_double_space (s : str) : bool :=
  match s with
  | a :: ((b :: _) as r) =>
      (char_eqb a SPACE && char_eqb b SPACE) || has_double_space r
  | _ => false
  end.

(** ** sanitize_filename *)

(** [invalid]: the nine characters Windows refuses in a file name, in the
    order of the source: less-than, greater-than, colon, double quote (code
    point 34), slash, backslash, bar, question mark, star. *)
Definition invalid : str := py "<>:" ++ [34%N] ++ py "/\|?*".

(** A character the first two passes of the sanitizer let through. *)
Definition kept (c : char) : Prop := char_in c invalid = false /\ c <> UNDERSCORE.

(** The [while "  " in sanitized] loop, run at most [fuel] times. *)
Fixpoint collapse_loop (fuel : nat) (sanitized : str) : str :=
  match fuel with
  | O => sanitized
  | S fuel' =>
      if has_double_space sanitized
      then collapse_loop fuel' (replace_double_space sanitized)
      else sanitized
  end.

(** The loop itself: every pass that runs makes the string shorter, so
    [length sanitized] passes are enough ([collapse_spaces_eq]). *)
Definition collapse_spaces (sanitized : str) : str :=
  collapse_loop (length sanitized) sanitized.

Definition sanitize_filename (name : str) : str :=
  let sanitized := map (fun c => if char_in c invalid then SPACE else c) name in
  let sanitized := replace_char UNDERSCORE SPACE sanitized in
  let sanitized := collapse_spaces sanitized in
  let sanitized := rstrip_dots (strip sanitized) in
  match sanitized with
  | [] => py "unnamed"
  | _ => sanitized
  end.

(** ** Decimal numerals: [str(i)] *)

Fixpoint digits (d : Decimal.uint) : str :=
  match d with
  | Decimal.Nil => []
  | Decimal.D0 d' => 48%N :: digits d'
  | Decimal.D1 d' => 49%N :: digits d'
  | Decimal.D2 d' => 50%N :: digits d'
  | Decimal.D3 d' => 51%N :: digits d'
  | Decimal.D4 d' => 52%N :: digits d'
  | Decimal.D5 d' => 53%N :: digits d'
  | Decimal.D6 d' => 54%N :: digits d'
  | Decimal.D7 d' => 55%N :: digits d'
  | Decimal.D8 d' => 56%N :: digits d'
  | Decimal.D9 d' => 57%N :: digits d'
  end.

(** [str(i)] for a natural number [i]. *)
Definition str_of_int (i : N) : str := digits (N.to_uint i).

(** ** os.path (posixpath) *)

(** The first character of [s] satisfies [p]. *)
Definition starts_in (p : char -> bool) (s : str) : bool :=
  match s with
  | x :: _ => p x
  | [] => false
  end.

(** [s.startswith(c)] for a one-character [c]. *)
Definition startswith (c : char) (s : str) : bool := starts_in (fun x => char_eqb x c) s.

(** The last character of [s] satisfies [p]. *)
Fixpoint ends_in (p : char -> bool) (s : str) : bool :=
  match s with
  | [] => false
  | [x] => p x
  | _ :: t => ends_in p t
  end.

(** [s.endswith(c)] for a one-character [c]. *)
Definition endswith (c : char) (s : str) : bool := ends_in (fun x => char_eqb x c) s.

Definition is_empty (s : str) : bool :=
  match s with
  | [] => true
  | _ => false
  end.

(** [os.path.join(a, b)] *)
Definition join (a b : str) : str :=
  if startswith SLASH b then b
  else if is_empty a || endswith SLASH a then a ++ b
  else a ++ SLASH :: b.

(** [p.rfind(c)] counted from index [i] of the first character of [s]:
    the index of the last [c], or -1. *)
Fixpoint rfind_from (c : char) (s : str) (i : Z) : Z :=
  match s with
  | [] => (-1)%Z
  | x :: t =>
      let r := rfind_from c t (i + 1) in
      if (0 <=? r)%Z then r else if char_eqb x c then i else (-1)%Z
  end.

Definition rfind (c : char) (s : str) : Z := rfind_from c s 0.

(** The characters [p[i:i+1]]. *)
Definition char_at (p : str) (i : Z) : str :=
  firstn 1 (skipn (Z.to_nat i) p).

(** The [while filenameIndex < dotIndex] loop of [genericpath._splitext];
    [n] is the number of indices left below [dotIndex].  [None]: the loop ran
    to its end without returning. *)
Fixpoint skip_leading_dots (p : str) (extsep : char) (n : nat)
    (filenameIndex dotIndex : Z) : option (str * str) :=
  match n with
  | O => None
  | S n' =>
      if negb (str_eqb (char_at p filenameIndex) [extsep])
      then Some (firstn (Z.to_nat dotIndex) p, skipn (Z.to_nat dotIndex) p)
      else skip_leading_dots p extsep n' (filenameIndex + 1) dotIndex
  end.

(** [genericpath._splitext(p, sep, altsep, extsep)] *)
Definition _splitext (p : str) (sep : char) (altsep : option char) (extsep : char)
    : str * str :=
  let sepIndex := rfind sep p in
  let sepIndex :=
    match altsep with
    | Some a => Z.max sepIndex (rfind a p)
    | None => sepIndex
    end in
  let dotIndex := rfind extsep p in
  if (sepIndex <? dotIndex)%Z then
    let filenameIndex := (sepIndex + 1)%Z in
    match skip_leading_dots p extsep (Z.to_nat (dotIndex - filenameIndex))
            filenameIndex dotIndex with
    | Some r => r
    | None => (p, [])
    end
  else (p, []).

(** [os.path.splitext(p)] *)
Definition splitext (p : str) : str * str := _splitext p SLASH None DOT.

Definition BACKSLASH : char := 92%N.

(** [ntpath.splitext(p)], what [os.path.splitext] is on Windows. *)
Definition nt_splitext (p : str) : str * str := _splitext p BACKSLASH (Some SLASH) DOT.

(** The extension as the specification words it: the substring of the file
    name from the last dot onward, or the empty string if the name has no
    dot. *)
Definition from_last_dot (fname : str) : str :=
  let dotIndex := rfind DOT fname in
  if (dotIndex <? 0)%Z then [] else skipn (Z.to_nat dotIndex) fname.

(** [os.path.basename(p)] *)
Definition basename (p : str) : str := skipn (Z.to_nat (rfind SLASH p + 1)) p.

(** [os.path.dirname(p)] *)
Definition dirname (p : str) : str :=
  let head := firstn (Z.to_nat (rfind SLASH p + 1)) p in
  if negb (is_empty head) && negb (forallb (char_eqb SLASH) head)
  then rstrip (char_eqb SLASH) head
  else head.

(** ** str.lower *)

Definition is_ascii (c : char) : bool := (c <? 128)%N.

Definition ascii_lower (c : char) : char :=
  if ((65 <=? c) && (c <=? 90))%N then (c + 32)%N else c.

(** ** The filesystem *)

(** A regular file with its bytes, or a directory; [readable] says whether
    listing the directory is permitted. *)
Inductive node :=
| File (data : list N)
| Dir (readable : bool).

(** What each path spelling names.  The first binding of a path is the
    one in force; the order of the table is the order in which a directory is
    listed. *)
Definition world := list (str * node).

Fixpoint lookup (w : world) (p : str) : option node :=
  match w with
  | [] => None
  | (q, n) :: w' => if str_eqb q p then Some n else lookup w' p
  end.

(** [os.path.exists(p)] *)
Definition path_exists (w : world) (p : str) : bool :=
  match lookup w p with
  | Some _ => true
  | None => false
  end.

(** [os.path.isdir(p)] *)
Definition path_isdir (w : world) (p : str) : bool :=
  match lookup w p with
  | Some (Dir _) => true
  | _ => false
  end.

Definition node_is_dir (n : node) : bool :=
  match n with
  | Dir _ => true
  | File _ => false
  end.

(** Write [data] to the file at [p], creating or replacing it. *)
Definition write (w : world) (p : str) (data : list N) : world :=
  (p, File data) :: filter (fun b => negb (str_eqb (fst b) p)) w.

(** [os.DirEntry] *)
Record DirEntry := mkEntry { name : str; path : str; is_dir : bool }.

(** [strip_prefix pre s]: the rest of [s] after [pre], when [s] starts with it. *)
Fixpoint strip_prefix (pre s : str) : option str :=
  match pre, s with
  | [], _ => Some s
  | x :: pre', y :: s' => if char_eqb x y then strip_prefix pre' s' else None
  | _ :: _, [] => None
  end.

(** The name under which the path [p] is an entry of the directory [d]:
    [join d name = p] for a [name] of one component. *)
Definition child_name (d p : str) : option str :=
  let pre := if is_empty d || endswith SLASH d then d else d ++ [SLASH] in
  match strip_prefix pre p with
  | Some nm => if is_empty nm || char_in SLASH nm then None else Some nm
  | None => None
  end.

Definition entry_of (d : str) (b : str * node) : list DirEntry :=
  match child_name d (fst b) with
  | Some nm => [mkEntry nm (join d nm) (node_is_dir (snd b))]
  | None => []
  end.

(** The entries of the directory [d]. *)
Definition listing (w : world) (d : str) : list DirEntry := flat_map (entry_of d) w.

(** ** Exceptions and results *)

(** [OSError] is the one whose [errno] is [ENAMETOOLONG];
    [NullByteError] is the [ValueError] of a path with an embedded null
    byte. *)
Inductive exn :=
| RuntimeError (msg : str)
| PermissionError
| FileNotFoundError
| NotADirectoryError
| IsADirectoryError
| SameFileError
| OSError
| UnicodeEncodeError
| NullByteError.

(** What a call ends in: a value, an exception, or (for a loop run with
    fuel) the fuel running out before the loop ends. *)
Inductive result (A : Type) :=
| Ok (a : A)
| Raise (e : exn)
| OutOfFuel.
Arguments Ok {A} a.
Arguments Raise {A} e.
Arguments OutOfFuel {A}.

(** [os.scandir(d)], read to its end. *)
Definition scandir (w : world) (d : str) : result (list DirEntry) :=
  match lookup w d with
  | Some (Dir true) => Ok (listing w d)
  | Some (Dir false) => Raise PermissionError
  | Some (File _) => Raise NotADirectoryError
  | None => Raise FileNotFoundError
  end.

(** ** choose_unique_filename *)

(** [f"{base_name} ({i}){ext}"] *)
Definition numbered (base_name ext : str) (i : N) : str :=
  base_name ++ py " (" ++ str_of_int i ++ py ")" ++ ext.

(** The [while True] loop, run at most [fuel] times from the counter [i]. *)
Fixpoint choose_loop (w : world) (base_name ext folder : str) (fuel : nat) (i : N)
    : option str :=
  match fuel with
  | O => None
  | S fuel' =>
      let candidate := numbered base_name ext i in
      let path := join folder candidate in
      if negb (path_exists w path) then Some path
      else choose_loop w base_name ext folder fuel' (i + 1)
  end.

(** The loop tries pairwise different paths, so it ends within one more
    round than the filesystem has entries ([choose_loop_total]); [None] is
    never returned ([choose_unique_filename_first_free]). *)
Definition choose_unique_filename (base_name ext folder : str) (w : world)
    : option str :=
  let candidate := base_name ++ ext in
  let path := join folder candidate in
  if negb (path_exists w path) then Some path
  else choose_loop w base_name ext folder (S (length w)) 2.

(** The [k]-th path the resolver tries, [k] counted from 1. *)
Definition candidate_path (base_name ext folder : str) (k : N) : str :=
  if (k <=? 1)%N then join folder (base_name ++ ext)
  else join folder (numbered base_name ext k).

(** A returned path is claimed: an empty file is created there. *)
Definition claim (p : str) (w : world) : world := (p, File []) :: w.

(** [n] calls in a row with the same arguments, each returned path claimed
    before the next call. *)
Fixpoint resolve_n (n : nat) (base_name ext folder : str) (w : world) : list str :=
  match n with
  | O => []
  | S n' =>
      match choose_unique_filename base_name ext folder w with
      | Some p => p :: resolve_n n' base_name ext folder (claim p w)
      | None => []
      end
  end.

(** [k] is the call's answer in [w]: the [k]-th path does not exist, and
    every path tried before it does. *)
Definition first_free (base_name ext folder : str) (w : world) (k : N) : Prop :=
  (1 <= k)%N /\
  path_exists w (candidate_path base_name ext folder k) = false /\
  forall j, (1 <= j < k)%N ->
    path_exists w (candidate_path base_name ext folder j) = true.

(** [ks] are the answers of calls in a row from [w], each answer claimed
    before the next call. *)
Fixpoint successive (base_name ext folder : str) (w : world) (ks : list N) : Prop :=
  match ks with
  | [] => True
  | k :: ks' =>
      first_free base_name ext folder w k /\
      successive base_name ext folder
        (claim (candidate_path base_name ext folder k) w) ks'
  end.

(** ** What the program takes from outside its source *)

(** [DOCX_AVAILABLE]: whether [python-docx] could be imported.
    [docx_set_header data label]: the bytes of the document [data] after
    python-docx has set its header to [label] and saved it; [None] when any
    of these steps raises.
    [unicode_lower]: [str.lower] on a string that holds a code point outside
    ASCII (the tables of the Unicode database). *)
Class Platform := {
  DOCX_AVAILABLE : bool;
  docx_set_header : list N -> str -> option (list N);
  unicode_lower : str -> str
}.

(** [s.lower()] *)
Definition lower `{Platform} (s : str) : str :=
  if forallb is_ascii s then map ascii_lower s else unicode_lower s.

(** ** The state a run threads *)

(** What a run did to the filesystem, in order: a file copied, the header
    stamper called. *)
Inductive event :=
| Copied (src dst : str)
| HeaderCall (docx_path filename : str).

(** The filesystem, the record of what was done to it, and the two counters
    of [copy_from_local_folder]. *)
Record state := mkState {
  fs : world;
  log : list event;
  total_found : nat;
  total_copied : nat
}.

(** A statement or call: from a state to its result and the state it
    leaves, also when it raises. *)
Definition M (A : Type) : Type := state -> result A * state.

Definition ret {A : Type} (a : A) : M A := fun st => (Ok a, st).

Definition bind {A B : Type} (m : M A) (k : A -> M B) : M B :=
  fun st =>
    match m st with
    | (Ok a, st') => k a st'
    | (Raise e, st') => (Raise e, st')
    | (OutOfFuel, st') => (OutOfFuel, st')
    end.

Declare Scope monad_scope.
Delimit Scope monad_scope with monad.
Notation "x <- m ;; k" := (bind m (fun x => k))
  (at level 61, m at next level, right associativity) : monad_scope.
Notation "m ;; k" := (bind m (fun _ => k))
  (at level 61, right associativity) : monad_scope.
Local Open Scope monad_scope.

Definition out_of_fuel {A : Type} : M A := fun st => (OutOfFuel, st).

(** A call that reads the filesystem and may raise. *)
Definition reading {A : Type} (f : world -> result A) : M A :=
  fun st => (f (fs st), st).

(** [for x in l: body(x)]; an exception in [body] ends the loop. *)
Fixpoint for_each {A : Type} (l : list A) (body : A -> M unit) : M unit :=
  match l with
  | [] => ret tt
  | x :: l' => body x ;; for_each l' body
  end.

Definition set_fs (w : world) (st : state) : state :=
  mkState w (log st) (total_found st) (total_copied st).

Definition record (e : event) (st : state) : state :=
  mkState (fs st) (log st ++ [e]) (total_found st) (total_copied st).

(** [total_found += 1] *)
Definition incr_found : M unit :=
  fun st => (Ok tt, mkState (fs st) (log st) (total_found st + 1) (total_copied st)).

(** [total_copied += 1] *)
Definition incr_copied : M unit :=
  fun st => (Ok tt, mkState (fs st) (log st) (total_found st) (total_copied st + 1)).

(** What Python refuses to hand to the operating system as a path
    ([os.fsencode], UTF-8 with [surrogateescape]): a code point that cannot
    be encoded, which is a surrogate other than U+DC80..U+DCFF or a number
    beyond U+10FFFF; and a NUL. *)
Definition encodable (c : char) : bool :=
  ((c <? 55296) || (57343 <? c) && (c <? 1114112) ||
   (56448 <=? c) && (c <=? 56575))%N.

Definition conversion_error (p : str) : option exn :=
  if negb (forallb encodable p) then Some UnicodeEncodeError
  else if char_in 0%N p then Some NullByteError
  else None.

(** The bytes of a code point in a path: those of UTF-8, and one for a
    surrogate U+DC80..U+DCFF, which stands for a byte that could not be
    decoded. *)
Definition encoded_length (c : char) : N :=
  if (c <? 128)%N then 1%N
  else if (c <? 2048)%N then 2%N
  else if ((56448 <=? c) && (c <=? 56575))%N then 1%N
  else if (c <? 65536)%N then 3%N
  else 4%N.

Definition fsencode_length (p : str) : N :=
  fold_right (fun c n => (encoded_length c + n)%N) 0%N p.

(** The limits of Linux on the bytes of a path: [NAME_MAX] for one
    component, [PATH_MAX] for the whole path with its final NUL. *)
Definition NAME_MAX : N := 255.
Definition PATH_MAX : N := 4096.

(** The exception for a component that is not in its directory: for its
    length, or for its absence. *)
Definition absent_error (nm : str) : exn :=
  if (NAME_MAX <? fsencode_length nm)%N then OSError else FileNotFoundError.

(** Why the path [p], which names nothing, cannot be walked to.  The
    components are taken from the left: a file on the way is no directory
    ([ENOTDIR]); otherwise the first component that is not there decides.
    [n] bounds the number of components. *)
Fixpoint missing_error (w : world) (n : nat) (p : str) : exn :=
  match n with
  | O => absent_error (basename p)
  | S n' =>
      let up := dirname p in
      if is_empty up || str_eqb up p then absent_error (basename p)
      else
        match lookup w up with
        | Some (Dir _) => absent_error (basename p)
        | Some (File _) => NotADirectoryError
        | None => missing_error w n' up
        end
  end.

(** What [open(dst, 'wb')] raises for a path that names nothing; [None]
    when it creates the file.  A path without a directory is created in the
    current directory; the empty path names nothing that can be created. *)
Definition create_error (w : world) (dst : str) : option exn :=
  if is_empty dst then Some FileNotFoundError
  else if (PATH_MAX <=? fsencode_length dst)%N then Some OSError
  else
    let too_long := (NAME_MAX <? fsencode_length (basename dst))%N in
    let d := dirname dst in
    if is_empty d then (if too_long then Some OSError else None)
    else
      match lookup w d with
      | Some (Dir _) => if too_long then Some OSError else None
      | Some (File _) => Some NotADirectoryError
      | None => Some (missing_error w (length d) d)
      end.

(** [shutil.copy2(src, dst)]: the bytes of [src] written to [dst] (inside
    [dst] when that is a directory).  [os.stat(dst)] comes first, in
    [shutil._samefile], and with it the refusal of a path that cannot be
    converted; then [src] is opened, then [dst].  The path [src] is taken to
    be one that can be converted, as every path of a listing is.
    Permissions on files, special files and file metadata are not
    modelled. *)
Definition copy2 (src dst : str) : M unit :=
  fun st =>
    let w := fs st in
    match conversion_error dst with
    | Some e => (Raise e, st)
    | None =>
        let dst := if path_isdir w dst then join dst (basename src) else dst in
        match lookup w src with
        | Some (File data) =>
            if str_eqb src dst then (Raise SameFileError, st)
            else if path_isdir w dst then (Raise IsADirectoryError, st)
            else
              match (if path_exists w dst then None else create_error w dst) with
              | Some e => (Raise e, st)
              | None => (Ok tt, record (Copied src dst) (set_fs (write w dst data) st))
              end
        | Some (Dir _) => (Raise IsADirectoryError, st)
        | None => (Raise FileNotFoundError, st)
        end
    end.

(** ** add_filename_to_docx_header *)

Definition add_filename_to_docx_header `{Platform} (docx_path filename : str) : M bool :=
  fun st =>
    let st := record (HeaderCall docx_path filename) st in
    if negb DOCX_AVAILABLE then (Ok false, st)
    else
      match lookup (fs st) docx_path with
      | Some (File data) =>
          match docx_set_header data filename with
          | Some data' => (Ok true, set_fs (write (fs st) docx_path data') st)
          | None => (Ok false, st)
          end
      | _ => (Ok false, st)
      end.

(** ** copy_from_local_folder *)

(** [os.walk(root)] with the body of its [for] loop: the directories still
    to visit are on [stack]; each is listed when it is reached, its files
    are handed to [body], and its subdirectories are visited next.  A
    directory that cannot be listed is passed over.  [fuel] bounds the number
    of directories visited. *)
Fixpoint walk (fuel : nat) (stack : list str) (body : str -> list str -> M unit)
    : M unit :=
  match stack with
  | [] => ret tt
  | top :: stack' =>
      match fuel with
      | O => out_of_fuel
      | S fuel' =>
          fun st =>
            match scandir (fs st) top with
            | Ok entries =>
                let dirs := map name (filter is_dir entries) in
                let nondirs := map name (filter (fun e => negb (is_dir e)) entries) in
                (body top nondirs ;;
                 walk fuel' (map (join top) dirs ++ stack') body) st
            | _ => walk fuel' stack' body st
            end
      end
  end.

(** A Python value used as a condition. *)
Definition truthy (s : str) : bool := negb (is_empty s).

(** [sanitize_filename(x).strip() if x and x.strip() else ""] *)
Definition safe_part (x : option str) : str :=
  match x with
  | Some s => if truthy s && truthy (strip s) then strip (sanitize_filename s) else []
  | None => []
  end.

(** The [if]/[elif] chain that builds [base_name]. *)
Definition make_base_name (safe_prefix student_name safe_suffix : str) : str :=
  if truthy safe_prefix && truthy safe_suffix
  then safe_prefix ++ [SPACE] ++ student_name ++ [SPACE] ++ safe_suffix
  else if truthy safe_prefix then safe_prefix ++ [SPACE] ++ student_name
  else if truthy safe_suffix then student_name ++ [SPACE] ++ safe_suffix
  else student_name.

(** The body of [for fname in files]. *)
Definition process_file `{Platform} (add_to_header : bool)
    (base_name output _dirpath fname : str) : M unit :=
  incr_found ;;
  let ext := snd (splitext fname) in
  dest_path <- (fun st =>
      match choose_unique_filename base_name ext output (fs st) with
      | Some p => (Ok p, st)
      | None => (OutOfFuel, st)
      end) ;;
  let src_path := join _dirpath fname in
  copy2 src_path dest_path ;;
  (if add_to_header && str_eqb (lower ext) (py ".docx")
   then _ <- add_filename_to_docx_header dest_path base_name ;; ret tt
   else ret tt) ;;
  incr_copied.

(** [for root in roots_to_walk: for _dirpath, _dirs, files in os.walk(root): ...] *)
Definition walk_roots `{Platform} (fuel : nat) (add_to_header : bool)
    (base_name output : str) (roots_to_walk : list str) : M unit :=
  for_each roots_to_walk (fun root =>
    walk fuel [root] (fun _dirpath files =>
      for_each files (process_file add_to_header base_name output _dirpath))).

(** The body of [for entry in os.scandir(turned_in_path)]. *)
Definition process_student `{Platform} (fuel : nat) (output : str)
    (assignment_subfolder prefix suffix : option str) (add_to_header : bool)
    (entry : DirEntry) : M unit :=
  if negb (is_dir entry) then ret tt
  else
    let student_name := sanitize_filename (name entry) in
    let student_dir := path entry in
    let safe_prefix := safe_part prefix in
    let safe_suffix := safe_part suffix in
    let base_name := make_base_name safe_prefix student_name safe_suffix in
    match assignment_subfolder with
    | Some sub =>
        if truthy sub then
          let maybe := join student_dir sub in
          fun st =>
            if path_isdir (fs st) maybe
            then walk_roots fuel add_to_header base_name output [maybe] st
            else (Ok tt, st)
        else walk_roots fuel add_to_header base_name output [student_dir]
    | None => walk_roots fuel add_to_header base_name output [student_dir]
    end.

(** [f"Path does not exist or is not a directory: {turned_in_path}"] *)
Definition not_a_directory_message (turned_in_path : str) : str :=
  py "Path does not exist or is not a directory: " ++ turned_in_path.

(** The entries of [turned_in_path] are read when the loop starts: the run
    creates files only, and the loop passes over every entry that is not a
    directory.  [fuel] is the bound handed to each [os.walk]. *)
Definition copy_from_local_folder `{Platform} (fuel : nat)
    (turned_in_path output : str) (assignment_subfolder prefix suffix : option str)
    (add_to_header : bool) : M (nat * nat) :=
  fun st =>
    if negb (path_isdir (fs st) turned_in_path)
    then (Raise (RuntimeError (not_a_directory_message turned_in_path)), st)
    else
      (entries <- reading (fun w => scandir w turned_in_path) ;;
       for_each entries
         (process_student fuel output assignment_subfolder prefix suffix add_to_header) ;;
       fun st' => (Ok (total_found st', total_copied st'), st'))
      (mkState (fs st) (log st) 0 0).

(** A run from the filesystem [w]: nothing done yet, both counters 0. *)
Definition start (w : world) : state := mkState w [] 0 0.

(** ** Properties of runs *)

(** Every normal end of [m] from [st] is in a state that [R] relates to
    [st]. *)
Definition keeps {A : Type} (R : state -> state -> Prop) (m : M A) : Prop :=
  forall st a st', m st = (Ok a, st') -> R st st'.

(** Every end of [m], normal or not. *)
Definition always {A : Type} (R : state -> state -> Prop) (m : M A) : Prop :=
  forall st r st', m st = (r, st') -> R st st'.

(** A run from [st] to [st'] has added as much to one counter as to the
    other. *)
Definition in_step (st st' : state) : Prop :=
  total_found st' + total_copied st = total_found st + total_copied st'.

(** What one copied file leaves in the record: its copy, followed by the
    call of the header stamper exactly when stamping is requested and the
    extension of the file name, in lower case, is [.docx]. *)
Definition file_events `{Platform} (add_to_header : bool) (es : list event) : Prop :=
  exists _dirpath fname dest_path base_name,
    es = Copied (join _dirpath fname) dest_path ::
      (if add_to_header && str_eqb (lower (snd (splitext fname))) (py ".docx")
       then [HeaderCall dest_path base_name] else []).

(** From [st] to [st'] the record has grown by the events of copied files,
    file after file. *)
Definition by_files `{Platform} (add_to_header : bool) (st st' : state) : Prop :=
  exists groups,
    Forall (file_events add_to_header) groups /\
    log st' = log st ++ concat groups.



(** ** collect_assignment_subfolders *)

(** [names.add(x)] on a set kept as a list without repeats. *)
Definition set_add (x : str) (names : list str) : list str :=
  if existsb (str_eqb x) names then names else x :: names.

(** [for sub in os.scandir(student_dir): if sub.is_dir(): names.add(sub.name)] *)
Definition add_subfolders (subs : list DirEntry) (names : list str) : list str :=
  fold_left (fun acc sub => if is_dir sub then set_add (name sub) acc else acc)
    subs names.

(** [for entry in os.scandir(turned_in_path)] with its [try]. *)
Fixpoint scan_students (w : world) (entries : list DirEntry) (names : list str)
    : result (list str) :=
  match entries with
  | [] => Ok names
  | entry :: rest =>
      if negb (is_dir entry) then scan_students w rest names
      else
        let student_dir := path entry in
        match scandir w student_dir with
        | Ok subs => scan_students w rest (add_subfolders subs names)
        | Raise PermissionError => scan_students w rest names
        | Raise e => Raise e
        | OutOfFuel => OutOfFuel
        end
  end.

(** [a <= b] on [str]: by code points, lexicographically. *)
Fixpoint str_leb (a b : str) : bool :=
  match a, b with
  | [], _ => true
  | _ :: _, [] => false
  | x :: a', y :: b' =>
      if (x <? y)%N then true
      else if (y <? x)%N then false
      else str_leb a' b'
  end.

Fixpoint insert_sorted (x : str) (l : list str) : list str :=
  match l with
  | [] => [x]
  | y :: l' => if str_leb x y then x :: l else y :: insert_sorted x l'
  end.

(** [sorted(names)] *)
Definition sorted (names : list str) : list str := fold_right insert_sorted [] names.

Definition collect_assignment_subfolders (w : world) (turned_in_path : str)
    : result (list str) :=
  if negb (path_isdir w turned_in_path) then Ok []
  else
    match scandir w turned_in_path with
    | Ok entries =>
        match scan_students w entries [] with
        | Ok names => Ok (sorted names)
        | Raise e => Raise e
        | OutOfFuel => OutOfFuel
        end
    | Raise e => Raise e
    | OutOfFuel => OutOfFuel
    end.

(** [n] is the name of a directory directly inside one of the student
    folders among [entries] that can be listed. *)
Definition assignment_of (w : world) (entries : list DirEntry) (n : str) : Prop :=
  exists student subs sub,
    In student entries /\ is_dir student = true /\
    scandir w (path student) = Ok subs /\
    In sub subs /\ is_dir sub = true /\ name sub = n.

(** ** Filesystems of the specification's examples *)

(** A platform without python-docx, for the examples: no document is
    changed, and lower-casing leaves non-ASCII strings as they are. *)
Definition plain_platform : Platform :=
  {| DOCX_AVAILABLE := false;
     docx_set_header := fun _ _ => None;
     unicode_lower := fun s => s |}.

(** Students [Jane_Doe] and [Bob Smith], each with a file [x.txt], and an
    empty output folder. *)
Definition two_students : world :=
  [ (py "root", Dir true);
    (py "root/Jane_Doe", Dir true);
    (py "root/Jane_Doe/x.txt", File [1%N]);
    (py "root/Bob Smith", Dir true);
    (py "root/Bob Smith/x.txt", File [2%N]);
    (py "out", Dir true) ].

(** Three students with the assignment folders Quiz and Essay; Essay; and a
    folder that cannot be listed. *)
Definition three_students : world :=
  [ (py "root", Dir true);
    (py "root/Ann", Dir true);
    (py "root/Ann/Quiz", Dir true);
    (py "root/Ann/Quiz/q1.txt", File [1%N]);
    (py "root/Ann/Essay", Dir true);
    (py "root/Ann/notes.txt", File [2%N]);
    (py "root/Ben", Dir true);
    (py "root/Ben/Essay", Dir true);
    (py "root/Ben/Essay/Drafts", Dir true);
    (py "root/Ben/Essay/Drafts/e.txt", File [3%N]);
    (py "root/Cy", Dir false);
    (py "root/Cy/Exam", Dir true);
    (py "root/readme.txt", File []);
    (py "out", Dir true) ].

(** One student with two text files. *)
Definition two_files : world :=
  [ (py "root", Dir true);
    (py "root/Jane_Doe", Dir true);
    (py "root/Jane_Doe/a.txt", File [1%N]);
    (py "root/Jane_Doe/b.txt", File [2%N]);
    (py "out", Dir true) ].

(** A platform with python-docx, for the examples: stamping puts the label
    in front of the bytes of the document. *)
Definition docx_platform : Platform :=
  {| DOCX_AVAILABLE := true;
     docx_set_header := fun data label => Some (label ++ data);
     unicode_lower := fun s => s |}.

(** One student with a document and a text file. *)
Definition one_document : world :=
  [ (py "root", Dir true);
    (py "root/Ann", Dir true);
    (py "root/Ann/essay.DOCX", File [7%N]);
    (py "root/Ann/notes.txt", File [8%N]);
    (py "out", Dir true) ].

(** ** More words about sanitized names *)

(** A name on which the sanitizer finds nothing to do. *)
Definition clean (s : str) : Prop :=
  Forall kept s /\
  has_double_space s = false /\
  starts_in is_whitespace s = false /\
  ends_in is_whitespace s = false /\
  endswith DOT s = false /\
  s <> [].

(** A character that ends as whitespace: refused, an underscore, or
    whitespace already. *)
Definition separator (c : char) : bool :=
  char_in c invalid || char_eqb c UNDERSCORE || is_whitespace c.

(** ** More words about runs *)

(** The destinations of the copies in a record. *)
Definition destinations (es : list event) : list str :=
  flat_map (fun e => match e with
                     | Copied _ dst => [dst]
                     | HeaderCall _ _ => []
                     end) es.

(** The number of copies in a record. *)
Definition copies (es : list event) : nat := length (destinations es).

(** What a run from [st] to [st'] did to the filesystem.  It recorded the
    events [es]; every path that named something before names the same thing
    after; the destinations of its copies are pairwise different paths that
    did not exist before and exist after; no other path was created; and the
    destination of each copy holds the bytes of its source, or, for a file
    name with the extension [.docx] in lower case, what python-docx made of
    them for the header. *)
Definition effect `{Platform} (add_to_header : bool) (st st' : state)
    (es : list event) : Prop :=
  log st' = log st ++ es /\
  (forall p n, lookup (fs st) p = Some n -> lookup (fs st') p = Some n) /\
  NoDup (destinations es) /\
  (forall d, In d (destinations es) ->
     path_exists (fs st) d = false /\ path_exists (fs st') d = true) /\
  (forall p, path_exists (fs st') p = true ->
     path_exists (fs st) p = true \/ In p (destinations es)) /\
  (forall src dst, In (Copied src dst) es ->
     exists data,
       lookup (fs st') src = Some (File data) /\
       (lookup (fs st') dst = Some (File data) \/
        add_to_header = true /\ DOCX_AVAILABLE = true /\
        exists d fname label data',
          src = join d fname /\
          lower (snd (splitext fname)) = py ".docx" /\
          docx_set_header data label = Some data' /\
          lookup (fs st') dst = Some (File data'))).

Definition has_effect `{Platform} (add_to_header : bool) (st st' : state) : Prop :=
  exists es, effect add_to_header st st' es.

(** The counter of copies has moved by the number of copies recorded. *)
Definition counted (st st' : state) : Prop :=
  copies (log st') + total_copied st = copies (log st) + total_copied st'.

(** From [st] to [st'] the record has grown by events that all satisfy [P]. *)
Definition records (P : event -> Prop) (st st' : state) : Prop :=
  exists es, log st' = log st ++ es /\ Forall P es.

(** The name of one entry of a directory: not empty, without a slash. *)
Definition valid_name (nm : str) : Prop := nm <> [] /\ ~ In SLASH nm.

(** The path [p] lies below the directory [d]: it is [d], a slash unless
    [d] is empty or ends in one, and more. *)
Definition inside (d p : str) : Prop :=
  exists rest,
    p = (if is_empty d || endswith SLASH d then d else d ++ [SLASH]) ++ rest.

(** The name of the [k]-th candidate: the plain name, or the numbered one. *)
Definition output_name (base_name ext : str) (k : N) : str :=
  if (k <=? 1)%N then base_name ++ ext else numbered base_name ext k.

(** The base name the collector gives the files of a student folder. *)
Definition base_name_of (prefix suffix : option str) (student : DirEntry) : str :=
  make_base_name (safe_part prefix) (sanitize_filename (name student))
    (safe_part suffix).

(** What a copy in the record of a run is: a file [fname] of a directory [d]
    that the walk for a student folder reaches (one of the directories
    [Q student]), copied under a name made of the student's base name, the
    extension of [fname] and, from the second candidate on, a number.  A
    call of the stamper may be anything. *)
Definition student_copy (w : world) (turned_in_path output : str)
    (prefix suffix : option str) (Q : DirEntry -> str -> Prop) (e : event) : Prop :=
  match e with
  | Copied src dst =>
      exists student d fname k,
        In student (listing w turned_in_path) /\ is_dir student = true /\
        Q student d /\ valid_name fname /\ src = join d fname /\
        (1 <= k)%N /\
        dst = join output
                (output_name (base_name_of prefix suffix student)
                   (snd (splitext fname)) k)
  | HeaderCall _ _ => True
  end.

(** ** Runs for the examples *)

(** The filesystem of [one_document] after an earlier run left a file
    [Ann.txt] in the output folder. *)
Definition previous_run : world :=
  [ (py "root", Dir true);
    (py "root/Ann", Dir true);
    (py "root/Ann/essay.DOCX", File [7%N]);
    (py "root/Ann/notes.txt", File [8%N]);
    (py "out", Dir true);
    (py "out/Ann.txt", File [9%N]) ].

(** A run with stamping over [previous_run]. *)
Definition rerun : result (nat * nat) * state :=
  @copy_from_local_folder docx_platform 5 (py "root") (py "out") None None None
    true (start previous_run).

(** A run with the selector [Quiz] over [three_students]. *)
Definition quiz_run : result (nat * nat) * state :=
  @copy_from_local_folder plain_platform 5 (py "root") (py "out")
    (Some (py "Quiz")) None None false (start three_students).

(** A run over [two_students] into an output folder that is not there. *)
Definition lost_run : result (nat * nat) * state :=
  @copy_from_local_folder plain_platform 5 (py "root") (py "archive/out")
    None None None false (start two_students).

(** ** The end of a run *)

(** The names of the subdirectories [os.walk] finds in [d]. *)
Definition subdirs (w : world) (d : str) : list str :=
  map name (filter is_dir (listing w d)).

(** The directories of a tree in which a directory has at most [n]
    subdirectories and that is [depth] levels deep, at most. *)
Fixpoint visits (n depth : nat) : nat :=
  match depth with
  | O => 1
  | S depth' => 1 + n * visits n depth'
  end.

(** The length of the longest path of [w]. *)
Definition longest (w : world) : nat := list_max (map (fun b => length (fst b)) w).

(** A bound on the directories a walk from [p] visits in [w]. *)
Definition cost (w : world) (p : str) : nat := visits (length w) (longest w - length p).

(** Fuel that is enough for every walk in [w]. *)
Definition enough_fuel (w : world) : nat := visits (length w) (longest w).

(** From a state that satisfies [I], [m] ends in a state that satisfies
    [I], normally or with an exception. *)
Definition finishes {A : Type} (I : state -> Prop) (m : M A) : Prop :=
  forall st r st', I st -> m st = (r, st') -> I st' /\ r <> OutOfFuel.

(** The directories of [st] have the subdirectories they have in [w]. *)
Definition same_subdirs (w : world) (st : state) : Prop :=
  forall d, subdirs (fs st) d = subdirs w d.

(** ** The exceptions of a run *)



(** A student whose folder has a name of 250 letters, with one file. *)
Definition long_name : str := repeat 97%N 250.

Definition long_student : world :=
  [ (py "root", Dir true);
    (py "root/" ++ long_name, Dir true);
    (py "root/" ++ long_name ++ py "/x.txt", File [1%N]);
    (py "out", Dir true) ].


(** A run with the selector [Quiz] over [three_students] whose output
    folder is the file [root/readme.txt]. *)
Definition file_output_run : result (nat * nat) * state :=
  @copy_from_local_folder plain_platform 5 (py "root") (py "root/readme.txt")
    (Some (py "Quiz")) None None false (start three_students).

(** ** main *)

(** What [main] writes to the terminal: a line it prints, or the prompt of
    an [input]. *)
Inductive console_event :=
| Print (line : str)
| Prompt (text : str).

(** How [main] ends when it does not return: [input] finds the input at its
    end, [int] refuses its argument, [os.makedirs] raises, an exception of
    the functions above passes through, or the fuel of the collector runs
    out. *)
Inductive crash :=
| EOFError
| ValueError
| MakedirsError
| Propagated (e : exn)
| Fuel.

(** What [main] takes from Python and from the installation, and this
    development leaves open: [str.isdigit]; [int] on a string ([None] when
    it raises [ValueError]); the directory of the script,
    [os.path.dirname(os.path.abspath(__file__))]; and
    [os.makedirs(path, exist_ok=True)] ([None] when it raises). *)
Class Builtins := {
  str_isdigit : str -> bool;
  int_of_str : str -> option N;
  program_root : str;
  makedirs : world -> str -> option world
}.

(** [ensure_dir(path)] on the filesystem [w]: the filesystem it leaves, or
    [None] when [os.makedirs] raises. *)
Definition ensure_dir `{Builtins} (path : str) (w : world) : option world :=
  makedirs w path.

(** The lines still to be read, what was written, and the filesystem. *)
Record terminal := mkTerminal {
  stdin : list str;
  stdout : list console_event;
  disk : world
}.

(** What a part of [main] ends in: a value, or the end of [main]. *)
Inductive answer (A : Type) :=
| Answered (a : A) (t : terminal)
| Failed (e : crash) (t : terminal).
Arguments Answered {A} a t.
Arguments Failed {A} e t.

Definition and_then {A B : Type} (a : answer A) (k : A -> terminal -> answer B)
    : answer B :=
  match a with
  | Answered x t => k x t
  | Failed e t => Failed e t
  end.

(** [print(line)] *)
Definition print (line : str) (t : terminal) : terminal :=
  mkTerminal (stdin t) (stdout t ++ [Print line]) (disk t).

(** [input(prompt)] *)
Definition input (prompt : str) (t : terminal) : answer str :=
  match stdin t with
  | [] => Failed EOFError (mkTerminal [] (stdout t ++ [Prompt prompt]) (disk t))
  | line :: rest => Answered line (mkTerminal rest (stdout t ++ [Prompt prompt]) (disk t))
  end.

(** The [while not turned_in_path] loop: [lines] are the lines still to be
    read, [out] is what was written. *)
Fixpoint ask_path (w : world) (lines : list str) (out : list console_event)
    : answer str :=
  match lines with
  | [] =>
      Failed EOFError
        (mkTerminal [] (out ++ [Prompt (py "Enter path to submitted files folder: ")]) w)
  | line :: rest =>
      let out := out ++ [Prompt (py "Enter path to submitted files folder: ")] in
      let p := strip line in
      if negb (truthy p)
      then ask_path w rest (out ++ [Print (py "A path is required.")])
      else if negb (path_isdir w p)
      then ask_path w rest
             (out ++ [Print (py "That path does not exist or is not a directory. Try again.")])
      else Answered p (mkTerminal rest out w)
  end.

(** [for idx, name in enumerate(assignments, start=1): print(f"  {idx}. {name}")] *)
Definition menu (assignments : list str) : list console_event :=
  map (fun '(idx, n) => Print (py "  " ++ str_of_int (N.of_nat idx) ++ py ". " ++ n))
    (combine (seq 1 (length assignments)) assignments).

(** The [while True] loop of the selection. *)
Fixpoint ask_selection `{Builtins} (w : world) (assignments : list str)
    (lines : list str) (out : list console_event) : answer str :=
  match lines with
  | [] =>
      Failed EOFError
        (mkTerminal []
           (out ++ [Prompt (py "Select assignment number to extract (or type exact name): ")])
           w)
  | line :: rest =>
      let out :=
        out ++ [Prompt (py "Select assignment number to extract (or type exact name): ")] in
      let sel := strip line in
      if str_isdigit sel then
        match int_of_str sel with
        | None => Failed ValueError (mkTerminal rest out w)
        | Some i =>
            if ((1 <=? i) && (i <=? N.of_nat (length assignments)))%N
            then Answered (nth (N.to_nat i - 1) assignments []) (mkTerminal rest out w)
            else ask_selection w assignments rest out
        end
      else if truthy sel then
        if existsb (str_eqb sel) assignments
        then Answered sel (mkTerminal rest out w)
        else ask_selection w assignments rest
               (out ++ [Print (py "Name not found in detected list. Please choose a number or exact name.")])
      else ask_selection w assignments rest (out ++ [Print (py "A selection is required.")])
  end.

(** [header_input in ("y", "yes")] *)
Definition affirmative (header_input : str) : bool :=
  str_eqb header_input (py "y") || str_eqb header_input (py "yes").

(** [x or None] for a string [x]. *)
Definition or_None (x : str) : option str := if truthy x then Some x else None.

(** The arguments [main] calls the collector with. *)
Record call := mkCall {
  call_turned_in_path : str;
  call_output : str;
  call_selected_assignment : option str;
  call_prefix : option str;
  call_suffix : option str;
  call_add_to_header : bool
}.

(** The output folder [main] proposes: [default_out]. *)
Definition default_output `{Builtins} (selected_assignment : option str) : str :=
  match selected_assignment with
  | Some a =>
      if truthy a
      then join (join program_root (py "downloads")) (sanitize_filename a)
      else join (join program_root (py "downloads")) (py "unnamed_assignment")
  | None => join (join program_root (py "downloads")) (py "unnamed_assignment")
  end.

(** [main] up to the call of the collector: the questions, the discovery
    and the creation of the output folder. *)
Definition main_settings `{Platform} `{Builtins} (t : terminal) : answer call :=
  let t := print (py "Microsoft Teams Assignment Downloader") t in
  let t := print (py "-----------------------------------") t in
  let t := print (py "Provide the path to the submitted files root. Structure:") t in
  let t := print (py "  <Root>\<Student Name>\<Assignment Name>\<files>") t in
  and_then (ask_path (disk t) (stdin t) (stdout t)) (fun turned_in_path t =>
  match collect_assignment_subfolders (disk t) turned_in_path with
  | Raise e => Failed (Propagated e) t
  | OutOfFuel => Failed Fuel t
  | Ok assignments =>
  and_then
    (match assignments with
     | [] =>
         Answered None
           (print (py "No assignment subfolders detected; will copy files directly under each student folder.") t)
     | _ :: _ =>
         let t := print (py "Detected assignment folders:") t in
         and_then
           (ask_selection (disk t) assignments (stdin t) (stdout t ++ menu assignments))
           (fun sel t => Answered (Some sel) t)
     end)
    (fun selected_assignment t =>
  let default_out := default_output selected_assignment in
  and_then (input (py "Enter output folder path [" ++ default_out ++ py "]: ") t)
    (fun line t =>
  let output := if truthy (strip line) then strip line else default_out in
  match ensure_dir output (disk t) with
  | None => Failed MakedirsError t
  | Some w' =>
  let t := mkTerminal (stdin t) (stdout t) w' in
  and_then
    (input (py "Enter prefix to add before student name (optional, press Enter to skip): ") t)
    (fun line t =>
  let prefix := or_None (strip line) in
  and_then
    (input (py "Enter suffix to add after student name (optional, press Enter to skip): ") t)
    (fun line t =>
  let suffix := or_None (strip line) in
  and_then
    (if DOCX_AVAILABLE then
       and_then (input (py "Add filename to DOCX document headers? [y/N]: ") t)
         (fun line t =>
            let header_input := lower (strip line) in
            Answered (affirmative header_input) t)
     else
       and_then
         (input (py "Add filename to DOCX document headers? [y/N] (requires python-docx): ") t)
         (fun line t =>
            let header_input := lower (strip line) in
            if affirmative header_input
            then Answered false
                   (print (py "Install it with: pip install python-docx")
                      (print (py "Warning: python-docx is not installed. Headers will not be modified.") t))
            else Answered false t))
    (fun add_to_header t =>
  Answered
    (mkCall turned_in_path output selected_assignment prefix suffix add_to_header)
    t)))
  end))
  end).

(** [main]: how it ends ([None]: it returned), and the terminal and the
    filesystem it leaves.  [fuel] is the bound handed to the collector. *)
Definition main `{Platform} `{Builtins} (fuel : nat) (t : terminal)
    : option crash * terminal :=
  match main_settings t with
  | Failed e t => (Some e, t)
  | Answered c t =>
      match copy_from_local_folder fuel (call_turned_in_path c) (call_output c)
              (call_selected_assignment c) (call_prefix c) (call_suffix c)
              (call_add_to_header c) (start (disk t)) with
      | (Ok (total_found, total_copied), st') =>
          (None,
           print (py "Done. Files found: " ++ str_of_int (N.of_nat total_found)
                  ++ py ", copied: " ++ str_of_int (N.of_nat total_copied) ++ py ".")
             (mkTerminal (stdin t) (stdout t) (fs st')))
      | (Raise e, st') =>
          (Some (Propagated e), mkTerminal (stdin t) (stdout t) (fs st'))
      | (OutOfFuel, st') => (Some Fuel, mkTerminal (stdin t) (stdout t) (fs st'))
      end
  end.

(** Built-ins for the examples: the digits are the ASCII digits, [int]
    reads them in base ten, the script lies in [/opt/tool], and
    [os.makedirs] creates the directory itself when nothing has its path. *)
Definition ascii_builtins : Builtins :=
  {| str_isdigit := fun s =>
       negb (is_empty s) && forallb (fun c => (48 <=? c) && (c <=? 57))%N s;
     int_of_str := fun s => Some (fold_left (fun acc c => acc * 10 + (c - 48))%N s 0%N);
     program_root := py "/opt/tool";
     makedirs := fun w p =>
       if path_isdir w p then Some w
       else if path_exists w p then None
       else Some ((p, Dir true) :: w) |}.

(** The terminal a part of [main] leaves. *)
Definition terminal_of {A : Type} (a : answer A) : terminal :=
  match a with
  | Answered _ t => t
  | Failed _ t => t
  end.

(** A session over [three_students]: a folder that is not there, the right
    one, a number out of range, a name that is not offered, the second
    assignment, the output folder, no prefix, a suffix, and no stamping. *)
Definition session : list str :=
  [ py "nowhere"; py " root "; py "7"; py "Exam"; py "2"; py "out"; py "";
    py " final "; py "Y" ].


(** ** Every file is copied *)

(** The names of the files [os.walk] finds in [d]. *)
Definition files_of (w : world) (d : str) : list str :=
  map name (filter (fun e => negb (is_dir e)) (listing w d)).

(** The directories [os.walk(root)] comes to in [w]: the root, and what it
    comes to from the subdirectories of the root when the root can be
    listed. *)
Inductive reaches (w : world) : str -> str -> Prop :=
| reaches_root (root : str) : reaches w root root
| reaches_sub (root nm d : str) :
    lookup w root = Some (Dir true) -> In nm (subdirs w root) ->
    reaches w (join root nm) d -> reaches w root d.

(** The directory the collector walks for a student. *)
Definition walk_root (assignment_subfolder : option str) (student : DirEntry) : str :=
  match assignment_subfolder with
  | Some sub => if truthy sub then join (path student) sub else path student
  | None => path student
  end.

(** From [w] to [w'] nothing was lost and no directory was made: a path
    names what it named, the directories have the subdirectories they had, and
    the files they had. *)
Definition grows (w w' : world) : Prop :=
  (forall p n, lookup w p = Some n -> lookup w' p = Some n) /\
  (forall d, subdirs w' d = subdirs w d) /\
  (forall d f, In f (files_of w d) -> In f (files_of w' d)).

Definition advances (st st' : state) : Prop :=
  grows (fs st) (fs st') /\ exists es, log st' = log st ++ es.

(** From [st] to [st'] a copy of [src] was recorded. *)
Definition copied_from (st st' : state) (src : str) : Prop :=
  exists es dst, log st' = log st ++ es /\ In (Copied src dst) es.

(** ** What a run walks *)

(** From [w] to [w'] nothing was lost and no directory was made: [w'] has
    grown from [w], and a directory of [w'] is that directory in [w]. *)
Definition same_dirs (w w' : world) : Prop :=
  grows w w' /\
  forall p b, lookup w' p = Some (Dir b) -> lookup w p = Some (Dir b).

(** The directories the walk for a student lists in [w]: those it comes to
    from its root, and can list. *)
Definition walked (w : world) (assignment_subfolder : option str)
    (student : DirEntry) (d : str) : Prop :=
  reaches w (walk_root assignment_subfolder student) d /\
  lookup w d = Some (Dir true).

(** One student with a file whose name begins with its only dot, a
    document with two dots in its name, and a file without a dot. *)
Definition dot_files : world :=
  [ (py "root", Dir true);
    (py "root/Ann", Dir true);
    (py "root/Ann/.gitignore", File [1%N]);
    (py "root/Ann/essay.v2.DOCX", File [2%N]);
    (py "root/Ann/README", File [3%N]);
    (py "out", Dir true) ].

(** A run over [dot_files]. *)
Definition dotfile_run : result (nat * nat) * state :=
  @copy_from_local_folder plain_platform 5 (py "root") (py "out") None None None
    false (start dot_files).


(** What a copy in the record of one walk is: a file [fname] of a
    directory [d] that the walk from [root] lists in [w], copied under a name
    made of [base_name], the extension of [fname] and, from the second
    candidate on, a number. *)
Definition walked_copy (w : world) (root base_name output : str) (e : event) : Prop :=
  match e with
  | Copied src dst =>
      exists d fname k,
        reaches w root d /\ lookup w d = Some (Dir true) /\
        valid_name fname /\ src = join d fname /\ (1 <= k)%N /\
        dst = join output (output_name base_name (snd (splitext fname)) k)
  | HeaderCall _ _ => True
  end.

(** From a state whose filesystem has the directories of [w], [st'] is
    reached with the directories of [w] still, and with a record grown by
    events that satisfy [P]. *)
Definition from_world (w : world) (P : event -> Prop) (st st' : state) : Prop :=
  same_dirs w (fs st) -> same_dirs w (fs st') /\ records P st st'.

(* ================================================================== *)
(** * Part II.  Lemmas and theorems *)
(* ================================================================== *)

(** ** Strings *)

Lemma char_eqb_eq (a b : char) : char_eqb a b = true <-> a = b.
Proof. apply N.eqb_eq. Qed.

Lemma char_eqb_refl (a : char) : char_eqb a a = true.
Proof. apply N.eqb_refl. Qed.

Lemma char_eqb_neq (a b : char) : char_eqb a b = false <-> a <> b.
Proof. apply N.eqb_neq. Qed.

Lemma str_eqb_eq (a b : str) : str_eqb a b = true <-> a = b.
Proof.
  revert b; induction a as [|x a IH]; intros [|y b]; simpl; split; intro E;
    try reflexivity; try discriminate.
  - apply andb_true_iff in E as [E1 E2].
    apply char_eqb_eq in E1. apply IH in E2. now subst.
  - injection E as -> ->. rewrite char_eqb_refl. now apply IH.
Qed.

Lemma str_eqb_refl (a : str) : str_eqb a a = true.
Proof. now apply str_eqb_eq. Qed.

Lemma str_eqb_neq (a b : str) : str_eqb a b = false <-> a <> b.
Proof.
  split.
  - intros E ->. now rewrite str_eqb_refl in E.
  - intro N. destruct (str_eqb a b) eqn:E; [|reflexivity].
    apply str_eqb_eq in E. contradiction.
Qed.

(** Induction that follows a recursion looking two characters ahead. *)
Lemma str_ind2 (P : str -> Prop) :
  P [] ->
  (forall a, P [a]) ->
  (forall a b t, P t -> P (b :: t) -> P (a :: b :: t)) ->
  forall s, P s.
Proof.
  intros H0 H1 H2 s.
  assert (G : P s /\ forall a, P (a :: s)); [|apply G].
  induction s as [|b t [IHt IHbt]]; split; auto.
Qed.

(** ** The passes of the sanitizer *)

Section Passes.

Variable P : char -> Prop.
Hypothesis P_space : P SPACE.

Lemma replace_double_space_Forall (s : str) :
  Forall P s -> Forall P (replace_double_space s).
Proof.
  induction s as [|a|a b t IHt IHbt] using str_ind2; intro F; simpl; auto.
  inversion F as [|? ? Pa Fbt]; subst. inversion Fbt as [|? ? Pb Ft]; subst.
  destruct (char_eqb a SPACE && char_eqb b SPACE); constructor; auto.
Qed.

Lemma collapse_loop_Forall (fuel : nat) (s : str) :
  Forall P s -> Forall P (collapse_loop fuel s).
Proof.
  revert s; induction fuel as [|fuel IH]; intros s F; simpl; auto.
  destruct (has_double_space s); auto using replace_double_space_Forall.
Qed.

End Passes.

Lemma replace_double_space_length (s : str) :
  length (replace_double_space s) <= length s.
Proof.
  induction s as [|a|a b t IHt IHbt] using str_ind2; simpl; auto.
  destruct (char_eqb a SPACE && char_eqb b SPACE); simpl in *; lia.
Qed.

(** A pass that finds two spaces in a row makes the string shorter. *)
Lemma replace_double_space_shorter (s : str) :
  has_double_space s = true ->
  length (replace_double_space s) < length s.
Proof.
  induction s as [|a|a b t IHt IHbt] using str_ind2; simpl; try discriminate.
  intro H. destruct (char_eqb a SPACE && char_eqb b SPACE); simpl in *.
  - pose proof (replace_double_space_length t). lia.
  - apply IHbt in H. lia.
Qed.

(** With fuel for the length of the string, the loop ends by its own test. *)
Lemma collapse_loop_done (fuel : nat) (s : str) :
  length s <= fuel -> has_double_space (collapse_loop fuel s) = false.
Proof.
  revert s; induction fuel as [|fuel IH]; intros s L; simpl.
  - destruct s; [reflexivity | simpl in L; lia].
  - destruct (has_double_space s) eqn:E; [|exact E].
    apply IH. apply replace_double_space_shorter in E. lia.
Qed.

Lemma collapse_loop_fuel (f1 f2 : nat) (s : str) :
  length s <= f1 -> length s <= f2 -> collapse_loop f1 s = collapse_loop f2 s.
Proof.
  revert f2 s; induction f1 as [|f1 IH]; intros f2 s L1 L2.
  - destruct s; [|simpl in L1; lia]. destruct f2; reflexivity.
  - destruct f2 as [|f2].
    + destruct s; [reflexivity | simpl in L2; lia].
    + simpl. destruct (has_double_space s) eqn:E; [|reflexivity].
      apply replace_double_space_shorter in E. apply IH; lia.
Qed.

(** [collapse_spaces] is the loop of the source: test, one pass, again. *)
Lemma collapse_spaces_eq (s : str) :
  collapse_spaces s =
  if has_double_space s then collapse_spaces (replace_double_space s) else s.
Proof.
  unfold collapse_spaces. destruct s as [|a s]; [reflexivity|].
  cbn [length collapse_loop].
  destruct (has_double_space (a :: s)) eqn:E; [|reflexivity].
  apply replace_double_space_shorter in E. cbn [length] in E.
  apply collapse_loop_fuel; lia.
Qed.

Lemma collapse_spaces_done (s : str) : has_double_space (collapse_spaces s) = false.
Proof. apply collapse_loop_done. lia. Qed.

Lemma collapse_spaces_id (s : str) :
  has_double_space s = false -> collapse_spaces s = s.
Proof. intro E. rewrite collapse_spaces_eq, E. reflexivity. Qed.

Lemma has_double_space_tail (a : char) (s : str) :
  has_double_space (a :: s) = false -> has_double_space s = false.
Proof.
  destruct s as [|b t]; [reflexivity|]. simpl. intro H.
  now apply orb_false_iff in H.
Qed.

Lemma has_double_space_app_r (a b : str) :
  has_double_space (a ++ b) = false -> has_double_space b = false.
Proof.
  induction a as [|x a IH]; simpl; auto.
  intro H. apply IH. exact (has_double_space_tail _ _ H).
Qed.

Lemma has_double_space_app_l (a b : str) :
  has_double_space (a ++ b) = false -> has_double_space a = false.
Proof.
  induction a as [|x a IH]; [reflexivity|].
  destruct a as [|y a]; [reflexivity|].
  cbn [app has_double_space] in *. intro H.
  apply orb_false_iff in H as [H1 H2]. rewrite H1. simpl. auto.
Qed.

(** ** strip and rstrip *)

Lemma lstrip_suffix (p : char -> bool) (s : str) :
  exists pre, s = pre ++ lstrip p s.
Proof.
  induction s as [|c t [pre IH]]; simpl.
  - now exists [].
  - destruct (p c).
    + exists (c :: pre). simpl. now f_equal.
    + now exists [].
Qed.

Lemma rstrip_cons (p : char -> bool) (c : char) (t : str) :
  rstrip p (c :: t) =
  if is_empty (rstrip p t) && p c then [] else c :: rstrip p t.
Proof.
  simpl. destruct (rstrip p t); simpl; [destruct (p c)|]; reflexivity.
Qed.

Lemma rstrip_prefix (p : char -> bool) (s : str) :
  exists post, s = rstrip p s ++ post.
Proof.
  induction s as [|c t [post IH]].
  - now exists [].
  - rewrite rstrip_cons.
    destruct (is_empty (rstrip p t) && p c).
    + now exists (c :: t).
    + exists post. simpl. now f_equal.
Qed.

Lemma ends_in_rstrip (p : char -> bool) (s : str) :
  ends_in p (rstrip p s) = false.
Proof.
  induction s as [|c t IH]; [reflexivity|].
  rewrite rstrip_cons. destruct (rstrip p t) as [|y r] eqn:E; simpl.
  - destruct (p c) eqn:Pc; simpl; auto.
  - exact IH.
Qed.

Lemma rstrip_id (p : char -> bool) (s : str) :
  ends_in p s = false -> rstrip p s = s.
Proof.
  induction s as [|c t IH]; [reflexivity|]. intro H.
  rewrite rstrip_cons. destruct t as [|y r].
  - simpl in *. now rewrite H.
  - rewrite IH by exact H. reflexivity.
Qed.

Lemma lstrip_id (p : char -> bool) (c : char) (s : str) :
  p c = false -> lstrip p (c :: s) = c :: s.
Proof. intro H. simpl. now rewrite H. Qed.

Lemma lstrip_head (p : char -> bool) (s : str) (c : char) (t : str) :
  lstrip p s = c :: t -> p c = false.
Proof.
  induction s as [|x s IH]; simpl; [discriminate|].
  destruct (p x) eqn:E; auto. intro H. injection H as -> _. exact E.
Qed.

Lemma rstrip_head (p : char -> bool) (s : str) (c : char) (t : str) :
  rstrip p s = c :: t -> exists t', s = c :: t'.
Proof.
  destruct s as [|x s]; [discriminate|]. rewrite rstrip_cons.
  destruct (is_empty (rstrip p s) && p x); [discriminate|].
  intro H. injection H as -> _. now exists s.
Qed.

Lemma Forall_suffix (P : char -> Prop) (a b : str) : Forall P (a ++ b) -> Forall P b.
Proof. intro F. now apply Forall_app in F. Qed.

Lemma Forall_prefix (P : char -> Prop) (a b : str) : Forall P (a ++ b) -> Forall P a.
Proof. intro F. now apply Forall_app in F. Qed.

Lemma strip_Forall (P : char -> Prop) (s : str) : Forall P s -> Forall P (strip s).
Proof.
  intro F. unfold strip.
  destruct (rstrip_prefix is_whitespace s) as [post E].
  destruct (lstrip_suffix is_whitespace (rstrip is_whitespace s)) as [pre E'].
  rewrite E, E' in F. eauto using Forall_prefix, Forall_suffix.
Qed.

Lemma rstrip_Forall (P : char -> Prop) (p : char -> bool) (s : str) :
  Forall P s -> Forall P (rstrip p s).
Proof.
  intro F. destruct (rstrip_prefix p s) as [post E].
  rewrite E in F. eauto using Forall_prefix.
Qed.

Lemma strip_no_double_space (s : str) :
  has_double_space s = false -> has_double_space (strip s) = false.
Proof.
  intro H. unfold strip.
  destruct (rstrip_prefix is_whitespace s) as [post E].
  destruct (lstrip_suffix is_whitespace (rstrip is_whitespace s)) as [pre E'].
  rewrite E in H. apply has_double_space_app_l in H.
  rewrite E' in H. now apply has_double_space_app_r in H.
Qed.

Lemma rstrip_no_double_space (p : char -> bool) (s : str) :
  has_double_space s = false -> has_double_space (rstrip p s) = false.
Proof.
  intro H. destruct (rstrip_prefix p s) as [post E].
  rewrite E in H. now apply has_double_space_app_l in H.
Qed.

(** ** sanitize_filename *)

(** The string before the final [or "unnamed"]. *)
Lemma sanitize_filename_eq (name : str) :
  sanitize_filename name =
  match rstrip_dots (strip (collapse_spaces (replace_char UNDERSCORE SPACE
          (map (fun c => if char_in c invalid then SPACE else c) name)))) with
  | [] => py "unnamed"
  | c :: t => c :: t
  end.
Proof. unfold sanitize_filename. cbv zeta. now destruct (rstrip_dots _). Qed.

Lemma kept_space : kept SPACE.
Proof. split; [reflexivity | discriminate]. Qed.

Lemma first_passes_kept (name : str) :
  Forall kept (replace_char UNDERSCORE SPACE
    (map (fun c => if char_in c invalid then SPACE else c) name)).
Proof.
  unfold replace_char. rewrite map_map. apply Forall_forall.
  intros x Hx. apply in_map_iff in Hx as [c [<- _]].
  destruct (char_in c invalid) eqn:I.
  - apply kept_space.
  - destruct (char_eqb c UNDERSCORE) eqn:U.
    + apply kept_space.
    + split; [exact I | now apply char_eqb_neq].
Qed.

Lemma sanitize_filename_kept (name : str) : Forall kept (sanitize_filename name).
Proof.
  rewrite sanitize_filename_eq.
  destruct (rstrip_dots _) as [|c t] eqn:E.
  - repeat constructor; discriminate.
  - rewrite <- E. apply rstrip_Forall, strip_Forall.
    apply collapse_loop_Forall; [apply kept_space | apply first_passes_kept].
Qed.

Lemma sanitize_filename_single_spaces (name : str) :
  has_double_space (sanitize_filename name) = false.
Proof.
  rewrite sanitize_filename_eq.
  destruct (rstrip_dots _) as [|c t] eqn:E; [reflexivity|].
  rewrite <- E. apply rstrip_no_double_space, strip_no_double_space.
  apply collapse_spaces_done.
Qed.

Lemma sanitize_filename_no_final_dot (name : str) :
  endswith DOT (sanitize_filename name) = false.
Proof.
  rewrite sanitize_filename_eq.
  destruct (rstrip_dots _) as [|c t] eqn:E; [reflexivity|].
  rewrite <- E. apply ends_in_rstrip.
Qed.

Lemma sanitize_filename_nonempty (name : str) : sanitize_filename name <> [].
Proof.
  rewrite sanitize_filename_eq. destruct (rstrip_dots _); discriminate.
Qed.

(** The result starts with a character that is not whitespace. *)
Lemma sanitize_filename_head (name : str) (c : char) (t : str) :
  sanitize_filename name = c :: t -> is_whitespace c = false.
Proof.
  rewrite sanitize_filename_eq.
  destruct (rstrip_dots _) as [|c' t'] eqn:E.
  - intro H. injection H as <- _. reflexivity.
  - intro H. injection H as -> ->.
    apply rstrip_head in E as [t' E]. exact (lstrip_head _ _ _ _ E).
Qed.

Lemma map_kept_id (s : str) :
  Forall kept s ->
  replace_char UNDERSCORE SPACE
    (map (fun c => if char_in c invalid then SPACE else c) s) = s.
Proof.
  intro F. unfold replace_char. rewrite map_map.
  rewrite <- (map_id s) at 2. apply map_ext_in. intros c Hc.
  rewrite Forall_forall in F. destruct (F c Hc) as [I U].
  rewrite I. apply char_eqb_neq in U. now rewrite U.
Qed.

(** A result that does not end in whitespace is a fixed point. *)
Lemma sanitize_filename_fixed (s : str) :
  Forall kept s -> has_double_space s = false ->
  starts_in is_whitespace s = false -> ends_in is_whitespace s = false ->
  endswith DOT s = false -> s <> [] ->
  sanitize_filename s = s.
Proof.
  intros K D H W T NE. rewrite sanitize_filename_eq.
  rewrite (map_kept_id _ K), (collapse_spaces_id _ D).
  unfold strip. rewrite (rstrip_id _ _ W).
  destruct s as [|c t]; [contradiction|].
  simpl in H. rewrite (lstrip_id _ _ _ H).
  unfold rstrip_dots. rewrite (rstrip_id _ _ T). reflexivity.
Qed.

(** X1.  The parts of the sanitizer's contract that hold for every input:
    the result has none of the nine refused characters, no two spaces in a
    row, no final dot, and is not empty. *)
Theorem sanitize_filename_safe (name : str) :
  Forall (fun c => char_in c invalid = false) (sanitize_filename name) /\
  has_double_space (sanitize_filename name) = false /\
  endswith DOT (sanitize_filename name) = false /\
  sanitize_filename name <> [].
Proof.
  repeat split.
  - eapply Forall_impl; [|apply sanitize_filename_kept]. now intros c [I _].
  - apply sanitize_filename_single_spaces.
  - apply sanitize_filename_no_final_dot.
  - apply sanitize_filename_nonempty.
Qed.

(** C1, at the input where it fails.  [strip()] runs before [rstrip(".")],
    so the space that stands before trailing dots is left at the end: the
    folder name [Essay_.] is sanitized to [Essay] followed by a space. *)
Theorem sanitize_filename_trailing_space :
  sanitize_filename (py "Essay_.") = py "Essay " /\
  endswith SPACE (sanitize_filename (py "Essay_.")) = true.
Proof. split; vm_compute; reflexivity. Qed.

(** C2, at the input where it fails: sanitizing [Essay_.] once leaves a
    final space, which a second application removes. *)
Theorem sanitize_filename_twice_differs :
  sanitize_filename (py "Essay_.") = py "Essay " /\
  sanitize_filename (sanitize_filename (py "Essay_.")) = py "Essay".
Proof. split; vm_compute; reflexivity. Qed.

(** X2.  Sanitizing again changes nothing, unless the first result ends in
    whitespace. *)
Theorem sanitize_filename_idempotent (name : str) :
  ends_in is_whitespace (sanitize_filename name) = false ->
  sanitize_filename (sanitize_filename name) = sanitize_filename name.
Proof.
  intro W. apply sanitize_filename_fixed; auto.
  - apply sanitize_filename_kept.
  - apply sanitize_filename_single_spaces.
  - destruct (sanitize_filename name) as [|c t] eqn:E; [reflexivity|].
    simpl. exact (sanitize_filename_head _ _ _ E).
  - apply sanitize_filename_no_final_dot.
  - apply sanitize_filename_nonempty.
Qed.

Lemma sanitize_filename_idempotent_witness :
  sanitize_filename (sanitize_filename (py "Jane_Doe")) = sanitize_filename (py "Jane_Doe").
Proof. apply (sanitize_filename_idempotent (py "Jane_Doe")). reflexivity. Defined.

(** ** os.path.splitext *)

Lemma rfind_from_absent (c : char) (s : str) (i : Z) :
  ~ In c s -> rfind_from c s i = (-1)%Z.
Proof.
  revert i; induction s as [|x t IH]; intros i N; [reflexivity|].
  simpl. rewrite IH by (intro; apply N; now right). simpl.
  destruct (char_eqb x c) eqn:E; [|reflexivity].
  apply char_eqb_eq in E. exfalso. apply N. now left.
Qed.

(** [rfind] finds the last occurrence. *)
Lemma rfind_from_last (c : char) (pre post : str) (i : Z) :
  (0 <= i)%Z -> ~ In c post ->
  rfind_from c (pre ++ c :: post) i = (i + Z.of_nat (length pre))%Z.
Proof.
  revert i; induction pre as [|x pre IH]; intros i Hi N.
  - simpl. rewrite rfind_from_absent by exact N. simpl.
    rewrite char_eqb_refl. lia.
  - cbn [app rfind_from length]. rewrite IH by (lia || exact N).
    destruct (0 <=? i + 1 + Z.of_nat (length pre))%Z eqn:E; [lia|].
    apply Z.leb_gt in E. lia.
Qed.

Lemma char_at_app (done : str) (x : char) (rest : str) :
  char_at (done ++ x :: rest) (Z.of_nat (length done)) = [x].
Proof.
  unfold char_at. rewrite Nat2Z.id, skipn_app, skipn_all, Nat.sub_diag. reflexivity.
Qed.

(** The loop returns at the first character before [dotIndex] that is not a
    dot, with the split at [dotIndex]. *)
Lemma skip_leading_dots_spec (extsep : char) (dotIndex : Z) (n : nat) :
  forall done rest, n <= length rest ->
  skip_leading_dots (done ++ rest) extsep n (Z.of_nat (length done)) dotIndex =
  if forallb (fun c => char_eqb c extsep) (firstn n rest) then None
  else Some (firstn (Z.to_nat dotIndex) (done ++ rest),
             skipn (Z.to_nat dotIndex) (done ++ rest)).
Proof.
  induction n as [|n IH]; intros done rest L; [reflexivity|].
  destruct rest as [|x rest]; [simpl in L; lia|].
  cbn [skip_leading_dots firstn forallb]. rewrite char_at_app.
  cbn [str_eqb]. rewrite andb_true_r.
  destruct (char_eqb x extsep); cbn [negb andb]; [|reflexivity].
  replace (done ++ x :: rest) with ((done ++ [x]) ++ rest)
    by (rewrite <- app_assoc; reflexivity).
  replace (Z.of_nat (length done) + 1)%Z with (Z.of_nat (length (done ++ [x])))
    by (rewrite length_app; simpl; lia).
  apply IH. simpl in L. lia.
Qed.

Lemma splitext_no_dot (fname : str) :
  ~ In SLASH fname -> ~ In DOT fname -> splitext fname = (fname, []).
Proof.
  intros NS ND. unfold splitext, _splitext, rfind.
  rewrite (rfind_from_absent _ _ _ NS), (rfind_from_absent _ _ _ ND). reflexivity.
Qed.

Lemma splitext_last_dot (pre post : str) :
  ~ In SLASH (pre ++ DOT :: post) -> ~ In DOT post ->
  splitext (pre ++ DOT :: post) =
  if forallb (fun c => char_eqb c DOT) pre then (pre ++ DOT :: post, [])
  else (pre, DOT :: post).
Proof.
  intros NS ND. unfold splitext, _splitext, rfind.
  rewrite (rfind_from_absent _ _ _ NS), (rfind_from_last _ _ _ 0 (Z.le_refl 0) ND).
  rewrite Z.add_0_l. destruct (-1 <? Z.of_nat (length pre))%Z eqn:E;
    [|apply Z.ltb_ge in E; lia].
  change (-1 + 1)%Z with 0%Z.
  rewrite Z.sub_0_r, Nat2Z.id.
  pose proof (skip_leading_dots_spec DOT (Z.of_nat (length pre)) (length pre)
                [] (pre ++ DOT :: post)) as S.
  cbn [app length Z.of_nat] in S. rewrite S by (rewrite length_app; lia).
  rewrite Nat2Z.id, firstn_app, firstn_all, Nat.sub_diag, skipn_app, skipn_all,
    Nat.sub_diag. cbn [firstn skipn app]. rewrite app_nil_r.
  destruct (forallb _ pre); reflexivity.
Qed.

(** [from_last_dot] is what its name says. *)
Lemma from_last_dot_eq (pre post : str) :
  ~ In DOT post -> from_last_dot (pre ++ DOT :: post) = DOT :: post.
Proof.
  intro ND. unfold from_last_dot, rfind.
  rewrite (rfind_from_last _ _ _ 0 (Z.le_refl 0) ND), Z.add_0_l.
  destruct (Z.of_nat (length pre) <? 0)%Z eqn:E; [apply Z.ltb_lt in E; lia|].
  now rewrite Nat2Z.id, skipn_app, skipn_all, Nat.sub_diag.
Qed.

Lemma from_last_dot_none (fname : str) : ~ In DOT fname -> from_last_dot fname = [].
Proof.
  intro ND. unfold from_last_dot, rfind. now rewrite (rfind_from_absent _ _ _ ND).
Qed.

(** From its last dot onward [.gitignore] reads [.gitignore], but its
    extension is empty. *)
Lemma splitext_dotfile :
  from_last_dot (py ".gitignore") = py ".gitignore" /\
  snd (splitext (py ".gitignore")) = [].
Proof. split; vm_compute; reflexivity. Qed.

(** The extension of a file name (no slash in it): without a dot it is
    empty; otherwise, with the name cut at its last dot, it is the part from
    that dot onward when some character before it is not a dot, and empty
    when only dots (or nothing) come before it. *)
Lemma splitext_extension (fname : str) :
  ~ In SLASH fname ->
  (~ In DOT fname -> snd (splitext fname) = []) /\
  (forall pre post, fname = pre ++ DOT :: post -> ~ In DOT post ->
     snd (splitext fname) =
     if forallb (fun c => char_eqb c DOT) pre then [] else DOT :: post).
Proof.
  intro NS. split.
  - intro ND. now rewrite splitext_no_dot.
  - intros pre post -> ND. rewrite splitext_last_dot by assumption.
    destruct (forallb _ pre); reflexivity.
Qed.

Ltac absent := vm_compute; intuition discriminate.

(** On a file name, which holds neither separator, the Windows variant
    splits as the POSIX one does. *)
Lemma nt_splitext_name (fname : str) :
  ~ In SLASH fname -> ~ In BACKSLASH fname -> nt_splitext fname = splitext fname.
Proof.
  intros NS NB. unfold nt_splitext, splitext, _splitext, rfind.
  now rewrite (rfind_from_absent _ _ _ NS), (rfind_from_absent _ _ _ NB).
Qed.

(** ** Decimal numerals *)

Lemma digits_inj (d d' : Decimal.uint) : digits d = digits d' -> d = d'.
Proof.
  revert d'; induction d; intros [] H; simpl in H;
    try discriminate; try reflexivity;
    injection H as H; f_equal; auto.
Qed.

Lemma str_of_int_inj (i j : N) : str_of_int i = str_of_int j -> i = j.
Proof.
  intro H. apply DecimalN.Unsigned.to_uint_inj. now apply digits_inj.
Qed.

Lemma numbered_inj (base_name ext : str) (i j : N) :
  numbered base_name ext i = numbered base_name ext j -> i = j.
Proof.
  unfold numbered. intro H.
  apply app_inv_head in H. apply app_inv_head in H.
  apply app_inv_tail in H. now apply str_of_int_inj.
Qed.

(** ** os.path.join *)

(** What [join] puts before a relative second argument. *)
Lemma join_relative (a b : str) :
  startswith SLASH b = false ->
  join a b = (if is_empty a || endswith SLASH a then a else a ++ [SLASH]) ++ b.
Proof.
  intro R. unfold join. rewrite R.
  destruct (is_empty a || endswith SLASH a); [reflexivity|].
  now rewrite <- app_assoc.
Qed.

Lemma join_absolute (a b : str) : startswith SLASH b = true -> join a b = b.
Proof. intro A. unfold join. now rewrite A. Qed.

Lemma join_inj (a b b' : str) :
  startswith SLASH b = startswith SLASH b' -> join a b = join a b' -> b = b'.
Proof.
  intros S H. destruct (startswith SLASH b) eqn:E; symmetry in S.
  - now rewrite !join_absolute in H.
  - rewrite !join_relative in H by assumption. now apply app_inv_head in H.
Qed.

(** ** choose_unique_filename *)

Section Resolver.

Variables base_name ext folder : str.

Let candidate := candidate_path base_name ext folder.

Lemma numbered_startswith (i j : N) :
  startswith SLASH (numbered base_name ext i) =
  startswith SLASH (numbered base_name ext j).
Proof. unfold numbered. destruct base_name; reflexivity. Qed.

Lemma numbered_absolute (i : N) :
  startswith SLASH (numbered base_name ext i) = true ->
  startswith SLASH (base_name ++ ext) = true.
Proof. unfold numbered. destruct base_name; [discriminate | auto]. Qed.

Lemma numbered_length (i : N) :
  length (base_name ++ ext) < length (numbered base_name ext i).
Proof. unfold numbered. rewrite !length_app. simpl. lia. Qed.

(** The plain name gives a shorter path than any numbered one. *)
Lemma plain_path_shorter (i : N) :
  length (join folder (base_name ++ ext)) <
  length (join folder (numbered base_name ext i)).
Proof.
  pose proof (numbered_length i) as L.
  destruct (startswith SLASH (numbered base_name ext i)) eqn:E.
  - rewrite (join_absolute _ _ E), (join_absolute _ _ (numbered_absolute _ E)).
    exact L.
  - rewrite (join_relative _ _ E), length_app.
    destruct (startswith SLASH (base_name ++ ext)) eqn:E'.
    + rewrite (join_absolute _ _ E'). lia.
    + rewrite (join_relative _ _ E'), length_app. lia.
Qed.

(** The resolver never tries one path twice. *)
Lemma candidate_inj (j k : N) :
  (1 <= j)%N -> (1 <= k)%N -> candidate j = candidate k -> j = k.
Proof.
  unfold candidate, candidate_path. intros Hj Hk H.
  destruct (j <=? 1)%N eqn:Ej, (k <=? 1)%N eqn:Ek.
  - apply N.leb_le in Ej, Ek. lia.
  - pose proof (plain_path_shorter k) as L. rewrite H in L. lia.
  - pose proof (plain_path_shorter j) as L. rewrite H in L. lia.
  - apply join_inj in H; [|apply numbered_startswith].
    now apply numbered_inj in H.
Qed.

Lemma candidate_numbered (k : N) :
  (2 <= k)%N -> candidate k = join folder (numbered base_name ext k).
Proof.
  intro H. unfold candidate, candidate_path.
  destruct (k <=? 1)%N eqn:E; [apply N.leb_le in E; lia | reflexivity].
Qed.

Variable w : world.

Lemma lookup_None (p : str) : lookup w p = None <-> ~ In p (map fst w).
Proof.
  induction w as [|[q n] w' IH]; simpl.
  - tauto.
  - destruct (str_eqb q p) eqn:E.
    + apply str_eqb_eq in E. split; [discriminate | intro H; exfalso; auto].
    + apply str_eqb_neq in E. rewrite IH. tauto.
Qed.

Lemma path_exists_In (p : str) : path_exists w p = true <-> In p (map fst w).
Proof.
  unfold path_exists. destruct (lookup w p) eqn:E.
  - split; [intros _ | reflexivity].
    destruct (in_dec (list_eq_dec N.eq_dec) p (map fst w)) as [I|I]; [exact I|].
    apply lookup_None in I. congruence.
  - apply lookup_None in E. split; [discriminate | contradiction].
Qed.

(** What the loop returns, when it returns: the first free numbered path
    from the counter on. *)
Lemma choose_loop_Some (fuel : nat) (i : N) (p : str) :
  choose_loop w base_name ext folder fuel i = Some p ->
  exists k, (i <= k)%N /\ p = join folder (numbered base_name ext k) /\
    path_exists w p = false /\
    forall j, (i <= j < k)%N ->
      path_exists w (join folder (numbered base_name ext j)) = true.
Proof.
  revert i; induction fuel as [|fuel IH]; intros i H; [discriminate|].
  simpl in H.
  destruct (path_exists w (join folder (numbered base_name ext i))) eqn:E; simpl in H.
  - apply IH in H as [k [Hk [-> [F B]]]].
    exists k. repeat split; [lia | exact F |].
    intros j Hj. destruct (N.eq_dec j i) as [->|]; [exact E | apply B; lia].
  - injection H as <-. exists i. repeat split; [lia | exact E | intros; lia].
Qed.

(** When the loop runs out of fuel, every path it tried exists. *)
Lemma choose_loop_None (fuel : nat) (i : N) :
  choose_loop w base_name ext folder fuel i = None ->
  forall j, (i <= j < i + N.of_nat fuel)%N ->
    path_exists w (join folder (numbered base_name ext j)) = true.
Proof.
  revert i; induction fuel as [|fuel IH]; intros i H j Hj; [lia|].
  simpl in H.
  destruct (path_exists w (join folder (numbered base_name ext i))) eqn:E;
    simpl in H; [|discriminate].
  destruct (N.eq_dec j i) as [->|]; [exact E|].
  apply (IH _ H). lia.
Qed.

(** The loop ends: it tries pairwise different paths, and the filesystem
    holds only [length w] of them. *)
Lemma choose_loop_total (i : N) :
  (2 <= i)%N ->
  choose_loop w base_name ext folder (S (length w)) i <> None.
Proof.
  intros Hi H. pose proof (choose_loop_None _ _ H) as All.
  set (ks := map (fun n => (i + N.of_nat n)%N) (seq 0 (S (length w)))).
  assert (ND : NoDup (map candidate ks)).
  { apply Injective_map_NoDup_in.
    - intros j k Ij Ik E. unfold ks in Ij, Ik.
      apply in_map_iff in Ij as [a [<- _]]. apply in_map_iff in Ik as [b [<- _]].
      apply candidate_inj in E; [exact E | lia | lia].
    - unfold ks. apply Injective_map_NoDup; [|apply seq_NoDup].
      intros a b E. lia. }
  assert (Incl : incl (map candidate ks) (map fst w)).
  { intros p Hp. apply in_map_iff in Hp as [k [<- Hk]].
    unfold ks in Hk. apply in_map_iff in Hk as [a [<- Ha]].
    apply in_seq in Ha. apply path_exists_In.
    rewrite candidate_numbered by lia. apply All. lia. }
  apply NoDup_incl_length in Incl; [|exact ND].
  unfold ks in Incl. rewrite !length_map, length_seq in Incl. lia.
Qed.

(** The resolver returns, and what it returns is the first of the paths
    [base+ext], [base (2)+ext], [base (3)+ext], ... that does not exist. *)
Lemma choose_unique_filename_first_free :
  exists k, (1 <= k)%N /\
    choose_unique_filename base_name ext folder w = Some (candidate k) /\
    path_exists w (candidate k) = false /\
    forall j, (1 <= j < k)%N -> path_exists w (candidate j) = true.
Proof.
  unfold choose_unique_filename. cbv zeta.
  destruct (path_exists w (join folder (base_name ++ ext))) eqn:E; cbn [negb].
  - destruct (choose_loop w base_name ext folder (S (length w)) 2) as [p|] eqn:L.
    + apply choose_loop_Some in L as [k [Hk [-> [F B]]]].
      exists k. rewrite candidate_numbered by exact Hk.
      split; [lia|]. split; [reflexivity|]. split; [exact F|].
      intros j Hj. destruct (N.eq_dec j 1) as [->|]; [exact E|].
      rewrite candidate_numbered by lia. apply B. lia.
    + exfalso. revert L. apply choose_loop_total. lia.
  - exists 1%N. split; [lia|]. split; [reflexivity|]. split; [exact E | intros; lia].
Qed.

Lemma path_exists_claim (p q : str) :
  path_exists (claim p w) q = str_eqb p q || path_exists w q.
Proof.
  unfold path_exists, claim. simpl. now destruct (str_eqb p q).
Qed.

End Resolver.

Section Calls.

Variables base_name ext folder : str.

Let candidate := candidate_path base_name ext folder.

(** [n] calls in a row return, and their answers are [successive]. *)
Lemma resolve_n_successive (n : nat) (w : world) :
  exists ks,
    resolve_n n base_name ext folder w = map candidate ks /\
    length ks = n /\
    successive base_name ext folder w ks.
Proof.
  revert w; induction n as [|n IH]; intro w.
  - exists []. now repeat split.
  - destruct (choose_unique_filename_first_free base_name ext folder w)
      as [k [Hk [C [F B]]]].
    destruct (IH (claim (candidate k) w)) as [ks [R [L S]]].
    exists (k :: ks). cbn [resolve_n]. rewrite C.
    fold candidate. rewrite R.
    repeat split; simpl; auto.
Qed.

Lemma successive_free (ks : list N) : forall w,
  successive base_name ext folder w ks ->
  Forall (fun k => (1 <= k)%N /\ path_exists w (candidate k) = false) ks.
Proof.
  induction ks as [|k ks IH]; intros w S; constructor.
  - destruct S as [[Hk [F _]] _]. auto.
  - destruct S as [_ S]. apply IH in S.
    eapply Forall_impl; [|exact S]. intros j [Hj E].
    rewrite path_exists_claim in E. apply orb_false_iff in E. tauto.
Qed.

(** Each answer comes later in the list of candidates than the one before. *)
Lemma successive_ascending (ks : list N) : forall w,
  successive base_name ext folder w ks -> StronglySorted N.lt ks.
Proof.
  induction ks as [|k ks IH]; intros w S; constructor.
  - destruct S as [_ S]. exact (IH _ S).
  - destruct S as [[Hk [F B]] S]. apply successive_free in S.
    eapply Forall_impl; [|exact S]. intros j [Hj E].
    rewrite path_exists_claim in E. apply orb_false_iff in E as [E1 E2].
    destruct (N.lt_trichotomy j k) as [Lt|[->|Gt]]; [| |exact Gt].
    + rewrite B in E2 by lia. discriminate.
    + fold candidate in E1. now rewrite str_eqb_refl in E1.
Qed.

Lemma StronglySorted_lt_NoDup (ks : list N) : StronglySorted N.lt ks -> NoDup ks.
Proof.
  induction 1 as [|k ks S IH F]; constructor; auto.
  intro I. rewrite Forall_forall in F. specialize (F _ I). lia.
Qed.

Lemma successive_NoDup (ks : list N) (w : world) :
  successive base_name ext folder w ks -> NoDup (map candidate ks).
Proof.
  intro S. apply Injective_map_NoDup_in.
  - pose proof (successive_free _ _ S) as F. rewrite Forall_forall in F.
    intros j k Ij Ik E. apply candidate_inj in E; auto; now apply F.
  - eapply StronglySorted_lt_NoDup, successive_ascending, S.
Qed.

(** From a filesystem where the candidates below [m] exist and the next
    [length ks] do not, the answers are the candidates from [m] on, none
    left out. *)
Lemma successive_exact (ks : list N) : forall (w : world) (m : nat),
  1 <= m ->
  successive base_name ext folder w ks ->
  (forall j, (1 <= j < N.of_nat m)%N -> path_exists w (candidate j) = true) ->
  (forall a, m <= a < m + length ks ->
     path_exists w (candidate (N.of_nat a)) = false) ->
  ks = map N.of_nat (seq m (length ks)).
Proof.
  induction ks as [|k ks IH]; intros w m Hm Su Below Free; [reflexivity|].
  destruct Su as [[Hk [F B]] Su]. cbn [length seq map] in *.
  fold candidate in F, B, Su.
  assert (K : k = N.of_nat m).
  { destruct (N.lt_trichotomy k (N.of_nat m)) as [Lt|[E|Gt]]; [|exact E|].
    - rewrite Below in F by lia. discriminate.
    - assert (T : path_exists w (candidate (N.of_nat m)) = true) by (apply B; lia).
      rewrite Free in T by lia. discriminate. }
  subst k. f_equal.
  apply (IH (claim (candidate (N.of_nat m)) w) (S m)); [lia | exact Su | |].
  - intros j Hj. rewrite path_exists_claim.
    destruct (N.eq_dec j (N.of_nat m)) as [->|].
    + now rewrite str_eqb_refl.
    + rewrite Below by lia. apply orb_true_r.
  - intros a Ha. rewrite path_exists_claim, Free by lia.
    rewrite orb_false_r. apply str_eqb_neq. intro E.
    apply candidate_inj in E; lia.
Qed.

End Calls.

(** C3 as the claim states it fails in a folder that already holds
    [base+ext]: two calls for [b] and [.txt] answer [b (2).txt] and
    [b (3).txt], and not the first two candidates [b.txt] and [b (2).txt]. *)
Lemma resolve_n_occupied :
  resolve_n 2 (py "b") (py ".txt") (py "out")
    [(py "out", Dir true); (py "out/b.txt", File [])]
  = [py "out/b (2).txt"; py "out/b (3).txt"] /\
  map (candidate_path (py "b") (py ".txt") (py "out")) [1%N; 2%N]
  = [py "out/b.txt"; py "out/b (2).txt"].
Proof. split; vm_compute; reflexivity. Qed.

(** C3, amended.  A call returns the first of the paths [base+ext],
    [base (2)+ext], [base (3)+ext], ... of the folder that does not exist (so
    a path that does not exist when the call is made).  [n] calls in a row,
    each answer claimed before the next call, return [n] different paths,
    each the first free one at its call, taken from that list in ascending
    order.  They are exactly the first [n] paths of the list when none of
    these exists before the first call. *)
Theorem choose_unique_filename_sequence
    (base_name ext folder : str) (w : world) (n : nat) :
  (exists k,
     choose_unique_filename base_name ext folder w =
       Some (candidate_path base_name ext folder k) /\
     first_free base_name ext folder w k) /\
  exists ks,
    resolve_n n base_name ext folder w =
      map (candidate_path base_name ext folder) ks /\
    length ks = n /\
    successive base_name ext folder w ks /\
    StronglySorted N.lt ks /\
    NoDup (resolve_n n base_name ext folder w) /\
    ((forall k, (1 <= k <= N.of_nat n)%N ->
        path_exists w (candidate_path base_name ext folder k) = false) ->
     ks = map N.of_nat (seq 1 n)).
Proof.
  split.
  - destruct (choose_unique_filename_first_free base_name ext folder w)
      as [k [Hk [C [F B]]]].
    exists k. repeat split; auto.
  - destruct (resolve_n_successive base_name ext folder n w) as [ks [R [L S]]].
    exists ks. split; [exact R|]. split; [exact L|]. split; [exact S|].
    split; [exact (successive_ascending _ _ _ _ _ S)|].
    split; [rewrite R; exact (successive_NoDup _ _ _ _ _ S)|].
    intro Free. rewrite <- L.
    apply (successive_exact base_name ext folder ks w 1); auto.
    + intros j Hj. lia.
    + intros a Ha. apply Free. lia.
Qed.

Lemma choose_unique_filename_sequence_witness :
  resolve_n 3 (py "b") (py ".txt") (py "out") [(py "out", Dir true)]
  = map (candidate_path (py "b") (py ".txt") (py "out")) [1%N; 2%N; 3%N].
Proof.
  destruct (choose_unique_filename_sequence (py "b") (py ".txt") (py "out")
              [(py "out", Dir true)] 3) as [_ [ks [R [_ [_ [_ [_ E]]]]]]].
  rewrite R. f_equal. apply E.
  intros k Hk.
  assert (C : k = 1%N \/ k = 2%N \/ k = 3%N) by lia.
  destruct C as [->|[->| ->]]; reflexivity.
Defined.

(** ** The filesystem *)

Lemma strip_prefix_Some (pre s rest : str) :
  strip_prefix pre s = Some rest -> s = pre ++ rest.
Proof.
  revert s; induction pre as [|x pre IH]; intros [|y s] E; simpl in E;
    try discriminate; try (injection E as <-; reflexivity).
  destruct (char_eqb x y) eqn:C; [|discriminate].
  apply char_eqb_eq in C. subst y. simpl. f_equal. now apply IH.
Qed.

(** An entry of a listing carries the path of the binding it was read from. *)
Lemma child_name_join (d p nm : str) : child_name d p = Some nm -> join d nm = p.
Proof.
  unfold child_name. cbv zeta.
  destruct (strip_prefix _ p) as [rest|] eqn:E; [|discriminate].
  destruct (is_empty rest || char_in SLASH rest) eqn:V; [discriminate|].
  intro H. injection H as <-. apply strip_prefix_Some in E.
  apply orb_false_iff in V as [_ V].
  assert (R : startswith SLASH rest = false).
  { destruct rest as [|c rest]; [reflexivity|]. simpl in *.
    apply orb_false_iff in V as [V _]. unfold char_eqb in *.
    now rewrite N.eqb_sym. }
  rewrite join_relative by exact R. now rewrite E.
Qed.

(** ** Runs *)

Lemma bind_Ok {A B : Type} (m : M A) (k : A -> M B) (st st' : state) (b : B) :
  bind m k st = (Ok b, st') ->
  exists a st1, m st = (Ok a, st1) /\ k a st1 = (Ok b, st').
Proof.
  unfold bind. destruct (m st) as [[a| |] st1]; try discriminate. eauto.
Qed.

Lemma for_each_cons {A : Type} (x : A) (l : list A) (body : A -> M unit) (st : state) :
  for_each (x :: l) body st = bind (body x) (fun _ => for_each l body) st.
Proof. reflexivity. Qed.

Lemma walk_nil (fuel : nat) (body : str -> list str -> M unit) (st : state) :
  walk fuel [] body st = (Ok tt, st).
Proof. destruct fuel; reflexivity. Qed.

(** Relations that every step of a run keeps are kept by its loops. *)
Section Loops.

Variable R : state -> state -> Prop.
Hypothesis R_refl : forall st, R st st.
Hypothesis R_trans : forall a b c, R a b -> R b c -> R a c.

Lemma keeps_ret {A : Type} (a : A) : keeps R (ret a).
Proof. intros st a' st' E. injection E as _ <-. apply R_refl. Qed.

Lemma keeps_bind {A B : Type} (m : M A) (k : A -> M B) :
  keeps R m -> (forall a, keeps R (k a)) -> keeps R (bind m k).
Proof.
  intros Hm Hk st b st' E. apply bind_Ok in E as [a [st1 [E1 E2]]].
  eapply R_trans; [eapply Hm | eapply Hk]; eauto.
Qed.

Lemma keeps_for_each {A : Type} (l : list A) (body : A -> M unit) :
  (forall x, keeps R (body x)) -> keeps R (for_each l body).
Proof.
  intro Hb. induction l as [|x l IH]; [apply keeps_ret | apply keeps_bind; auto].
Qed.

Lemma keeps_walk (fuel : nat) (body : str -> list str -> M unit) :
  (forall d files, keeps R (body d files)) ->
  forall stack, keeps R (walk fuel stack body).
Proof.
  intro Hb. induction fuel as [|fuel IH]; intros [|top stack] st a st' E.
  - injection E as _ <-. apply R_refl.
  - discriminate.
  - injection E as _ <-. apply R_refl.
  - cbn [walk] in E. destruct (scandir (fs st) top) as [entries|e|].
    + revert E. apply keeps_bind; auto.
    + exact (IH _ _ _ _ E).
    + exact (IH _ _ _ _ E).
Qed.

Lemma always_ret {A : Type} (a : A) : always R (ret a).
Proof. intros st r st' E. injection E as _ <-. apply R_refl. Qed.

Lemma always_bind {A B : Type} (m : M A) (k : A -> M B) :
  always R m -> (forall a, always R (k a)) -> always R (bind m k).
Proof.
  intros Hm Hk st r st' E. unfold bind in E.
  destruct (m st) as [[a|e|] st1] eqn:E1.
  - eapply R_trans; [eapply Hm | eapply Hk]; eauto.
  - injection E as _ <-. eapply Hm; eauto.
  - injection E as _ <-. eapply Hm; eauto.
Qed.

Lemma always_for_each {A : Type} (l : list A) (body : A -> M unit) :
  (forall x, always R (body x)) -> always R (for_each l body).
Proof.
  intro Hb. induction l as [|x l IH]; [apply always_ret | apply always_bind; auto].
Qed.

Lemma always_walk (fuel : nat) (body : str -> list str -> M unit) :
  (forall d files, always R (body d files)) ->
  forall stack, always R (walk fuel stack body).
Proof.
  intro Hb. induction fuel as [|fuel IH]; intros [|top stack] st a st' E.
  - injection E as _ <-. apply R_refl.
  - injection E as _ <-. apply R_refl.
  - injection E as _ <-. apply R_refl.
  - cbn [walk] in E. destruct (scandir (fs st) top) as [entries|e|].
    + revert E. apply always_bind; auto.
    + exact (IH _ _ _ _ E).
    + exact (IH _ _ _ _ E).
Qed.

End Loops.

Lemma in_step_refl (st : state) : in_step st st.
Proof. unfold in_step. lia. Qed.

Lemma in_step_trans (a b c : state) : in_step a b -> in_step b c -> in_step a c.
Proof. unfold in_step. lia. Qed.

(** ** The steps of one file *)

Lemma path_exists_isdir (w : world) (p : str) :
  path_exists w p = false -> path_isdir w p = false.
Proof. unfold path_exists, path_isdir. now destruct (lookup w p). Qed.

(** A copy to a path that does not exist. *)
Lemma copy2_fresh (src dst : str) (st : state) :
  path_exists (fs st) dst = false ->
  copy2 src dst st =
  match conversion_error dst with
  | Some e => (Raise e, st)
  | None =>
      match lookup (fs st) src with
      | Some (File data) =>
          if str_eqb src dst then (Raise SameFileError, st)
          else
            match create_error (fs st) dst with
            | Some e => (Raise e, st)
            | None =>
                (Ok tt, record (Copied src dst) (set_fs (write (fs st) dst data) st))
            end
      | Some (Dir _) => (Raise IsADirectoryError, st)
      | None => (Raise FileNotFoundError, st)
      end
  end.
Proof.
  intro F. unfold copy2. cbv zeta.
  now rewrite !(path_exists_isdir _ _ F), F.
Qed.

(** A copy to a path that does not exist, when it succeeds, writes the file
    there and records it; nothing else changes. *)
Lemma copy2_Ok (src dst : str) (st st' : state) :
  path_exists (fs st) dst = false ->
  copy2 src dst st = (Ok tt, st') ->
  exists data,
    lookup (fs st) src = Some (File data) /\
    st' = record (Copied src dst) (set_fs (write (fs st) dst data) st).
Proof.
  intros F E. rewrite (copy2_fresh _ _ _ F) in E.
  destruct (conversion_error dst); [discriminate|].
  destruct (lookup (fs st) src) as [[data|r]|]; try discriminate.
  destruct (str_eqb src dst); [discriminate|].
  destruct (create_error (fs st) dst); [discriminate|].
  injection E as <-. now exists data.
Qed.

Section Collector.

Context `{Platform}.

(** The stamper never raises; it records its call and leaves the counters. *)
Lemma add_filename_to_docx_header_returns (docx_path filename : str) (st : state) :
  exists b st',
    add_filename_to_docx_header docx_path filename st = (Ok b, st') /\
    log st' = log st ++ [HeaderCall docx_path filename] /\
    total_found st' = total_found st /\ total_copied st' = total_copied st.
Proof.
  unfold add_filename_to_docx_header. cbv zeta.
  destruct (negb DOCX_AVAILABLE); [eauto 6|].
  destruct (lookup _ docx_path) as [[data|r]|]; [|eauto 6|eauto 6].
  destruct (docx_set_header data filename); eauto 6.
Qed.

(** One file, copied: both counters go up by one; the copy is recorded,
    and after it the call of the stamper, which is made when stamping is
    requested and the extension in lower case is [.docx]. *)
Lemma process_file_Ok (add_to_header : bool)
    (base_name output _dirpath fname : str) (st st' : state) :
  process_file add_to_header base_name output _dirpath fname st = (Ok tt, st') ->
  exists dest_path,
    choose_unique_filename base_name (snd (splitext fname)) output (fs st)
      = Some dest_path /\
    total_found st' = total_found st + 1 /\
    total_copied st' = total_copied st + 1 /\
    log st' = log st ++ Copied (join _dirpath fname) dest_path ::
      (if add_to_header && str_eqb (lower (snd (splitext fname))) (py ".docx")
       then [HeaderCall dest_path base_name] else []).
Proof.
  unfold process_file. intro E.
  apply bind_Ok in E as [[] [st1 [E1 E]]]. injection E1 as <-.
  apply bind_Ok in E as [dest [st2 [E2 E]]]. cbn [fs] in E2.
  destruct (choose_unique_filename_first_free base_name (snd (splitext fname))
              output (fs st)) as [k [_ [C [F _]]]].
  rewrite C in E2. injection E2 as <- <-.
  apply bind_Ok in E as [[] [st3 [E3 E]]].
  apply copy2_Ok in E3 as [data [_ ->]]; [|exact F].
  apply bind_Ok in E as [[] [st4 [E4 E]]]. injection E as <-.
  set (dest := candidate_path base_name (snd (splitext fname)) output k) in *.
  exists dest. split; [exact C|].
  match type of E4 with _ ?X = _ => remember X as st3 eqn:R end.
  assert (L3 : log st3 = log st ++ [Copied (join _dirpath fname) dest])
    by (subst st3; reflexivity).
  assert (F3 : total_found st3 = total_found st + 1) by (subst st3; reflexivity).
  assert (C3 : total_copied st3 = total_copied st) by (subst st3; reflexivity).
  clear R. cbn [total_found total_copied log].
  destruct (add_to_header && str_eqb (lower (snd (splitext fname))) (py ".docx")).
  - apply bind_Ok in E4 as [b [st5 [E5 E4]]]. injection E4 as <-.
    destruct (add_filename_to_docx_header_returns dest base_name st3)
      as [b' [st6 [E' [L [Fo Co]]]]].
    rewrite E' in E5. injection E5 as _ <-.
    rewrite L, Fo, Co, L3, F3, C3, <- app_assoc. auto.
  - injection E4 as <-. rewrite L3, F3, C3. auto.
Qed.

Lemma keeps_process_file (add_to_header : bool) (base_name output d fname : str) :
  keeps in_step (process_file add_to_header base_name output d fname).
Proof.
  intros st [] st' E. apply process_file_Ok in E as [_ [_ [Fo [Co _]]]].
  unfold in_step. lia.
Qed.

(** The loops of one student, over any relation that the body of the
    innermost loop keeps. *)
Lemma keeps_process_student (R : state -> state -> Prop) (fuel : nat) (output : str)
    (assignment_subfolder prefix suffix : option str) (add_to_header : bool)
    (entry : DirEntry) :
  (forall st, R st st) -> (forall a b c, R a b -> R b c -> R a c) ->
  (forall base_name d fname,
     keeps R (process_file add_to_header base_name output d fname)) ->
  keeps R (process_student fuel output assignment_subfolder prefix suffix
             add_to_header entry).
Proof.
  intros Rr Rt Hf.
  assert (W : forall base_name roots,
             keeps R (walk_roots fuel add_to_header base_name output roots)).
  { intros. apply keeps_for_each; auto. intro root. apply keeps_walk; auto.
    intros d files. apply keeps_for_each; auto. }
  unfold process_student. destruct (negb (is_dir entry)); [now apply keeps_ret|].
  cbv zeta. destruct assignment_subfolder as [sub|]; [|apply W].
  destruct (truthy sub); [|apply W].
  intros st a st' E. destruct (path_isdir (fs st) (join (path entry) sub)).
  - exact (W _ _ _ _ _ E).
  - injection E as _ <-. apply Rr.
Qed.

Lemma always_process_student (R : state -> state -> Prop) (fuel : nat) (output : str)
    (assignment_subfolder prefix suffix : option str) (add_to_header : bool)
    (entry : DirEntry) :
  (forall st, R st st) -> (forall a b c, R a b -> R b c -> R a c) ->
  (forall base_name d fname,
     always R (process_file add_to_header base_name output d fname)) ->
  always R (process_student fuel output assignment_subfolder prefix suffix
              add_to_header entry).
Proof.
  intros Rr Rt Hf.
  assert (W : forall base_name roots,
             always R (walk_roots fuel add_to_header base_name output roots)).
  { intros. apply always_for_each; auto. intro root. apply always_walk; auto.
    intros d files. apply always_for_each; auto. }
  unfold process_student. destruct (negb (is_dir entry)); [now apply always_ret|].
  cbv zeta. destruct assignment_subfolder as [sub|]; [|apply W].
  destruct (truthy sub); [|apply W].
  intros st a st' E. destruct (path_isdir (fs st) (join (path entry) sub)).
  - exact (W _ _ _ _ _ E).
  - injection E as _ <-. apply Rr.
Qed.

Lemma by_files_same (add_to_header : bool) (st st' : state) :
  log st' = log st -> by_files add_to_header st st'.
Proof. intro L. exists []. split; [constructor | now rewrite L, app_nil_r]. Qed.

Lemma by_files_trans (add_to_header : bool) (a b c : state) :
  by_files add_to_header a b -> by_files add_to_header b c ->
  by_files add_to_header a c.
Proof.
  intros [g1 [F1 L1]] [g2 [F2 L2]]. exists (g1 ++ g2). split.
  - now apply Forall_app.
  - now rewrite L2, L1, concat_app, app_assoc.
Qed.

(** A copy that does not succeed leaves the state as it was. *)
Lemma copy2_cases (src dst : str) (st st' : state) (r : result unit) :
  path_exists (fs st) dst = false ->
  copy2 src dst st = (r, st') ->
  (r = Ok tt /\ exists data,
     st' = record (Copied src dst) (set_fs (write (fs st) dst data) st)) \/
  (st' = st /\ exists e, r = Raise e).
Proof.
  intros F E. rewrite (copy2_fresh _ _ _ F) in E.
  destruct (conversion_error dst); [injection E as <- <-; right; eauto|].
  destruct (lookup (fs st) src) as [[data|b]|];
    try (injection E as <- <-; right; eauto).
  destruct (str_eqb src dst); [injection E as <- <-; right; eauto|].
  destruct (create_error (fs st) dst);
    injection E as <- <-; [right; eauto | left; eauto].
Qed.

(** However the step for one file ends, it has recorded nothing or the
    events of one copied file. *)
Lemma always_process_file (add_to_header : bool) (base_name output d fname : str) :
  always (by_files add_to_header)
    (process_file add_to_header base_name output d fname).
Proof.
  intros st r st' E. unfold process_file in E.
  unfold bind at 1 in E. cbn [incr_found] in E.
  unfold bind at 1 in E. cbn [fs] in E.
  destruct (choose_unique_filename_first_free base_name (snd (splitext fname))
              output (fs st)) as [k [_ [C [F _]]]].
  rewrite C in E. set (dest := candidate_path _ _ _ k) in *.
  unfold bind at 1 in E.
  destruct (copy2 (join d fname) dest _) as [r2 st2] eqn:E2.
  apply copy2_cases in E2; [|exact F].
  destruct E2 as [[-> [data ->]] | [-> [e ->]]].
  - match type of E with context [record ?e ?s] => remember (record e s) as st3 eqn:R end.
    assert (L3 : log st3 = log st ++ [Copied (join d fname) dest])
      by (subst st3; reflexivity).
    clear R. unfold bind at 1 in E.
    exists [Copied (join d fname) dest ::
      (if add_to_header && str_eqb (lower (snd (splitext fname))) (py ".docx")
       then [HeaderCall dest base_name] else [])].
    split; [constructor; [|constructor]; now exists d, fname, dest, base_name|].
    cbn [concat]. rewrite app_nil_r.
    destruct (add_to_header && str_eqb (lower (snd (splitext fname))) (py ".docx")).
    + unfold bind at 1 in E.
      destruct (add_filename_to_docx_header_returns dest base_name st3)
        as [b' [st6 [E' [L _]]]].
      rewrite E' in E. injection E as _ <-. cbn [log].
      now rewrite L, L3, <- app_assoc.
    + injection E as _ <-. cbn [log]. exact L3.
  - injection E as _ <-. now apply by_files_same.
Qed.


(** ** Fuel only bounds a walk: more of it changes no result *)

Lemma for_each_agree {A : Type} (l : list A) (body body' : A -> M unit) :
  (forall x st r st', body x st = (r, st') -> r <> OutOfFuel ->
     body' x st = (r, st')) ->
  forall st r st', for_each l body st = (r, st') -> r <> OutOfFuel ->
    for_each l body' st = (r, st').
Proof.
  intro Hb. induction l as [|x l IH]; intros st r st' E N; [exact E|].
  rewrite for_each_cons in *. unfold bind in *.
  destruct (body x st) as [[[]|e|] st1] eqn:E1.
  - rewrite (Hb _ _ _ _ E1) by discriminate. now apply IH.
  - rewrite (Hb _ _ _ _ E1) by discriminate. exact E.
  - injection E as <- _. contradiction.
Qed.

Lemma walk_more_fuel (body : str -> list str -> M unit) (fuel : nat) :
  forall fuel' stack st r st', fuel <= fuel' ->
    walk fuel stack body st = (r, st') -> r <> OutOfFuel ->
    walk fuel' stack body st = (r, st').
Proof.
  induction fuel as [|fuel IH]; intros fuel' [|top stack] st r st' L E N.
  - now rewrite walk_nil in *.
  - injection E as <- _. contradiction.
  - now rewrite walk_nil in *.
  - destruct fuel' as [|fuel']; [lia|]. cbn [walk] in *.
    destruct (scandir (fs st) top) as [entries|e|].
    + unfold bind in *.
      destruct (body top _ st) as [[[]|e|] st1]; try exact E.
      apply (IH fuel'); [lia | exact E | exact N].
    + apply (IH fuel'); [lia | exact E | exact N].
    + apply (IH fuel'); [lia | exact E | exact N].
Qed.

Lemma walk_roots_more_fuel (fuel fuel' : nat) (add_to_header : bool)
    (base_name output : str) (roots : list str) (st st' : state) (r : result unit) :
  fuel <= fuel' ->
  walk_roots fuel add_to_header base_name output roots st = (r, st') ->
  r <> OutOfFuel ->
  walk_roots fuel' add_to_header base_name output roots st = (r, st').
Proof.
  intro L. unfold walk_roots. apply for_each_agree.
  intros root st1 r1 st1'. now apply walk_more_fuel.
Qed.

Lemma process_student_more_fuel (fuel fuel' : nat) (output : str)
    (assignment_subfolder prefix suffix : option str) (add_to_header : bool)
    (entry : DirEntry) (st st' : state) (r : result unit) :
  fuel <= fuel' ->
  process_student fuel output assignment_subfolder prefix suffix add_to_header
    entry st = (r, st') ->
  r <> OutOfFuel ->
  process_student fuel' output assignment_subfolder prefix suffix add_to_header
    entry st = (r, st').
Proof.
  intro L. unfold process_student. destruct (negb (is_dir entry)); [auto|].
  cbv zeta. destruct assignment_subfolder as [sub|];
    [|now apply walk_roots_more_fuel].
  destruct (truthy sub); [|now apply walk_roots_more_fuel].
  destruct (path_isdir (fs st) (join (path entry) sub)); [|auto].
  now apply walk_roots_more_fuel.
Qed.

(** A run that ends without running out of fuel ends the same way with
    any larger fuel. *)
Lemma copy_from_local_folder_more_fuel (fuel fuel' : nat)
    (turned_in_path output : str) (assignment_subfolder prefix suffix : option str)
    (add_to_header : bool) (st st' : state) (r : result (nat * nat)) :
  fuel <= fuel' ->
  copy_from_local_folder fuel turned_in_path output assignment_subfolder prefix
    suffix add_to_header st = (r, st') ->
  r <> OutOfFuel ->
  copy_from_local_folder fuel' turned_in_path output assignment_subfolder prefix
    suffix add_to_header st = (r, st').
Proof.
  intros L E N. unfold copy_from_local_folder in *.
  destruct (negb (path_isdir (fs st) turned_in_path)); [exact E|].
  unfold bind at 1 in E. unfold bind at 1. unfold reading in *. cbn [fs] in *.
  destruct (scandir (fs st) turned_in_path) as [entries|e|]; try exact E.
  unfold bind in *.
  destruct (for_each entries (process_student fuel _ _ _ _ _) _)
    as [[[]|e|] st1] eqn:E1.
  - rewrite (for_each_agree _ _ (process_student fuel' output
        assignment_subfolder prefix suffix add_to_header)
        (fun x s1 r1 s1' => process_student_more_fuel _ _ _ _ _ _ _ x s1 s1' r1 L)
        _ _ _ E1) by discriminate.
    exact E.
  - rewrite (for_each_agree _ _ (process_student fuel' output
        assignment_subfolder prefix suffix add_to_header)
        (fun x s1 r1 s1' => process_student_more_fuel _ _ _ _ _ _ _ x s1 s1' r1 L)
        _ _ _ E1) by discriminate.
    exact E.
  - injection E as <- _. contradiction.
Qed.

End Collector.

(** ** copy_from_local_folder: the root that is no directory *)

(** C5.  If the source root does not exist or is not a directory, the
    collector raises [RuntimeError] and the state is the one it was called
    in: the filesystem, the output folder with it, is unchanged and nothing
    has been copied. *)
Theorem copy_from_local_folder_bad_root `{Platform} (fuel : nat)
    (turned_in_path output : str) (assignment_subfolder prefix suffix : option str)
    (add_to_header : bool) (st : state) :
  path_exists (fs st) turned_in_path = false \/
  path_isdir (fs st) turned_in_path = false ->
  copy_from_local_folder fuel turned_in_path output assignment_subfolder prefix
    suffix add_to_header st
  = (Raise (RuntimeError (not_a_directory_message turned_in_path)), st).
Proof.
  intro B. assert (D : path_isdir (fs st) turned_in_path = false)
    by (destruct B; auto using path_exists_isdir).
  unfold copy_from_local_folder. now rewrite D.
Qed.

Lemma copy_from_local_folder_bad_root_witness :
  @copy_from_local_folder plain_platform 5 (py "root/readme.txt") (py "out")
    None None None false (start three_students)
  = (Raise (RuntimeError (py "Path does not exist or is not a directory: root/readme.txt")),
     start three_students).
Proof.
  apply (@copy_from_local_folder_bad_root plain_platform 5 (py "root/readme.txt")).
  right. reflexivity.
Defined.

(** ** copy_from_local_folder: the counters *)

(** C9.  Whenever the collector returns normally, the two counters it
    returns are equal. *)
Theorem copy_from_local_folder_counters `{Platform} (fuel : nat)
    (turned_in_path output : str) (assignment_subfolder prefix suffix : option str)
    (add_to_header : bool) (st st' : state) (found copied : nat) :
  copy_from_local_folder fuel turned_in_path output assignment_subfolder prefix
    suffix add_to_header st = (Ok (found, copied), st') ->
  found = copied.
Proof.
  unfold copy_from_local_folder.
  destruct (negb (path_isdir (fs st) turned_in_path)); [discriminate|].
  intro E. apply bind_Ok in E as [entries [st1 [E1 E]]].
  unfold reading in E1. cbn [fs] in E1.
  destruct (scandir (fs st) turned_in_path); try discriminate.
  injection E1 as -> <-.
  apply bind_Ok in E as [[] [st2 [E2 E]]]. injection E as <- <- <-.
  assert (S : in_step (mkState (fs st) (log st) 0 0) st2).
  { revert E2. apply (keeps_for_each in_step in_step_refl in_step_trans).
    intro entry.
    apply (keeps_process_student in_step _ _ _ _ _ _ _ in_step_refl in_step_trans).
    intros. apply keeps_process_file. }
  unfold in_step in S. cbn in S. lia.
Qed.

Lemma copy_from_local_folder_counters_witness :
  fst (@copy_from_local_folder plain_platform 5 (py "root") (py "out")
         None None None false (start two_students)) = Ok (2, 2) /\ 2 = 2.
Proof.
  split; [vm_compute; reflexivity|].
  apply (@copy_from_local_folder_counters plain_platform 5 (py "root") (py "out")
           None None None false (start two_students)
           (snd (@copy_from_local_folder plain_platform 5 (py "root") (py "out")
                   None None None false (start two_students)))).
  vm_compute. reflexivity.
Defined.

(** ** copy_from_local_folder: the assignment selector *)


(** ** copy_from_local_folder: the header stamper *)

(** Stamping is not requested unless [add_to_header] is set, and it is
    [False] by default: the document [essay.DOCX], whose extension in lower
    case is [.docx], is then copied, and the stamper is not called. *)
Lemma stamping_not_requested :
  @lower docx_platform (snd (splitext (py "essay.DOCX"))) = py ".docx" /\
  @copy_from_local_folder docx_platform 5 (py "root") (py "out") None None None
    false (start one_document)
  = (Ok (2, 2),
     mkState
       ((py "out/Ann.txt", File [8%N]) :: (py "out/Ann.DOCX", File [7%N])
          :: one_document)
       [Copied (py "root/Ann/essay.DOCX") (py "out/Ann.DOCX");
        Copied (py "root/Ann/notes.txt") (py "out/Ann.txt")]
       2 2).
Proof. split; vm_compute; reflexivity. Qed.

(** A record made of the events of copied files holds a call of the stamper
    only when stamping is requested. *)
Lemma file_events_copies `{Platform} (groups : list (list event)) :
  Forall (file_events false) groups ->
  forall e, In e (concat groups) -> exists src dst, e = Copied src dst.
Proof.
  intros F e I. apply in_concat in I as [es [Ig Ie]].
  rewrite Forall_forall in F. destruct (F _ Ig) as [d [fname [dest [base ->]]]].
  cbn [andb] in Ie. destruct Ie as [<-|[]]. eauto.
Qed.

(** C10.  The test for the extension of a document is made in lower case.
    However a run ends, what it has recorded is, file after file, the copy
    of a file, followed by the call of the stamper exactly when stamping is
    requested and the extension of the file name in lower case is [.docx];
    the extensions [.DOCX] and [.Docx] are such.  So with stamping requested
    the stamper is called for every copied file whose extension lower-cases
    to [.docx], and for no other; without, the record holds copies only. *)
Theorem header_stamping_by_extension `{Platform} (fuel : nat)
    (turned_in_path output : str) (assignment_subfolder prefix suffix : option str)
    (add_to_header : bool) (st st' : state) (r : result (nat * nat)) :
  copy_from_local_folder fuel turned_in_path output assignment_subfolder prefix
    suffix add_to_header st = (r, st') ->
  (exists groups,
     log st' = log st ++ concat groups /\
     Forall (fun es => exists _dirpath fname dest_path base_name,
               es = Copied (join _dirpath fname) dest_path ::
                 (if add_to_header &&
                     str_eqb (lower (snd (splitext fname))) (py ".docx")
                  then [HeaderCall dest_path base_name] else [])) groups /\
     (add_to_header = false ->
      forall e, In e (concat groups) -> exists src dst, e = Copied src dst)) /\
  lower (py ".DOCX") = py ".docx" /\
  lower (py ".Docx") = py ".docx".
Proof.
  intro E. split; [|split; reflexivity].
  assert (B : by_files add_to_header st st').
  { unfold copy_from_local_folder in E.
    destruct (negb (path_isdir (fs st) turned_in_path)).
    - injection E as _ <-. now apply by_files_same.
    - apply (by_files_trans add_to_header st (mkState (fs st) (log st) 0 0) st');
        [now apply by_files_same|].
      pose proof (fun st => by_files_same add_to_header st st eq_refl) as Rr.
      pose proof (by_files_trans add_to_header) as Rt.
      revert E. apply (always_bind _ Rt).
      + intros s0 r0 s0' E0. injection E0 as _ <-. now apply by_files_same.
      + intro entries. apply (always_bind _ Rt).
        * apply (always_for_each _ Rr Rt).
          intro entry.
          apply (always_process_student (by_files add_to_header) _ _ _ _ _ _ _ Rr Rt).
          intros. apply always_process_file.
        * intros [] s0 r0 s0' E0. injection E0 as _ <-. now apply by_files_same. }
  destruct B as [groups [F L]]. exists groups. split; [exact L|]. split.
  - eapply Forall_impl; [|exact F]. intros es [d [fname [dest [base ->]]]].
    now exists d, fname, dest, base.
  - intros ->. now apply file_events_copies.
Qed.

Lemma header_stamping_by_extension_witness :
  log (snd (@copy_from_local_folder docx_platform 5 (py "root") (py "out")
              None None None true (start one_document)))
  = [Copied (py "root/Ann/essay.DOCX") (py "out/Ann.DOCX");
     HeaderCall (py "out/Ann.DOCX") (py "Ann");
     Copied (py "root/Ann/notes.txt") (py "out/Ann.txt")] /\
  (exists groups,
     log (snd (@copy_from_local_folder docx_platform 5 (py "root") (py "out")
                 None None None true (start one_document)))
     = log (start one_document) ++ concat groups /\
     Forall (fun es => exists _dirpath fname dest_path base_name,
               es = Copied (join _dirpath fname) dest_path ::
                 (if true &&
                     str_eqb (@lower docx_platform (snd (splitext fname))) (py ".docx")
                  then [HeaderCall dest_path base_name] else [])) groups /\
     (true = false ->
      forall e, In e (concat groups) -> exists src dst, e = Copied src dst)) /\
  @lower docx_platform (py ".DOCX") = py ".docx" /\
  @lower docx_platform (py ".Docx") = py ".docx".
Proof.
  split; [vm_compute; reflexivity|].
  exact (@header_stamping_by_extension docx_platform 5 (py "root")
    (py "out") None None None true (start one_document)
    (snd (@copy_from_local_folder docx_platform 5 (py "root") (py "out")
            None None None true (start one_document)))
    (fst (@copy_from_local_folder docx_platform 5 (py "root") (py "out")
            None None None true (start one_document)))
    (surjective_pairing _)).
Defined.

(** ** copy_from_local_folder: the base name *)






(** ** collect_assignment_subfolders *)

Lemma str_leb_refl (a : str) : str_leb a a = true.
Proof. induction a as [|x a IH]; [reflexivity|]. simpl. now rewrite N.ltb_irrefl. Qed.

Lemma str_leb_total (a b : str) : str_leb a b = false -> str_leb b a = true.
Proof.
  revert b; induction a as [|x a IH]; intros [|y b]; simpl; try discriminate; auto.
  destruct (x <? y)%N eqn:L1; [discriminate|].
  destruct (y <? x)%N eqn:L2; [reflexivity|]. apply IH.
Qed.

Lemma str_leb_trans (a b c : str) :
  str_leb a b = true -> str_leb b c = true -> str_leb a c = true.
Proof.
  revert b c; induction a as [|x a IH]; intros [|y b] [|z c]; simpl;
    try discriminate; auto.
  destruct (x <? y)%N eqn:L1, (y <? x)%N eqn:L2, (y <? z)%N eqn:L3,
    (z <? y)%N eqn:L4, (x <? z)%N eqn:L5, (z <? x)%N eqn:L6;
    try discriminate; auto;
    rewrite ?N.ltb_lt, ?N.ltb_ge in *; try lia.
  apply IH.
Qed.

Lemma str_leb_antisym (a b : str) :
  str_leb a b = true -> str_leb b a = true -> a = b.
Proof.
  revert b; induction a as [|x a IH]; intros [|y b]; simpl; try discriminate; auto.
  destruct (x <? y)%N eqn:L1, (y <? x)%N eqn:L2; try discriminate;
    rewrite ?N.ltb_lt, ?N.ltb_ge in *; try lia.
  intros A B. assert (x = y) by lia. subst. f_equal. now apply IH.
Qed.

Lemma insert_sorted_In (x y : str) (l : list str) :
  In y (insert_sorted x l) <-> y = x \/ In y l.
Proof.
  induction l as [|z l IH]; simpl.
  - intuition.
  - destruct (str_leb x z); simpl; rewrite ?IH; intuition.
Qed.

Lemma insert_sorted_sorted (x : str) (l : list str) :
  StronglySorted (fun a b => str_leb a b = true) l ->
  StronglySorted (fun a b => str_leb a b = true) (insert_sorted x l).
Proof.
  induction 1 as [|z l S IH F]; simpl.
  - repeat constructor.
  - destruct (str_leb x z) eqn:E.
    + constructor; [now constructor|]. constructor; [exact E|].
      eapply Forall_impl; [|exact F]. intros b Hb. exact (str_leb_trans _ _ _ E Hb).
    + constructor; [exact IH|]. apply Forall_forall. intros b Hb.
      apply insert_sorted_In in Hb as [->|Hb].
      * now apply str_leb_total.
      * rewrite Forall_forall in F. now apply F.
Qed.

Lemma insert_sorted_NoDup (x : str) (l : list str) :
  ~ In x l -> NoDup l -> NoDup (insert_sorted x l).
Proof.
  induction l as [|z l IH]; simpl; intros NI ND.
  - repeat constructor. auto.
  - destruct (str_leb x z).
    + now constructor.
    + inversion ND as [|? ? Nz NDl]; subst. constructor.
      * rewrite insert_sorted_In. intuition.
      * apply IH; auto.
Qed.

Lemma sorted_In (y : str) (l : list str) : In y (sorted l) <-> In y l.
Proof.
  induction l as [|x l IH]; simpl; [tauto|].
  rewrite insert_sorted_In, IH. intuition.
Qed.

Lemma sorted_sorted (l : list str) :
  StronglySorted (fun a b => str_leb a b = true) (sorted l).
Proof.
  induction l as [|x l IH]; simpl; [constructor | now apply insert_sorted_sorted].
Qed.

Lemma sorted_NoDup (l : list str) : NoDup l -> NoDup (sorted l).
Proof.
  induction 1 as [|x l NI ND IH]; simpl; [constructor|].
  apply insert_sorted_NoDup; [now rewrite sorted_In | exact IH].
Qed.

Lemma existsb_str_eqb (x : str) (l : list str) :
  existsb (str_eqb x) l = true <-> In x l.
Proof.
  rewrite existsb_exists. split.
  - intros [y [I E]]. apply str_eqb_eq in E. now subst.
  - intro I. exists x. split; [exact I | apply str_eqb_refl].
Qed.

Lemma set_add_In (x y : str) (names : list str) :
  In y (set_add x names) <-> y = x \/ In y names.
Proof.
  unfold set_add. destruct (existsb (str_eqb x) names) eqn:E.
  - apply existsb_str_eqb in E. split; [auto | intros [->|]; auto].
  - simpl. intuition.
Qed.

Lemma set_add_NoDup (x : str) (names : list str) : NoDup names -> NoDup (set_add x names).
Proof.
  intro ND. unfold set_add. destruct (existsb (str_eqb x) names) eqn:E; [exact ND|].
  constructor; [|exact ND]. intro I. apply existsb_str_eqb in I. congruence.
Qed.

Lemma add_subfolders_In (subs : list DirEntry) : forall (names : list str) (n : str),
  In n (add_subfolders subs names) <->
  In n names \/ exists sub, In sub subs /\ is_dir sub = true /\ name sub = n.
Proof.
  unfold add_subfolders.
  induction subs as [|sub subs IH]; intros names n; simpl.
  - split; [auto | intros [I|[sub [[] _]]]; exact I].
  - rewrite IH. destruct (is_dir sub) eqn:D.
    + rewrite set_add_In. split.
      * intros [[->|I]|[s [I [Ds Ns]]]]; eauto 7.
      * intros [I|[s [[<-|I] [Ds Ns]]]]; eauto 7.
    + split.
      * intros [I|[s [I [Ds Ns]]]]; eauto 7.
      * intros [I|[s [[<-|I] [Ds Ns]]]]; eauto 7. congruence.
Qed.

Lemma add_subfolders_NoDup (subs : list DirEntry) : forall names,
  NoDup names -> NoDup (add_subfolders subs names).
Proof.
  unfold add_subfolders.
  induction subs as [|sub subs IH]; intros names ND; simpl; [exact ND|].
  apply IH. destruct (is_dir sub); [now apply set_add_NoDup | exact ND].
Qed.

Lemma assignment_of_nil (w : world) (n : str) : ~ assignment_of w [] n.
Proof. intros [s [subs [sub [[] _]]]]. Qed.

Lemma assignment_of_cons (w : world) (entry : DirEntry) (rest : list DirEntry) (n : str) :
  assignment_of w (entry :: rest) n <->
  (is_dir entry = true /\ exists subs sub,
     scandir w (path entry) = Ok subs /\
     In sub subs /\ is_dir sub = true /\ name sub = n) \/
  assignment_of w rest n.
Proof.
  unfold assignment_of. split.
  - intros [s [subs [sub [[<-|I] [D [Sc R]]]]]]; [left | right]; eauto 10.
  - intros [[D [subs [sub [Sc R]]]] | [s [subs [sub [I R]]]]].
    + exists entry, subs, sub. simpl. auto.
    + exists s, subs, sub. simpl. auto.
Qed.

Lemma scan_students_Ok (w : world) (entries : list DirEntry) :
  forall names result,
  scan_students w entries names = Ok result ->
  (NoDup names -> NoDup result) /\
  forall n, In n result <-> In n names \/ assignment_of w entries n.
Proof.
  induction entries as [|entry rest IH]; intros names result E.
  - injection E as <-. split; [auto|]. intro n.
    pose proof (assignment_of_nil w n). tauto.
  - cbn [scan_students] in E. destruct (is_dir entry) eqn:D; cbn [negb] in E.
    + destruct (scandir w (path entry)) as [subs|e|] eqn:Sc.
      * apply IH in E as [ND In_]. split.
        -- auto using add_subfolders_NoDup.
        -- intro n. rewrite In_, add_subfolders_In, assignment_of_cons.
           split.
           ++ intros [[I|[sub R]]|A]; eauto 10.
           ++ intros [I|[[_ [subs' [sub [Sc' R]]]]|A]]; eauto 10.
              rewrite Sc in Sc'. injection Sc' as <-. eauto 10.
      * destruct e; try discriminate.
        apply IH in E as [ND In_]. split; [exact ND|].
        intro n. rewrite In_, assignment_of_cons. split; [tauto|].
        intros [I|[[_ [subs' [sub [Sc' _]]]]|A]]; auto.
        rewrite Sc in Sc'. discriminate.
      * discriminate.
    + apply IH in E as [ND In_]. split; [exact ND|].
      intro n. rewrite In_, assignment_of_cons. split; [tauto|].
      intros [I|[[D' _]|A]]; auto. congruence.
Qed.

(** The loop over the students returns a set when every student folder
    can be listed or refuses with a permission error. *)
Lemma scan_students_returns (w : world) (entries : list DirEntry) :
  (forall student, In student entries -> is_dir student = true ->
     scandir w (path student) = Raise PermissionError \/
     exists subs, scandir w (path student) = Ok subs) ->
  forall names, exists result, scan_students w entries names = Ok result.
Proof.
  induction entries as [|entry rest IH]; intros L names; [now exists names|].
  cbn [scan_students]. destruct (is_dir entry) eqn:D; cbn [negb].
  - destruct (L entry (or_introl eq_refl) D) as [-> | [subs ->]];
      apply IH; intros; apply L; simpl; auto.
  - apply IH; intros; apply L; simpl; auto.
Qed.

(** C8.  Assignment discovery returns the empty list when the root is not a
    directory.  When it returns a list for a root that is a directory, the
    list is sorted, has no name twice, and holds exactly the names of the
    directories directly inside the student folders that could be listed.  A
    student folder whose listing raises a permission error is passed over:
    the loop goes on with the set as it was.  A list is returned whenever the
    root and each student folder can be listed or, for a student folder,
    refuses with a permission error.  For the students with the folders Quiz
    and Essay, Essay, and an unreadable folder, the list is Essay, Quiz. *)
Theorem collect_assignment_subfolders_spec (w : world) (turned_in_path : str) :
  (path_isdir w turned_in_path = false ->
   collect_assignment_subfolders w turned_in_path = Ok []) /\
  (forall names,
     path_isdir w turned_in_path = true ->
     collect_assignment_subfolders w turned_in_path = Ok names ->
     StronglySorted (fun a b => str_leb a b = true) names /\
     NoDup names /\
     forall n, In n names <-> assignment_of w (listing w turned_in_path) n) /\
  (forall entry rest names,
     is_dir entry = true ->
     scandir w (path entry) = Raise PermissionError ->
     scan_students w (entry :: rest) names = scan_students w rest names) /\
  (forall entries,
     scandir w turned_in_path = Ok entries ->
     (forall student, In student entries -> is_dir student = true ->
        scandir w (path student) = Raise PermissionError \/
        exists subs, scandir w (path student) = Ok subs) ->
     exists names, collect_assignment_subfolders w turned_in_path = Ok names) /\
  collect_assignment_subfolders three_students (py "root") = Ok [py "Essay"; py "Quiz"].
Proof.
  split; [|split; [|split; [|split]]].
  - intro D. unfold collect_assignment_subfolders. now rewrite D.
  - intros names D E. unfold collect_assignment_subfolders in E.
    rewrite D in E. cbn [negb] in E.
    assert (Sc : scandir w turned_in_path = Ok (listing w turned_in_path) \/
                 exists e, scandir w turned_in_path = Raise e).
    { unfold scandir. destruct (lookup w turned_in_path) as [[|[]]|]; eauto. }
    destruct Sc as [Sc | [e Sc]]; rewrite Sc in E; [|discriminate].
    destruct (scan_students w (listing w turned_in_path) []) as [result|e|] eqn:S;
      try discriminate.
    injection E as <-. apply scan_students_Ok in S as [ND In_].
    split; [apply sorted_sorted|]. split; [apply sorted_NoDup, ND; constructor|].
    intro n. rewrite sorted_In, In_. simpl. tauto.
  - intros entry rest names D P. cbn [scan_students]. now rewrite D, P.
  - intros entries Sc L. unfold collect_assignment_subfolders.
    assert (D : path_isdir w turned_in_path = true).
    { unfold scandir in Sc. unfold path_isdir.
      destruct (lookup w turned_in_path) as [[|[]]|]; try discriminate; reflexivity. }
    rewrite D, Sc. cbn [negb].
    destruct (scan_students_returns w entries L []) as [result ->]. eauto.
  - vm_compute. reflexivity.
Qed.

Lemma collect_assignment_subfolders_spec_witness :
  StronglySorted (fun a b => str_leb a b = true) [py "Essay"; py "Quiz"] /\
  NoDup [py "Essay"; py "Quiz"] /\
  forall n, In n [py "Essay"; py "Quiz"] <->
            assignment_of three_students (listing three_students (py "root")) n.
Proof.
  exact (proj1 (proj2 (collect_assignment_subfolders_spec three_students (py "root")))
           [py "Essay"; py "Quiz"] eq_refl eq_refl).
Defined.

(** ** The examples of the specification *)

(** Example of section 8.  Students [Jane_Doe] and [Bob Smith], each with a
    file [x.txt], no selector, no prefix and no suffix: two files are found
    and copied, to [Jane Doe.txt] and [Bob Smith.txt]. *)
Theorem two_students_collected `{Platform} (fuel : nat) (add_to_header : bool) :
  exists st',
    copy_from_local_folder (1 + fuel) (py "root") (py "out") None None None
      add_to_header (start two_students) = (Ok (2, 2), st') /\
    map name (listing (fs st') (py "out")) = [py "Bob Smith.txt"; py "Jane Doe.txt"] /\
    log st' = [Copied (py "root/Jane_Doe/x.txt") (py "out/Jane Doe.txt");
               Copied (py "root/Bob Smith/x.txt") (py "out/Bob Smith.txt")].
Proof.
  destruct (copy_from_local_folder 1 (py "root") (py "out") None None None
              add_to_header (start two_students)) as [r st'] eqn:E.
  assert (R : r = Ok (2, 2) /\
    map name (listing (fs st') (py "out")) = [py "Bob Smith.txt"; py "Jane Doe.txt"] /\
    log st' = [Copied (py "root/Jane_Doe/x.txt") (py "out/Jane Doe.txt");
               Copied (py "root/Bob Smith/x.txt") (py "out/Bob Smith.txt")]).
  { destruct add_to_header; vm_compute in E; injection E as <- <-;
      repeat split; vm_compute; reflexivity. }
  destruct R as [-> N]. exists st'. split; [|exact N].
  apply (copy_from_local_folder_more_fuel 1 (1 + fuel)); [lia | exact E | discriminate].
Qed.

(** Example of section 8.  Two files of one student with the same extension:
    the second copy gets the suffix [(2)], and both are counted. *)
Theorem colliding_names_numbered `{Platform} (fuel : nat) (add_to_header : bool) :
  exists st',
    copy_from_local_folder (1 + fuel) (py "root") (py "out") None None None
      add_to_header (start two_files) = (Ok (2, 2), st') /\
    log st' = [Copied (py "root/Jane_Doe/a.txt") (py "out/Jane Doe.txt");
               Copied (py "root/Jane_Doe/b.txt") (py "out/Jane Doe (2).txt")].
Proof.
  destruct (copy_from_local_folder 1 (py "root") (py "out") None None None
              add_to_header (start two_files)) as [r st'] eqn:E.
  assert (R : r = Ok (2, 2) /\
    log st' = [Copied (py "root/Jane_Doe/a.txt") (py "out/Jane Doe.txt");
               Copied (py "root/Jane_Doe/b.txt") (py "out/Jane Doe (2).txt")]).
  { destruct add_to_header; vm_compute in E; injection E as <- <-;
      repeat split; vm_compute; reflexivity. }
  destruct R as [-> N]. exists st'. split; [|exact N].
  apply (copy_from_local_folder_more_fuel 1 (1 + fuel)); [lia | exact E | discriminate].
Qed.

(** Example of section 8.  With the selector [Quiz], only the student who has
    that folder contributes: one file found and copied, from inside it. *)
Theorem selector_skips_students `{Platform} (fuel : nat) (add_to_header : bool) :
  exists st',
    copy_from_local_folder (1 + fuel) (py "root") (py "out") (Some (py "Quiz"))
      None None add_to_header (start three_students) = (Ok (1, 1), st') /\
    log st' = [Copied (py "root/Ann/Quiz/q1.txt") (py "out/Ann.txt")].
Proof.
  destruct (copy_from_local_folder 1 (py "root") (py "out") (Some (py "Quiz"))
              None None add_to_header (start three_students)) as [r st'] eqn:E.
  assert (R : r = Ok (1, 1) /\
    log st' = [Copied (py "root/Ann/Quiz/q1.txt") (py "out/Ann.txt")]).
  { destruct add_to_header; vm_compute in E; injection E as <- <-;
      repeat split; vm_compute; reflexivity. }
  destruct R as [-> N]. exists st'. split; [|exact N].
  apply (copy_from_local_folder_more_fuel 1 (1 + fuel)); [lia | exact E | discriminate].
Qed.

(** ** The model against Python, on examples *)

Example sanitize_filename_underscore :
  sanitize_filename (py "Jane_Doe") = py "Jane Doe".
Proof. reflexivity. Qed.

Example sanitize_filename_reserved :
  sanitize_filename (py "  a<b>:c.. ") = py "a b c".
Proof. vm_compute. reflexivity. Qed.

Example sanitize_filename_placeholder : sanitize_filename (py " ?._ ") = py "unnamed".
Proof. vm_compute. reflexivity. Qed.

Example splitext_last_of_two : splitext (py "x.tar.gz") = (py "x.tar", py ".gz").
Proof. vm_compute. reflexivity. Qed.

Example splitext_leading_dots : splitext (py "..a.b") = (py "..a", py ".b").
Proof. vm_compute. reflexivity. Qed.

Example splitext_dot_in_directory : splitext (py "a/b.c/d") = (py "a/b.c/d", []).
Proof. vm_compute. reflexivity. Qed.

Example join_plain : join (py "out") (py "x.txt") = py "out/x.txt".
Proof. vm_compute. reflexivity. Qed.

Example join_trailing_slash : join (py "out/") (py "x.txt") = py "out/x.txt".
Proof. vm_compute. reflexivity. Qed.

Example join_absolute_name : join (py "out") (py "/x.txt") = py "/x.txt".
Proof. vm_compute. reflexivity. Qed.

Example dirname_plain : dirname (py "out/x.txt") = py "out".
Proof. vm_compute. reflexivity. Qed.

Example dirname_root : dirname (py "/x.txt") = py "/".
Proof. vm_compute. reflexivity. Qed.

Example dirname_double_slash : dirname (py "a//x.txt") = py "a".
Proof. vm_compute. reflexivity. Qed.

Example numbered_tenth : numbered (py "b") (py ".txt") 10 = py "b (10).txt".
Proof. vm_compute. reflexivity. Qed.

(* ================================================================== *)
(** * Part III.  Beyond the claims *)
(* ================================================================== *)

(** ** sanitize_filename: fixed points, the placeholder, provenance *)

Lemma lstrip_length (p : char -> bool) (s : str) : length (lstrip p s) <= length s.
Proof.
  induction s as [|c t IH]; simpl; [lia|]. destruct (p c); simpl; lia.
Qed.

Lemma rstrip_length (p : char -> bool) (s : str) : length (rstrip p s) <= length s.
Proof.
  induction s as [|c t IH]; [simpl; lia|]. rewrite rstrip_cons.
  destruct (is_empty (rstrip p t) && p c); simpl; lia.
Qed.

(** Stripping a string that ends in a character to strip makes it shorter. *)
Lemma rstrip_shorter (p : char -> bool) (s : str) :
  ends_in p s = true -> length (rstrip p s) < length s.
Proof.
  induction s as [|c t IH]; [discriminate|]. intro E. rewrite rstrip_cons.
  destruct t as [|y r].
  - simpl in *. rewrite E. simpl. lia.
  - specialize (IH E).
    destruct (is_empty (rstrip p (y :: r)) && p c); cbn [length] in *; lia.
Qed.

Lemma rstrip_all (p : char -> bool) (s : str) :
  Forall (fun c => p c = true) s -> rstrip p s = [].
Proof.
  induction 1 as [|c t Pc F IH]; [reflexivity|].
  rewrite rstrip_cons, IH, Pc. reflexivity.
Qed.

Lemma collapse_loop_length (fuel : nat) (s : str) :
  length (collapse_loop fuel s) <= length s.
Proof.
  revert s; induction fuel as [|fuel IH]; intro s; simpl; [lia|].
  destruct (has_double_space s); [|lia].
  pose proof (IH (replace_double_space s)).
  pose proof (replace_double_space_length s). lia.
Qed.

(** What the sanitizer returns before the placeholder is no longer than
    the name. *)
Lemma sanitize_core_length (name : str) :
  length (rstrip_dots (strip (collapse_spaces (replace_char UNDERSCORE SPACE
            (map (fun c => if char_in c invalid then SPACE else c) name)))))
  <= length name.
Proof.
  unfold rstrip_dots, strip, collapse_spaces, replace_char.
  match goal with |- length (rstrip ?p (lstrip ?q (rstrip ?q' (collapse_loop ?f ?x)))) <= _ =>
    pose proof (rstrip_length p (lstrip q (rstrip q' (collapse_loop f x))));
    pose proof (lstrip_length q (rstrip q' (collapse_loop f x)));
    pose proof (rstrip_length q' (collapse_loop f x));
    pose proof (collapse_loop_length f x);
    assert (length x = length name) by (now rewrite !length_map)
  end.
  lia.
Qed.

(** X3.  The names the sanitizer returns unchanged are exactly the clean
    ones: no refused character, no underscore, no two spaces in a row, no
    whitespace at either end, no final dot, not empty. *)
Theorem sanitize_filename_fixed_points (s : str) :
  sanitize_filename s = s <-> clean s.
Proof.
  split.
  - intro E.
    assert (K : Forall kept s) by (rewrite <- E; apply sanitize_filename_kept).
    assert (D : has_double_space s = false)
      by (rewrite <- E; apply sanitize_filename_single_spaces).
    assert (T : endswith DOT s = false)
      by (rewrite <- E; apply sanitize_filename_no_final_dot).
    assert (NE : s <> []) by (rewrite <- E; apply sanitize_filename_nonempty).
    assert (H : starts_in is_whitespace s = false).
    { destruct s as [|c t]; [reflexivity|]. exact (sanitize_filename_head _ _ _ E). }
    repeat split; auto.
    destruct (ends_in is_whitespace s) eqn:W; [exfalso|reflexivity].
    rewrite sanitize_filename_eq, (map_kept_id _ K), (collapse_spaces_id _ D) in E.
    assert (L : length (rstrip_dots (strip s)) < length s).
    { unfold rstrip_dots, strip.
      pose proof (rstrip_length (fun c => char_eqb c DOT)
                    (lstrip is_whitespace (rstrip is_whitespace s))).
      pose proof (lstrip_length is_whitespace (rstrip is_whitespace s)).
      pose proof (rstrip_shorter _ _ W). lia. }
    destruct (rstrip_dots (strip s)) as [|c t].
    + subst s. discriminate.
    + rewrite E in L. lia.
  - intros [K [D [H [W [T NE]]]]]. now apply sanitize_filename_fixed.
Qed.

(** X4.  A name made only of refused characters, underscores and
    whitespace (the empty name too) is sanitized to the placeholder. *)
Theorem sanitize_filename_only_separators (name : str) :
  Forall (fun c => separator c = true) name ->
  sanitize_filename name = py "unnamed".
Proof.
  intro F. rewrite sanitize_filename_eq.
  assert (W : Forall (fun c => is_whitespace c = true)
                (replace_char UNDERSCORE SPACE
                   (map (fun c => if char_in c invalid then SPACE else c) name))).
  { unfold replace_char. rewrite map_map. apply Forall_forall.
    intros x Hx. apply in_map_iff in Hx as [c [<- Hc]].
    rewrite Forall_forall in F. specialize (F c Hc). unfold separator in F.
    destruct (char_in c invalid); [reflexivity|].
    destruct (char_eqb c UNDERSCORE); [reflexivity|]. exact F. }
  apply (collapse_loop_Forall (fun c => is_whitespace c = true) eq_refl
           (length (replace_char UNDERSCORE SPACE
              (map (fun c => if char_in c invalid then SPACE else c) name)))) in W.
  fold (collapse_spaces (replace_char UNDERSCORE SPACE
          (map (fun c => if char_in c invalid then SPACE else c) name))) in W.
  unfold strip. now rewrite (rstrip_all _ _ W).
Qed.

Lemma sanitize_filename_only_separators_witness :
  sanitize_filename (py " ?_* ") = py "unnamed".
Proof.
  apply (sanitize_filename_only_separators (py " ?_* ")).
  repeat constructor.
Defined.

(** X5.  A sanitized name has no underscore and does not begin with
    whitespace; unless it is the placeholder, it is no longer than the name
    it was made from and each of its characters is a space or a character
    of that name. *)
Theorem sanitize_filename_provenance (name : str) :
  Forall (fun c => c <> UNDERSCORE) (sanitize_filename name) /\
  starts_in is_whitespace (sanitize_filename name) = false /\
  (sanitize_filename name = py "unnamed" \/
   length (sanitize_filename name) <= length name /\
   Forall (fun c => c = SPACE \/ In c name) (sanitize_filename name)).
Proof.
  split; [|split].
  - eapply Forall_impl; [|apply sanitize_filename_kept]. now intros c [_ U].
  - destruct (sanitize_filename name) as [|c t] eqn:E; [reflexivity|].
    exact (sanitize_filename_head _ _ _ E).
  - rewrite sanitize_filename_eq.
    pose proof (sanitize_core_length name) as L.
    destruct (rstrip_dots _) as [|c t] eqn:E; [now left|]. right.
    split; [exact L|]. rewrite <- E.
    apply rstrip_Forall, strip_Forall.
    apply collapse_loop_Forall; [now left|].
    unfold replace_char. rewrite map_map. apply Forall_forall.
    intros x Hx. apply in_map_iff in Hx as [a [<- Ha]].
    destruct (char_in a invalid); [now left|].
    destruct (char_eqb a UNDERSCORE); [now left | now right].
Qed.

(** ** Writing to the filesystem *)

Lemma lookup_filter_other (w : world) (p q : str) :
  str_eqb p q = false ->
  lookup (filter (fun b => negb (str_eqb (fst b) p)) w) q = lookup w q.
Proof.
  intro N. induction w as [|[k n] w IH]; [reflexivity|]. simpl.
  destruct (str_eqb k p) eqn:K; simpl.
  - apply str_eqb_eq in K. subst k. now rewrite N.
  - now rewrite IH.
Qed.

Lemma lookup_write (w : world) (p q : str) (data : list N) :
  lookup (write w p data) q =
  if str_eqb p q then Some (File data) else lookup w q.
Proof.
  unfold write. cbn [lookup]. destruct (str_eqb p q) eqn:E; [reflexivity|].
  now apply lookup_filter_other.
Qed.

Lemma write_write (w : world) (p : str) (a b : list N) :
  write (write w p a) p b = write w p b.
Proof.
  unfold write. cbn [filter fst]. rewrite str_eqb_refl. cbn [negb]. f_equal.
  induction w as [|[k n] w IH]; [reflexivity|]. simpl.
  destruct (str_eqb k p) eqn:K; simpl; [exact IH|]. now rewrite K, IH.
Qed.

Lemma lookup_path_exists (w : world) (p : str) (n : node) :
  lookup w p = Some n -> path_exists w p = true.
Proof. unfold path_exists. now intros ->. Qed.

Lemma path_exists_lookup (w : world) (p : str) :
  path_exists w p = true -> exists n, lookup w p = Some n.
Proof. unfold path_exists. destruct (lookup w p) as [n|]; [eauto | discriminate]. Qed.

Lemma path_exists_write (w : world) (p q : str) (data : list N) :
  path_exists (write w p data) q = str_eqb p q || path_exists w q.
Proof. unfold path_exists. rewrite lookup_write. now destruct (str_eqb p q). Qed.

Lemma destinations_app (a b : list event) :
  destinations (a ++ b) = destinations a ++ destinations b.
Proof. apply flat_map_app. Qed.

Lemma in_destinations (es : list event) (d : str) :
  In d (destinations es) <-> exists src, In (Copied src d) es.
Proof.
  unfold destinations. rewrite in_flat_map. split.
  - intros [[src dst|p f] [I D]]; simpl in D; [|contradiction].
    destruct D as [<-|[]]. eauto.
  - intros [src I]. exists (Copied src d). simpl. auto.
Qed.

Section Effects.

Context `{Platform}.

(** A copy to a path that does not exist: done, or the state untouched. *)
Lemma copy2_outcome (src dst : str) (st st' : state) (r : result unit) :
  path_exists (fs st) dst = false ->
  copy2 src dst st = (r, st') ->
  (r = Ok tt /\ exists data,
     lookup (fs st) src = Some (File data) /\
     st' = record (Copied src dst) (set_fs (write (fs st) dst data) st)) \/
  (st' = st /\ exists e, r = Raise e).
Proof.
  intros F E. rewrite (copy2_fresh _ _ _ F) in E.
  destruct (conversion_error dst); [injection E as <- <-; right; eauto|].
  destruct (lookup (fs st) src) as [[data|b]|];
    try (injection E as <- <-; right; eauto).
  destruct (str_eqb src dst); [injection E as <- <-; right; eauto|].
  destruct (create_error (fs st) dst);
    injection E as <- <-; [right; eauto | left; eauto].
Qed.

(** The stamper returns a flag, whatever happens; it has rewritten the
    document when the flag is [true], and touched nothing otherwise. *)
Lemma add_filename_to_docx_header_outcome (docx_path filename : str) (st : state) :
  exists b st',
    add_filename_to_docx_header docx_path filename st = (Ok b, st') /\
    log st' = log st ++ [HeaderCall docx_path filename] /\
    total_found st' = total_found st /\ total_copied st' = total_copied st /\
    ((b = false /\ fs st' = fs st) \/
     (b = true /\ DOCX_AVAILABLE = true /\
      exists data data',
        lookup (fs st) docx_path = Some (File data) /\
        docx_set_header data filename = Some data' /\
        fs st' = write (fs st) docx_path data')).
Proof.
  unfold add_filename_to_docx_header. cbv zeta. cbn [fs record].
  destruct DOCX_AVAILABLE eqn:A; cbn [negb]; [|eauto 10].
  destruct (lookup (fs st) docx_path) as [[data|r]|] eqn:L; [|eauto 10|eauto 10].
  destruct (docx_set_header data filename) as [data'|] eqn:S; [|eauto 10].
  do 2 eexists. split; [reflexivity|]. cbn. repeat split; auto.
  right. eauto 10.
Qed.

(** The step for one file, however it ends: nothing was copied and the
    step ended with an exception; or the file was copied to the first free
    candidate, the step ended normally, and the destination holds the bytes
    of the source or their stamped form. *)
Lemma process_file_cases (add_to_header : bool)
    (base_name output _dirpath fname : str) (st st' : state) (r : result unit) :
  process_file add_to_header base_name output _dirpath fname st = (r, st') ->
  (fs st' = fs st /\ log st' = log st /\ exists e, r = Raise e) \/
  exists k data data',
    first_free base_name (snd (splitext fname)) output (fs st) k /\
    lookup (fs st) (join _dirpath fname) = Some (File data) /\
    fs st' = write (fs st)
               (candidate_path base_name (snd (splitext fname)) output k) data' /\
    log st' = log st ++
      Copied (join _dirpath fname)
        (candidate_path base_name (snd (splitext fname)) output k) ::
      (if add_to_header && str_eqb (lower (snd (splitext fname))) (py ".docx")
       then [HeaderCall (candidate_path base_name (snd (splitext fname)) output k)
               base_name]
       else []) /\
    (data' = data \/
     add_to_header = true /\ DOCX_AVAILABLE = true /\
     lower (snd (splitext fname)) = py ".docx" /\
     docx_set_header data base_name = Some data') /\
    r = Ok tt.
Proof.
  intro E. unfold process_file in E.
  unfold bind at 1 in E. cbn [incr_found] in E.
  unfold bind at 1 in E. cbn [fs] in E.
  destruct (choose_unique_filename_first_free base_name (snd (splitext fname))
              output (fs st)) as [k [K1 [C [F B]]]].
  rewrite C in E. set (dest := candidate_path _ _ _ k) in *.
  unfold bind at 1 in E.
  destruct (copy2 (join _dirpath fname) dest _) as [r2 st2] eqn:E2.
  apply copy2_outcome in E2; [|exact F]. cbn [fs] in E2.
  destruct E2 as [[-> [data [L ->]]] | [-> [e ->]]].
  - right. exists k, data.
    match type of E with context [record ?e ?s] => remember (record e s) as st3 eqn:R end.
    assert (L3 : log st3 = log st ++ [Copied (join _dirpath fname) dest])
      by (subst st3; reflexivity).
    assert (F3 : fs st3 = write (fs st) dest data) by (subst st3; reflexivity).
    clear R. unfold bind at 1 in E.
    destruct (add_to_header && str_eqb (lower (snd (splitext fname))) (py ".docx"))
      eqn:T.
    + unfold bind at 1 in E.
      destruct (add_filename_to_docx_header_outcome dest base_name st3)
        as [b [st4 [E' [L4 [_ [_ O]]]]]].
      rewrite E' in E. injection E as <- <-. cbn [fs log].
      apply andb_true_iff in T as [T X]. apply str_eqb_eq in X.
      destruct O as [[_ Fs] | [_ [A [d0 [d1 [L0 [S Fs]]]]]]].
      * exists data. rewrite Fs, F3, L4, L3, <- app_assoc.
        repeat split; auto.
      * rewrite F3, lookup_write, str_eqb_refl in L0. injection L0 as <-.
        exists d1. rewrite Fs, F3, write_write, L4, L3, <- app_assoc.
        repeat split; auto.
    + injection E as <- <-. cbn [fs log]. exists data.
      rewrite F3, L3. repeat split; auto.
  - left. injection E as <- <-. cbn. repeat split; eauto.
Qed.

Lemma effect_same (add_to_header : bool) (st st' : state) :
  fs st' = fs st -> log st' = log st -> has_effect add_to_header st st'.
Proof.
  intros F L. exists []. unfold effect. rewrite F, L, app_nil_r.
  repeat split; auto; try constructor; simpl; contradiction.
Qed.

Lemma effect_monotone (add_to_header : bool) (st st' : state) (es : list event) :
  effect add_to_header st st' es ->
  forall p, path_exists (fs st) p = true -> path_exists (fs st') p = true.
Proof.
  intros [_ [Fr _]] p E. apply path_exists_lookup in E as [n E].
  exact (lookup_path_exists _ _ _ (Fr _ _ E)).
Qed.

Lemma effect_trans (add_to_header : bool) (a b c : state) :
  has_effect add_to_header a b -> has_effect add_to_header b c ->
  has_effect add_to_header a c.
Proof.
  intros [e1 E1] [e2 E2].
  pose proof (effect_monotone _ _ _ _ E1) as M1.
  pose proof (effect_monotone _ _ _ _ E2) as M2.
  destruct E1 as [L1 [Fr1 [N1 [D1 [O1 B1]]]]].
  destruct E2 as [L2 [Fr2 [N2 [D2 [O2 B2]]]]].
  exists (e1 ++ e2). unfold effect. rewrite destinations_app.
  split; [now rewrite L2, L1, app_assoc|].
  split; [auto|].
  split.
  { apply NoDup_app; auto. intros d I1 I2.
    destruct (D1 d I1) as [_ X]. destruct (D2 d I2) as [Y _]. congruence. }
  split.
  { intros d I. apply in_app_or in I as [I|I].
    - destruct (D1 d I). auto.
    - destruct (D2 d I) as [Y Z]. split; [|exact Z].
      destruct (path_exists (fs a) d) eqn:X; [|reflexivity].
      apply M1 in X. congruence. }
  split.
  { intros p X. rewrite in_app_iff. destruct (O2 p X) as [Y|Y]; [|auto].
    destruct (O1 p Y); auto. }
  intros src dst I. apply in_app_or in I as [I|I]; [|exact (B2 _ _ I)].
  destruct (B1 _ _ I)
    as [data [S [Dd | [T [A [d [fname [label [data' [Sj [X [Sh Dd]]]]]]]]]]]];
    exists data; (split; [exact (Fr2 _ _ S)|]).
  - left. exact (Fr2 _ _ Dd).
  - right. repeat split; auto. exists d, fname, label, data'.
    repeat split; auto.
Qed.

Lemma always_process_file_effect (add_to_header : bool)
    (base_name output d fname : str) :
  always (has_effect add_to_header)
    (process_file add_to_header base_name output d fname).
Proof.
  intros st r st' E. apply process_file_cases in E.
  destruct E as [[F [L _]] | [k [data [data' [[K1 [Fk Bk]] [Ls [F [L [Dd _]]]]]]]]].
  - now apply effect_same.
  - set (dest := candidate_path base_name (snd (splitext fname)) output k) in *.
    exists (Copied (join d fname) dest ::
             (if add_to_header && str_eqb (lower (snd (splitext fname))) (py ".docx")
              then [HeaderCall dest base_name] else [])).
    assert (De : destinations
              (Copied (join d fname) dest ::
                (if add_to_header && str_eqb (lower (snd (splitext fname))) (py ".docx")
                 then [HeaderCall dest base_name] else [])) = [dest])
      by (destruct (add_to_header && _); reflexivity).
    assert (NEq : forall p n, lookup (fs st) p = Some n -> str_eqb dest p = false).
    { intros p n Lp. apply str_eqb_neq. intros <-.
      apply lookup_path_exists in Lp. congruence. }
    unfold effect. rewrite De, F. split; [exact L|].
    split.
    { intros p n Lp. now rewrite lookup_write, (NEq _ _ Lp). }
    split; [repeat constructor; simpl; tauto|].
    split.
    { intros x [<-|[]]. split; [exact Fk|].
      now rewrite path_exists_write, str_eqb_refl. }
    split.
    { intros p X. rewrite path_exists_write in X.
      destruct (str_eqb dest p) eqn:Q; [|now left].
      apply str_eqb_eq in Q. right. now left. }
    intros src dst I.
    assert (J : src = join d fname /\ dst = dest).
    { destruct I as [I|I]; [now injection I|].
      destruct (add_to_header && _); [|contradiction].
      destruct I as [I|[]]. discriminate. }
    destruct J as [-> ->]. exists data. split.
    { now rewrite lookup_write, (NEq _ _ Ls). }
    rewrite lookup_write, str_eqb_refl.
    destruct Dd as [->|[T [A [X S]]]]; [now left|].
    right. repeat split; auto. exists d, fname, base_name, data'. auto.
Qed.

End Effects.

(** ** Lifting what one file does to the whole run *)

Lemma records_refl (P : event -> Prop) (st : state) : records P st st.
Proof. exists []. split; [now rewrite app_nil_r | constructor]. Qed.

Lemma records_trans (P : event -> Prop) (a b c : state) :
  records P a b -> records P b c -> records P a c.
Proof.
  intros [e1 [L1 F1]] [e2 [L2 F2]]. exists (e1 ++ e2).
  split; [now rewrite L2, L1, app_assoc | now apply Forall_app].
Qed.

(** The entries of a listing have valid names, and their paths are the
    directory joined with the name. *)
Lemma listing_entry (w : world) (d : str) (e : DirEntry) :
  In e (listing w d) -> valid_name (name e) /\ path e = join d (name e).
Proof.
  unfold listing. rewrite in_flat_map. intros [[p n] [_ I]].
  unfold entry_of in I. cbn [fst snd] in I.
  destruct (child_name d p) as [nm|] eqn:C; [|contradiction].
  destruct I as [<-|[]]. cbn [name path]. split; [|reflexivity].
  unfold child_name in C. cbv zeta in C.
  destruct (strip_prefix _ p) as [rest|]; [|discriminate].
  destruct (is_empty rest || char_in SLASH rest) eqn:V; [discriminate|].
  injection C as <-. apply orb_false_iff in V as [E V]. split.
  - intros ->. discriminate.
  - intro I. assert (X : char_in SLASH rest = true); [|congruence].
    unfold char_in. apply existsb_exists. exists SLASH. split; [exact I|].
    apply char_eqb_refl.
Qed.

Lemma valid_name_relative (nm : str) : valid_name nm -> startswith SLASH nm = false.
Proof.
  intros [_ NS]. destruct nm as [|c t]; [reflexivity|]. simpl.
  apply char_eqb_neq. intros ->. apply NS. now left.
Qed.

Lemma inside_join (root d nm : str) :
  inside root d -> startswith SLASH nm = false -> inside root (join d nm).
Proof.
  intros [rest ->] R. rewrite (join_relative _ _ R). unfold inside.
  destruct (is_empty (_ ++ rest) || endswith SLASH (_ ++ rest)).
  - exists (rest ++ nm). now rewrite app_assoc.
  - exists (rest ++ [SLASH] ++ nm). now rewrite !app_assoc.
Qed.

Lemma inside_child (root nm : str) :
  startswith SLASH nm = false -> inside root (join root nm).
Proof. intro R. rewrite (join_relative _ _ R). now exists nm. Qed.

Section Lifting.

Context `{Platform}.

Variable R : state -> state -> Prop.
Hypothesis R_refl : forall st, R st st.
Hypothesis R_trans : forall a b c, R a b -> R b c -> R a c.

(** The directories a walk may reach. *)
Variable Q : str -> Prop.
Hypothesis Q_join : forall d nm, Q d -> valid_name nm -> Q (join d nm).

Lemma always_for_each_in {A : Type} (l : list A) (body : A -> M unit) :
  (forall x, In x l -> always R (body x)) -> always R (for_each l body).
Proof.
  induction l as [|x l IH]; intro Hb.
  - exact (always_ret R R_refl tt).
  - apply (always_bind R R_trans).
    + apply Hb. now left.
    + intros _. apply IH. intros y Hy. apply Hb. now right.
Qed.

Lemma always_walk_in (body : str -> list str -> M unit) :
  (forall d files, Q d -> Forall valid_name files -> always R (body d files)) ->
  forall fuel stack, Forall Q stack -> always R (walk fuel stack body).
Proof.
  intro Hb. induction fuel as [|fuel IH]; intros [|top stack] Qs st a st' E;
    try (injection E as _ <-; apply R_refl).
  inversion Qs as [|? ? Qtop Qstack]; subst.
  cbn [walk] in E. destruct (scandir (fs st) top) as [entries|e|] eqn:Sc.
  - assert (En : entries = listing (fs st) top).
    { unfold scandir in Sc. destruct (lookup (fs st) top) as [[|[]]|];
        try discriminate. now injection Sc. }
    revert E. apply (always_bind R R_trans).
    + apply Hb; [exact Qtop|]. apply Forall_forall. intros nm I.
      apply in_map_iff in I as [e [<- I]]. apply filter_In in I as [I _].
      subst entries. now apply listing_entry in I.
    + intros _. apply IH. apply Forall_app. split; [|exact Qstack].
      apply Forall_forall. intros p I.
      apply in_map_iff in I as [nm [<- I]].
      apply in_map_iff in I as [e [<- I]]. apply filter_In in I as [I _].
      subst entries. apply listing_entry in I as [V _]. now apply Q_join.
  - exact (IH _ Qstack _ _ _ E).
  - exact (IH _ Qstack _ _ _ E).
Qed.

Lemma always_process_student_in (fuel : nat) (output : str)
    (assignment_subfolder prefix suffix : option str) (add_to_header : bool)
    (entry : DirEntry) :
  Q (path entry) ->
  (forall sub, assignment_subfolder = Some sub -> truthy sub = true ->
     Q (join (path entry) sub)) ->
  (forall d fname, Q d -> valid_name fname ->
     always R (process_file add_to_header (base_name_of prefix suffix entry)
                 output d fname)) ->
  always R (process_student fuel output assignment_subfolder prefix suffix
              add_to_header entry).
Proof.
  intros Qe Qs Hf.
  assert (W : forall root, Q root ->
             always R (walk_roots fuel add_to_header
                         (base_name_of prefix suffix entry) output [root])).
  { intros root Qr. unfold walk_roots. apply always_for_each_in.
    intros r [<-|[]].
    apply always_walk_in; [|now repeat constructor].
    intros d files Qd V. apply always_for_each_in.
    intros fname I. apply Hf; [exact Qd|].
    rewrite Forall_forall in V. now apply V. }
  unfold process_student.
  destruct (negb (is_dir entry)); [exact (always_ret R R_refl tt)|].
  cbv zeta. fold (base_name_of prefix suffix entry).
  destruct assignment_subfolder as [sub|]; [|now apply W].
  destruct (truthy sub) eqn:T; [|now apply W].
  intros st a st' E. destruct (path_isdir (fs st) (join (path entry) sub)).
  - exact (W _ (Qs _ eq_refl T) _ _ _ E).
  - injection E as _ <-. apply R_refl.
Qed.

End Lifting.

(** What every step for a file keeps, whatever its end, the run keeps:
    the steps are those of the student folders listed in the root, each
    over the directories [Q] that the walk for that student reaches and the
    file names it finds there. *)
Lemma always_run `{Platform} (R : state -> state -> Prop)
    (Q : DirEntry -> str -> Prop) (fuel : nat) (turned_in_path output : str)
    (assignment_subfolder prefix suffix : option str) (add_to_header : bool)
    (st st' : state) (r : result (nat * nat)) :
  (forall s, R s s) -> (forall a b c, R a b -> R b c -> R a c) ->
  (forall s f c, R s (mkState (fs s) (log s) f c)) ->
  (forall entry d nm, Q entry d -> valid_name nm -> Q entry (join d nm)) ->
  (forall entry, In entry (listing (fs st) turned_in_path) ->
     is_dir entry = true ->
     Q entry (path entry) /\
     forall sub, assignment_subfolder = Some sub -> truthy sub = true ->
       Q entry (join (path entry) sub)) ->
  (forall entry d fname,
     In entry (listing (fs st) turned_in_path) -> is_dir entry = true ->
     Q entry d -> valid_name fname ->
     always R (process_file add_to_header (base_name_of prefix suffix entry)
                 output d fname)) ->
  copy_from_local_folder fuel turned_in_path output assignment_subfolder prefix
    suffix add_to_header st = (r, st') ->
  R st st'.
Proof.
  intros Rr Rt Reset Qj Qe Hf E. unfold copy_from_local_folder in E.
  destruct (negb (path_isdir (fs st) turned_in_path)).
  { injection E as _ <-. apply Rr. }
  apply (Rt _ _ _ (Reset st 0 0)).
  unfold bind at 1 in E. unfold reading in E. cbn [fs] in E.
  destruct (scandir (fs st) turned_in_path) as [entries|e|] eqn:Sc;
    try (injection E as _ <-; apply Rr).
  assert (En : entries = listing (fs st) turned_in_path).
  { unfold scandir in Sc. destruct (lookup (fs st) turned_in_path) as [[|[]]|];
      try discriminate. now injection Sc. }
  subst entries. revert E. apply (always_bind R Rt).
  - apply (always_for_each_in R Rr Rt). intros entry I.
    destruct (is_dir entry) eqn:D.
    + destruct (Qe entry I D) as [Q1 Q2].
      apply (always_process_student_in R Rr Rt (Q entry) (Qj entry)); auto.
    + unfold process_student. rewrite D. exact (always_ret R Rr tt).
  - intros _ s r0 s' E0. injection E0 as _ <-. apply Rr.
Qed.

(** ** The header stamper *)

(** X6.  The header stamper never raises: it always returns a flag.  It
    creates and removes no path, and leaves every path other than the
    document as it was.  Without python-docx it returns [False] and leaves
    the filesystem as it was.  When it returns [True] the document was a
    file, and it now holds what python-docx made of its bytes for the
    label. *)
Theorem add_filename_to_docx_header_contract `{Platform}
    (docx_path filename : str) (st : state) :
  exists b st',
    add_filename_to_docx_header docx_path filename st = (Ok b, st') /\
    (forall p, p <> docx_path -> lookup (fs st') p = lookup (fs st) p) /\
    (forall p, path_exists (fs st') p = path_exists (fs st) p) /\
    (DOCX_AVAILABLE = false -> b = false /\ fs st' = fs st) /\
    (b = true ->
     exists data data',
       lookup (fs st) docx_path = Some (File data) /\
       docx_set_header data filename = Some data' /\
       lookup (fs st') docx_path = Some (File data')).
Proof.
  destruct (add_filename_to_docx_header_outcome docx_path filename st)
    as [b [st' [E [_ [_ [_ O]]]]]].
  exists b, st'. split; [exact E|].
  destruct O as [[-> F] | [-> [A [data [data' [L [S F]]]]]]].
  - rewrite F. repeat split; auto; discriminate.
  - rewrite F. split; [|split; [|split]].
    + intros p NE. rewrite lookup_write.
      destruct (str_eqb docx_path p) eqn:Q; [|reflexivity].
      apply str_eqb_eq in Q. congruence.
    + intro p. rewrite path_exists_write.
      destruct (str_eqb docx_path p) eqn:Q; [|reflexivity].
      apply str_eqb_eq in Q. subst p. symmetry.
      exact (lookup_path_exists _ _ _ L).
    + intro A'. congruence.
    + intros _. exists data, data'. rewrite lookup_write, str_eqb_refl. auto.
Qed.

(** ** What a run does to the filesystem *)

Section Runs.

Context `{Platform}.

Variables (fuel : nat) (turned_in_path output : str)
  (assignment_subfolder prefix suffix : option str) (add_to_header : bool).

(** A run, however it ends, has the effect of its copies. *)
Lemma copy_from_local_folder_has_effect (st st' : state) (r : result (nat * nat)) :
  copy_from_local_folder fuel turned_in_path output assignment_subfolder prefix
    suffix add_to_header st = (r, st') ->
  has_effect add_to_header st st'.
Proof.
  apply (always_run (has_effect add_to_header) (fun _ _ => True)).
  - intro s. now apply effect_same.
  - apply effect_trans.
  - intros s f c. now apply effect_same.
  - intros; exact I.
  - intros entry _ _. split; [exact I | intros; exact I].
  - intros entry d fname _ _ _ _. apply always_process_file_effect.
Qed.

(** One file, copied: one more copy in the record, one more counted. *)
Lemma keeps_process_file_counted (base_name d fname : str) :
  keeps counted (process_file add_to_header base_name output d fname).
Proof.
  intros st [] st' E. apply process_file_Ok in E as [dest [_ [_ [Co L]]]].
  unfold counted, copies. rewrite L, Co, destinations_app, length_app.
  destruct (add_to_header && _); simpl; lia.
Qed.

Lemma counted_refl (st : state) : counted st st.
Proof. unfold counted. lia. Qed.

Lemma counted_trans (a b c : state) : counted a b -> counted b c -> counted a c.
Proof. unfold counted. lia. Qed.

(** What every step for a file keeps when it ends normally, a run that
    ends normally keeps from the state with both counters at 0; it returns
    the counters. *)
Lemma keeps_run (R : state -> state -> Prop) (st st' : state) (found copied : nat) :
  (forall s, R s s) -> (forall a b c, R a b -> R b c -> R a c) ->
  (forall base_name d fname,
     keeps R (process_file add_to_header base_name output d fname)) ->
  copy_from_local_folder fuel turned_in_path output assignment_subfolder prefix
    suffix add_to_header st = (Ok (found, copied), st') ->
  R (mkState (fs st) (log st) 0 0) st' /\
  found = total_found st' /\ copied = total_copied st'.
Proof.
  intros Rr Rt Hf E. unfold copy_from_local_folder in E.
  destruct (negb (path_isdir (fs st) turned_in_path)); [discriminate|].
  apply bind_Ok in E as [entries [s1 [E1 E]]].
  unfold reading in E1. injection E1 as _ <-.
  apply bind_Ok in E as [[] [s2 [E2 E]]]. injection E as <- <- <-.
  split; [|split; reflexivity].
  revert E2. apply (keeps_for_each R Rr Rt). intro entry.
  now apply keeps_process_student.
Qed.

End Runs.

(** X7.  A run never overwrites, changes or removes anything: every path
    that named a file or a directory when the run started names the same
    file, with the same bytes, or the same directory when the run ends,
    whether it ends normally, with an exception, or not at all. *)
Theorem copy_from_local_folder_keeps_files `{Platform} (fuel : nat)
    (turned_in_path output : str) (assignment_subfolder prefix suffix : option str)
    (add_to_header : bool) (st st' : state) (r : result (nat * nat)) :
  copy_from_local_folder fuel turned_in_path output assignment_subfolder prefix
    suffix add_to_header st = (r, st') ->
  forall p n, lookup (fs st) p = Some n -> lookup (fs st') p = Some n.
Proof.
  intro E. apply copy_from_local_folder_has_effect in E as [es [_ [Fr _]]].
  exact Fr.
Qed.

Lemma copy_from_local_folder_keeps_files_witness :
  lookup (fs (snd rerun)) (py "out/Ann.txt") = Some (File [9%N]).
Proof.
  exact (@copy_from_local_folder_keeps_files docx_platform 5 (py "root") (py "out")
           None None None true (start previous_run) (snd rerun) (fst rerun)
           (surjective_pairing rerun) (py "out/Ann.txt") (File [9%N]) eq_refl).
Defined.

(** X8.  The destinations of the copies a run records are pairwise
    different paths; none of them existed when the run started, all of them
    exist when it ends, and no other path has come to exist.  This holds
    however the run ends: what was copied before an exception stays. *)
Theorem copy_from_local_folder_fresh_destinations `{Platform} (fuel : nat)
    (turned_in_path output : str) (assignment_subfolder prefix suffix : option str)
    (add_to_header : bool) (st st' : state) (r : result (nat * nat)) :
  copy_from_local_folder fuel turned_in_path output assignment_subfolder prefix
    suffix add_to_header st = (r, st') ->
  exists es,
    log st' = log st ++ es /\
    NoDup (destinations es) /\
    (forall d, In d (destinations es) ->
       path_exists (fs st) d = false /\ path_exists (fs st') d = true) /\
    (forall p, path_exists (fs st') p = true ->
       path_exists (fs st) p = true \/ In p (destinations es)).
Proof.
  intro E.
  apply copy_from_local_folder_has_effect in E as [es [L [_ [ND [D [O _]]]]]].
  exists es. auto.
Qed.

Lemma copy_from_local_folder_fresh_destinations_witness :
  log (snd rerun) =
    [Copied (py "root/Ann/essay.DOCX") (py "out/Ann.DOCX");
     HeaderCall (py "out/Ann.DOCX") (py "Ann");
     Copied (py "root/Ann/notes.txt") (py "out/Ann (2).txt")] /\
  exists es,
    log (snd rerun) = log (start previous_run) ++ es /\
    NoDup (destinations es) /\
    (forall d, In d (destinations es) ->
       path_exists (fs (start previous_run)) d = false /\
       path_exists (fs (snd rerun)) d = true) /\
    (forall p, path_exists (fs (snd rerun)) p = true ->
       path_exists (fs (start previous_run)) p = true \/ In p (destinations es)).
Proof.
  split; [vm_compute; reflexivity|].
  exact (@copy_from_local_folder_fresh_destinations docx_platform 5 (py "root")
           (py "out") None None None true (start previous_run) (snd rerun)
           (fst rerun) (surjective_pairing rerun)).
Defined.

(** X9.  When the run ends, the destination of each recorded copy holds
    the bytes its source holds.  The one exception: when stamping was
    requested and python-docx is there, the copy of a file whose name has
    the extension [.docx] in lower case may hold what python-docx made of
    those bytes for a label.  No other file is ever altered. *)
Theorem copy_from_local_folder_bytes `{Platform} (fuel : nat)
    (turned_in_path output : str) (assignment_subfolder prefix suffix : option str)
    (add_to_header : bool) (st st' : state) (r : result (nat * nat)) :
  copy_from_local_folder fuel turned_in_path output assignment_subfolder prefix
    suffix add_to_header st = (r, st') ->
  exists es,
    log st' = log st ++ es /\
    forall src dst, In (Copied src dst) es ->
      exists data,
        lookup (fs st') src = Some (File data) /\
        (lookup (fs st') dst = Some (File data) \/
         add_to_header = true /\ DOCX_AVAILABLE = true /\
         exists d fname label data',
           src = join d fname /\
           lower (snd (splitext fname)) = py ".docx" /\
           docx_set_header data label = Some data' /\
           lookup (fs st') dst = Some (File data')).
Proof.
  intro E.
  apply copy_from_local_folder_has_effect in E as [es [L [_ [_ [_ [_ B]]]]]].
  exists es. auto.
Qed.

Lemma copy_from_local_folder_bytes_witness :
  lookup (fs (snd rerun)) (py "out/Ann (2).txt") = Some (File [8%N]) /\
  lookup (fs (snd rerun)) (py "out/Ann.DOCX") = Some (File (py "Ann" ++ [7%N])) /\
  exists es,
    log (snd rerun) = log (start previous_run) ++ es /\
    forall src dst, In (Copied src dst) es ->
      exists data,
        lookup (fs (snd rerun)) src = Some (File data) /\
        (lookup (fs (snd rerun)) dst = Some (File data) \/
         true = true /\ @DOCX_AVAILABLE docx_platform = true /\
         exists d fname label data',
           src = join d fname /\
           @lower docx_platform (snd (splitext fname)) = py ".docx" /\
           @docx_set_header docx_platform data label = Some data' /\
           lookup (fs (snd rerun)) dst = Some (File data')).
Proof.
  split; [vm_compute; reflexivity|]. split; [vm_compute; reflexivity|].
  exact (@copy_from_local_folder_bytes docx_platform 5 (py "root") (py "out")
           None None None true (start previous_run) (snd rerun) (fst rerun)
           (surjective_pairing rerun)).
Defined.

(** X10.  A run that ends normally returns, as the number of files copied,
    the number of paths it has created. *)
Theorem copy_from_local_folder_copied_created `{Platform} (fuel : nat)
    (turned_in_path output : str) (assignment_subfolder prefix suffix : option str)
    (add_to_header : bool) (st st' : state) (found copied : nat) :
  copy_from_local_folder fuel turned_in_path output assignment_subfolder prefix
    suffix add_to_header st = (Ok (found, copied), st') ->
  exists created,
    NoDup created /\ length created = copied /\
    forall p, In p created <->
      path_exists (fs st) p = false /\ path_exists (fs st') p = true.
Proof.
  intro E.
  destruct (keeps_run _ _ _ _ _ _ _ counted _ _ _ _ counted_refl counted_trans
              (keeps_process_file_counted _ _) E) as [C [_ ->]].
  apply copy_from_local_folder_has_effect in E as [es [L [_ [ND [D [O _]]]]]].
  exists (destinations es). split; [exact ND|]. split.
  - unfold counted, copies in C. cbn [log total_copied] in C.
    rewrite L, destinations_app, length_app in C. lia.
  - intro p. split; [apply D|]. intros [A B].
    destruct (O p B) as [X|X]; [congruence | exact X].
Qed.

Lemma copy_from_local_folder_copied_created_witness :
  exists created,
    NoDup created /\ length created = 2 /\
    forall p, In p created <->
      path_exists (fs (start previous_run)) p = false /\
      path_exists (fs (snd rerun)) p = true.
Proof.
  apply (@copy_from_local_folder_copied_created docx_platform 5 (py "root")
           (py "out") None None None true (start previous_run) (snd rerun) 2 2).
  vm_compute. reflexivity.
Defined.

(** ** Where the copies come from and where they go *)

Lemma strip_prefix_app (pre s : str) : strip_prefix pre (pre ++ s) = Some s.
Proof.
  induction pre as [|x pre IH]; simpl; [reflexivity|]. now rewrite char_eqb_refl.
Qed.

Lemma char_in_In (c : char) (s : str) : char_in c s = true <-> In c s.
Proof.
  unfold char_in. rewrite existsb_exists. split.
  - intros [x [I E]]. apply char_eqb_eq in E. now subst.
  - intro I. exists c. split; [exact I | apply char_eqb_refl].
Qed.

Lemma char_in_not_In (c : char) (s : str) : char_in c s = false <-> ~ In c s.
Proof.
  rewrite <- char_in_In. destruct (char_in c s); split; intro X;
    try reflexivity; try discriminate. exfalso. now apply X.
Qed.

(** The path of a name in a directory is an entry of that directory under
    that name. *)
Lemma child_name_of_join (d nm : str) :
  valid_name nm -> child_name d (join d nm) = Some nm.
Proof.
  intro V. rewrite (join_relative _ _ (valid_name_relative _ V)).
  unfold child_name. cbv zeta. rewrite strip_prefix_app.
  destruct V as [NE NS]. apply char_in_not_In in NS. rewrite NS.
  destruct nm; [congruence | reflexivity].
Qed.

Lemma listing_name (w : world) (d nm : str) :
  valid_name nm -> path_exists w (join d nm) = true ->
  In nm (map name (listing w d)).
Proof.
  intros V E. apply path_exists_In in E. apply in_map_iff in E as [[p n] [P I]].
  cbn [fst] in P. subst p. apply in_map_iff.
  exists (mkEntry nm (join d nm) (node_is_dir n)). split; [reflexivity|].
  unfold listing. apply in_flat_map. exists (join d nm, n). split; [exact I|].
  unfold entry_of. cbn [fst snd]. rewrite (child_name_of_join _ _ V). now left.
Qed.

Lemma skip_leading_dots_split (p : str) (extsep : char) (n : nat) :
  forall i dotIndex a b,
    skip_leading_dots p extsep n i dotIndex = Some (a, b) -> a ++ b = p.
Proof.
  induction n as [|n IH]; intros i dotIndex a b E; simpl in E; [discriminate|].
  destruct (negb _).
  - injection E as <- <-. apply firstn_skipn.
  - exact (IH _ _ _ _ E).
Qed.

(** Root and extension together are the path. *)
Lemma _splitext_split (p : str) (sep : char) (altsep : option char) (extsep : char) :
  fst (_splitext p sep altsep extsep) ++ snd (_splitext p sep altsep extsep) = p.
Proof.
  unfold _splitext. cbv zeta. destruct (_ <? _)%Z; [|apply app_nil_r].
  destruct (skip_leading_dots _ _ _ _ _) as [[a b]|] eqn:E; [|apply app_nil_r].
  exact (skip_leading_dots_split _ _ _ _ _ _ _ E).
Qed.

Lemma splitext_ext_no_slash (fname : str) :
  ~ In SLASH fname -> ~ In SLASH (snd (splitext fname)).
Proof.
  intros NS I. apply NS.
  pose proof (_splitext_split fname SLASH None DOT) as E.
  fold (splitext fname) in E.
  assert (X : In SLASH (fst (splitext fname) ++ snd (splitext fname)))
    by (apply in_or_app; now right).
  now rewrite E in X.
Qed.

Lemma digits_no_slash (d : Decimal.uint) : ~ In SLASH (digits d).
Proof.
  induction d; simpl; [tauto|..]; intros [E|I];
    solve [now vm_compute in E | auto].
Qed.

Lemma kept_no_slash (s : str) : Forall kept s -> ~ In SLASH s.
Proof.
  intros F I. rewrite Forall_forall in F. destruct (F _ I) as [K _].
  vm_compute in K. discriminate.
Qed.

Lemma base_name_of_kept (prefix suffix : option str) (student : DirEntry) :
  Forall kept (base_name_of prefix suffix student).
Proof.
  assert (P : forall x, Forall kept (safe_part x)).
  { intros [s|]; simpl; [|constructor]. destruct (_ && _); [|constructor].
    apply strip_Forall, sanitize_filename_kept. }
  unfold base_name_of, make_base_name.
  pose proof (sanitize_filename_kept (name student)) as S.
  pose proof (P prefix) as Pp. pose proof (P suffix) as Ps.
  assert (K : Forall kept [SPACE]) by (repeat constructor; discriminate).
  destruct (_ && _);
    [|destruct (truthy (safe_part prefix)); [|destruct (truthy (safe_part suffix))]];
    repeat (apply Forall_app; split); assumption.
Qed.

Lemma base_name_of_nonempty (prefix suffix : option str) (student : DirEntry) :
  base_name_of prefix suffix student <> [].
Proof.
  unfold base_name_of, make_base_name.
  pose proof (sanitize_filename_nonempty (name student)) as S.
  destruct (sanitize_filename (name student)) as [|c t]; [contradiction|].
  destruct (safe_part prefix), (safe_part suffix); simpl; discriminate.
Qed.

Lemma output_name_valid (base_name ext : str) (k : N) :
  base_name <> [] -> ~ In SLASH base_name -> ~ In SLASH ext ->
  valid_name (output_name base_name ext k).
Proof.
  intros NE NB NX. unfold output_name, numbered, str_of_int. split.
  - destruct base_name; [contradiction|]. destruct (k <=? 1)%N; discriminate.
  - assert (A : ~ In SLASH (py " (")) by (vm_compute; intuition discriminate).
    assert (B : ~ In SLASH (py ")")) by (vm_compute; intuition discriminate).
    pose proof (digits_no_slash (N.to_uint k)) as D.
    destruct (k <=? 1)%N; rewrite !in_app_iff; tauto.
Qed.

Lemma candidate_path_output_name (base_name ext folder : str) (k : N) :
  candidate_path base_name ext folder k = join folder (output_name base_name ext k).
Proof. unfold candidate_path, output_name. now destruct (k <=? 1)%N. Qed.

Lemma records_same (P : event -> Prop) (st st' : state) :
  log st' = log st -> records P st st'.
Proof. intro L. exists []. split; [now rewrite L, app_nil_r | constructor]. Qed.

(** A path below a directory, or the directory itself, joined with a
    relative name, is below the directory. *)
Lemma below_join (root d nm : str) :
  d = root \/ inside root d -> startswith SLASH nm = false ->
  inside root (join d nm).
Proof.
  intros [->|I] R; [now apply inside_child | now apply inside_join].
Qed.

(** The record of a run, however it ends, is made of the copies of the
    files that the walks for the student folders find. *)
Lemma copy_from_local_folder_records `{Platform} (Q : DirEntry -> str -> Prop)
    (fuel : nat) (turned_in_path output : str)
    (assignment_subfolder prefix suffix : option str) (add_to_header : bool)
    (st st' : state) (r : result (nat * nat)) :
  (forall entry d nm, Q entry d -> valid_name nm -> Q entry (join d nm)) ->
  (forall entry, In entry (listing (fs st) turned_in_path) ->
     is_dir entry = true ->
     Q entry (path entry) /\
     forall sub, assignment_subfolder = Some sub -> truthy sub = true ->
       Q entry (join (path entry) sub)) ->
  copy_from_local_folder fuel turned_in_path output assignment_subfolder prefix
    suffix add_to_header st = (r, st') ->
  records (student_copy (fs st) turned_in_path output prefix suffix Q) st st'.
Proof.
  intros Qj Qe.
  apply (always_run
           (records (student_copy (fs st) turned_in_path output prefix suffix Q)) Q).
  - apply records_refl.
  - apply records_trans.
  - intros s f c. now apply records_same.
  - exact Qj.
  - exact Qe.
  - intros entry d fname I D Qd V s r0 s' E. apply process_file_cases in E.
    destruct E as [[_ [L _]] | [k [data [data' [[K1 _] [_ [_ [L _]]]]]]]].
    + now apply records_same.
    + eexists. split; [exact L|]. constructor.
      * exists entry, d, fname, k. rewrite candidate_path_output_name.
        repeat split; auto; apply V.
      * destruct (add_to_header && _); repeat constructor.
Qed.

(** X11.  The output is flat: the destination of every copy a run records
    is the path of a name without a slash in the output folder, and an entry
    of that folder under that name when the run ends, at whatever depth
    below the student folder the source was found. *)
Theorem copy_from_local_folder_flat_output `{Platform} (fuel : nat)
    (turned_in_path output : str) (assignment_subfolder prefix suffix : option str)
    (add_to_header : bool) (st st' : state) (r : result (nat * nat)) :
  copy_from_local_folder fuel turned_in_path output assignment_subfolder prefix
    suffix add_to_header st = (r, st') ->
  exists es,
    log st' = log st ++ es /\
    forall src dst, In (Copied src dst) es ->
      exists nm,
        valid_name nm /\ dst = join output nm /\
        In nm (map name (listing (fs st') output)).
Proof.
  intro E.
  pose proof (copy_from_local_folder_has_effect _ _ _ _ _ _ _ _ _ _ E)
    as [es' [L' [_ [_ [D _]]]]].
  apply (copy_from_local_folder_records (fun _ _ => True)) in E as [es [L F]];
    [|intros; exact I | intros; split; intros; exact I].
  assert (es' = es) by (rewrite L in L'; now apply app_inv_head in L').
  subst es'. exists es. split; [exact L|]. intros src dst I.
  rewrite Forall_forall in F.
  destruct (F _ I) as [student [d [fname [k [_ [_ [_ [[_ NS] [_ [_ ->]]]]]]]]]].
  eexists. split; [|split; [reflexivity|]].
  - apply output_name_valid.
    + apply base_name_of_nonempty.
    + apply kept_no_slash, base_name_of_kept.
    + now apply splitext_ext_no_slash.
  - apply listing_name.
    + apply output_name_valid.
      * apply base_name_of_nonempty.
      * apply kept_no_slash, base_name_of_kept.
      * now apply splitext_ext_no_slash.
    + apply D. apply in_destinations. eauto.
Qed.

Lemma copy_from_local_folder_flat_output_witness :
  map name (listing (fs (snd rerun)) (py "out")) =
    [py "Ann (2).txt"; py "Ann.DOCX"; py "Ann.txt"] /\
  exists es,
    log (snd rerun) = log (start previous_run) ++ es /\
    forall src dst, In (Copied src dst) es ->
      exists nm,
        valid_name nm /\ dst = join (py "out") nm /\
        In nm (map name (listing (fs (snd rerun)) (py "out"))).
Proof.
  split; [vm_compute; reflexivity|].
  exact (@copy_from_local_folder_flat_output docx_platform 5 (py "root")
           (py "out") None None None true (start previous_run) (snd rerun)
           (fst rerun) (surjective_pairing rerun)).
Defined.

(** ** Every run ends *)

Lemma visits_pos (n depth : nat) : 1 <= visits n depth.
Proof. destruct depth; simpl; lia. Qed.

Lemma visits_mono (n a b : nat) : a <= b -> visits n a <= visits n b.
Proof.
  revert a; induction b as [|b IH]; intros [|a] L; try lia.
  - apply visits_pos.
  - pose proof (IH a ltac:(lia)). simpl. nia.
Qed.

Lemma list_sum_bound {A : Type} (f : A -> nat) (b : nat) (l : list A) :
  (forall x, In x l -> f x <= b) -> list_sum (map f l) <= length l * b.
Proof.
  induction l as [|a l IH]; simpl; intro Hf; [lia|].
  pose proof (Hf a (or_introl eq_refl)).
  pose proof (IH (fun x I => Hf x (or_intror I))). lia.
Qed.

Lemma listing_length (w : world) (d : str) : length (listing w d) <= length w.
Proof.
  unfold listing. induction w as [|b w IH]; simpl; [lia|].
  rewrite length_app. unfold entry_of at 1.
  destruct (child_name d (fst b)); simpl; lia.
Qed.

Lemma subdirs_length (w : world) (d : str) : length (subdirs w d) <= length w.
Proof.
  unfold subdirs. rewrite length_map.
  pose proof (filter_length_le is_dir (listing w d)).
  pose proof (listing_length w d). lia.
Qed.

(** A subdirectory is a path of the filesystem, longer than that of its
    directory. *)
Lemma subdirs_child (w : world) (d nm : str) :
  In nm (subdirs w d) ->
  In (join d nm) (map fst w) /\ length d < length (join d nm).
Proof.
  unfold subdirs. intro I. apply in_map_iff in I as [e [<- I]].
  apply filter_In in I as [I _].
  pose proof (listing_entry _ _ _ I) as [V _]. split.
  - unfold listing in I. apply in_flat_map in I as [[p n] [Ib Ie]].
    unfold entry_of in Ie. cbn [fst snd] in Ie.
    destruct (child_name d p) as [nm|] eqn:C; [|contradiction].
    destruct Ie as [<-|[]]. cbn [name]. rewrite (child_name_join _ _ _ C).
    apply in_map_iff. exists (p, n). auto.
  - rewrite (join_relative _ _ (valid_name_relative _ V)).
    destruct V as [NE _]. destruct (name e) as [|c t]; [contradiction|].
    destruct (is_empty d || endswith SLASH d); rewrite !length_app; simpl; lia.
Qed.

Lemma longest_key (w : world) (p : str) : In p (map fst w) -> length p <= longest w.
Proof.
  unfold longest. intro I. apply in_map_iff in I as [b [<- I]].
  pose proof (proj1 (list_max_le (map (fun b => length (fst b)) w) _) (le_n _)) as F.
  rewrite Forall_forall in F. apply F.
  exact (in_map (fun b => length (fst b)) w b I).
Qed.

(** The walks from the subdirectories of [d], and the visit of [d], are
    within the bound for [d]. *)
Lemma children_cost (w : world) (d : str) :
  list_sum (map (cost w) (map (join d) (subdirs w d))) + 1 <= cost w d.
Proof.
  unfold cost. destruct (longest w - length d) as [|m] eqn:M.
  - destruct (subdirs w d) as [|nm l] eqn:S; [simpl; lia|].
    exfalso. destruct (subdirs_child w d nm) as [K Lt]; [rewrite S; now left|].
    apply longest_key in K. lia.
  - rewrite map_map.
    assert (X : forall nm, In nm (subdirs w d) ->
              visits (length w) (longest w - length (join d nm))
              <= visits (length w) m).
    { intros nm I. apply visits_mono.
      destruct (subdirs_child w d nm I) as [K Lt]. apply longest_key in K. lia. }
    apply list_sum_bound in X. pose proof (subdirs_length w d). simpl. nia.
Qed.

Lemma filter_all {A : Type} (f : A -> bool) (l : list A) :
  (forall x, In x l -> f x = true) -> filter f l = l.
Proof.
  induction l as [|a l IH]; simpl; intro Hf; [reflexivity|].
  rewrite (Hf a (or_introl eq_refl)). f_equal. apply IH. intros; apply Hf; now right.
Qed.

Lemma write_fresh (w : world) (p : str) (data : list N) :
  path_exists w p = false -> write w p data = (p, File data) :: w.
Proof.
  intro F. unfold write. f_equal. apply filter_all. intros [q n] I. cbn [fst].
  apply negb_true_iff. apply str_eqb_neq. intros ->.
  assert (path_exists w p = true); [|congruence].
  apply path_exists_In. apply in_map_iff. exists (p, n). auto.
Qed.

(** A new file is no directory. *)
Lemma subdirs_write (w : world) (p : str) (data : list N) (d : str) :
  path_exists w p = false -> subdirs (write w p data) d = subdirs w d.
Proof.
  intro F. rewrite (write_fresh _ _ _ F). unfold subdirs, listing.
  cbn [flat_map]. rewrite filter_app. unfold entry_of at 1. cbn [fst snd].
  destruct (child_name d p); reflexivity.
Qed.

Lemma finishes_ret {A : Type} (I : state -> Prop) (a : A) : finishes I (ret a).
Proof. intros st r st' Inv E. injection E as <- <-. split; [exact Inv | discriminate]. Qed.

Lemma finishes_bind {A B : Type} (I : state -> Prop) (m : M A) (k : A -> M B) :
  finishes I m -> (forall a, finishes I (k a)) -> finishes I (bind m k).
Proof.
  intros Hm Hk st r st' Inv E. unfold bind in E.
  destruct (m st) as [[a|e|] s1] eqn:E1; destruct (Hm _ _ _ Inv E1) as [I1 N1].
  - exact (Hk a _ _ _ I1 E).
  - injection E as <- <-. split; [exact I1 | discriminate].
  - exfalso. now apply N1.
Qed.

Lemma finishes_for_each {A : Type} (I : state -> Prop) (l : list A)
    (body : A -> M unit) :
  (forall x, finishes I (body x)) -> finishes I (for_each l body).
Proof.
  intro Hb. induction l as [|x l IH]; [apply finishes_ret|].
  apply finishes_bind; auto.
Qed.

(** A walk with fuel for the directories on its stack ends, when its body
    ends and creates no directory. *)
Lemma walk_finishes (w : world) (body : str -> list str -> M unit) :
  (forall d files, finishes (same_subdirs w) (body d files)) ->
  forall fuel stack st r st',
    same_subdirs w st -> list_sum (map (cost w) stack) <= fuel ->
    walk fuel stack body st = (r, st') ->
    same_subdirs w st' /\ r <> OutOfFuel.
Proof.
  intro Hb. induction fuel as [|fuel IH]; intros [|top stack] st r st' Inv Le E.
  - injection E as <- <-. split; [exact Inv | discriminate].
  - exfalso.
    change (list_sum (map (cost w) (top :: stack)))
      with (cost w top + list_sum (map (cost w) stack)) in Le.
    pose proof (visits_pos (length w) (longest w - length top)).
    unfold cost in Le. lia.
  - injection E as <- <-. split; [exact Inv | discriminate].
  - change (list_sum (map (cost w) (top :: stack)))
      with (cost w top + list_sum (map (cost w) stack)) in Le.
    assert (P : 1 <= cost w top) by apply visits_pos.
    cbn [walk] in E. destruct (scandir (fs st) top) as [entries|e|] eqn:Sc.
    + assert (En : entries = listing (fs st) top).
      { unfold scandir in Sc. destruct (lookup (fs st) top) as [[|[]]|];
          try discriminate. now injection Sc. }
      subst entries. unfold bind in E.
      destruct (body top _ st) as [[[]|e|] s1] eqn:B;
        destruct (Hb _ _ _ _ _ Inv B) as [Inv1 N1].
      * apply (IH _ _ _ _ Inv1) in E; [exact E|].
        change (map name (filter is_dir (listing (fs st) top)))
          with (subdirs (fs st) top).
        rewrite (Inv top), map_app, list_sum_app.
        pose proof (children_cost w top). lia.
      * injection E as <- <-. split; [exact Inv1 | discriminate].
      * exfalso. now apply N1.
    + apply (IH _ _ _ _ Inv) in E; [exact E | lia].
    + apply (IH _ _ _ _ Inv) in E; [exact E | lia].
Qed.

Section Ends.

Context `{Platform}.

Variables (w : world) (fuel : nat) (output : str)
  (assignment_subfolder prefix suffix : option str) (add_to_header : bool).

Lemma process_file_finishes (base_name d fname : str) :
  finishes (same_subdirs w) (process_file add_to_header base_name output d fname).
Proof.
  intros st r st' Inv E. apply process_file_cases in E.
  destruct E as [[F [_ [e ->]]] | [k [data [data' [[_ [Fk _]] [_ [F [_ [_ ->]]]]]]]]].
  - split; [|discriminate]. intro x. rewrite F. apply Inv.
  - split; [|discriminate]. intro x. rewrite F, (subdirs_write _ _ _ _ Fk).
    apply Inv.
Qed.

Lemma process_student_finishes (entry : DirEntry) :
  enough_fuel w <= fuel ->
  finishes (same_subdirs w)
    (process_student fuel output assignment_subfolder prefix suffix
       add_to_header entry).
Proof.
  intro Le.
  assert (W : forall base_name root,
             finishes (same_subdirs w)
               (walk_roots fuel add_to_header base_name output [root])).
  { intros base_name root. unfold walk_roots. apply finishes_for_each.
    intros x st r st' Inv E.
    apply (walk_finishes w _
             (fun d files =>
                finishes_for_each _ files _
                  (process_file_finishes base_name d))
             fuel [x] st r st' Inv); [|exact E].
    change (list_sum (map (cost w) [x])) with (cost w x + 0).
    pose proof (visits_mono (length w) (longest w - length x) (longest w)
                  ltac:(lia)).
    unfold cost, enough_fuel in *. lia. }
  unfold process_student. destruct (negb (is_dir entry)); [apply finishes_ret|].
  cbv zeta. destruct assignment_subfolder as [sub|]; [|apply W].
  destruct (truthy sub); [|apply W].
  intros st r st' Inv E. destruct (path_isdir (fs st) (join (path entry) sub)).
  - exact (W _ _ _ _ _ Inv E).
  - injection E as <- <-. split; [exact Inv | discriminate].
Qed.

End Ends.

(** With enough fuel for the filesystem it starts in, a run ends. *)
Lemma copy_from_local_folder_finishes `{Platform} (fuel : nat)
    (turned_in_path output : str) (assignment_subfolder prefix suffix : option str)
    (add_to_header : bool) (st st' : state) (r : result (nat * nat)) :
  enough_fuel (fs st) <= fuel ->
  copy_from_local_folder fuel turned_in_path output assignment_subfolder prefix
    suffix add_to_header st = (r, st') ->
  r <> OutOfFuel.
Proof.
  intros Le E. unfold copy_from_local_folder in E.
  destruct (negb (path_isdir (fs st) turned_in_path)).
  { injection E as <- _. discriminate. }
  assert (Inv0 : same_subdirs (fs st) (mkState (fs st) (log st) 0 0))
    by (intro d; reflexivity).
  revert E. generalize (mkState (fs st) (log st) 0 0) r st' Inv0.
  assert (F : finishes (same_subdirs (fs st))
    (bind (reading (fun w => scandir w turned_in_path))
       (fun entries =>
          bind (for_each entries
                  (process_student fuel output assignment_subfolder prefix suffix
                     add_to_header))
               (fun _ => fun st' => (Ok (total_found st', total_copied st'), st'))))).
  { apply finishes_bind.
    - intros s r0 s' Inv E0. unfold reading in E0. injection E0 as <- <-.
      split; [exact Inv|]. unfold scandir.
      destruct (lookup (fs s) turned_in_path) as [[|[]]|]; discriminate.
    - intro entries. apply finishes_bind.
      + apply finishes_for_each. intro entry. now apply process_student_finishes.
      + intros _ s r0 s' Inv E0. injection E0 as <- <-.
        split; [exact Inv | discriminate]. }
  intros s r0 s' Inv E. exact (proj2 (F _ _ _ Inv E)).
Qed.

(** X13.  Every run ends.  A walk visits each directory once, and the run
    creates files only, also when the output folder lies inside the root: so
    for every filesystem and all arguments the run has one outcome, a return
    or an exception, which it reaches with any fuel from some bound on. *)
Theorem copy_from_local_folder_terminates `{Platform}
    (turned_in_path output : str) (assignment_subfolder prefix suffix : option str)
    (add_to_header : bool) (st : state) :
  exists n r st',
    r <> OutOfFuel /\
    forall fuel, n <= fuel ->
      copy_from_local_folder fuel turned_in_path output assignment_subfolder
        prefix suffix add_to_header st = (r, st').
Proof.
  exists (enough_fuel (fs st)).
  destruct (copy_from_local_folder (enough_fuel (fs st)) turned_in_path output
              assignment_subfolder prefix suffix add_to_header st)
    as [r st'] eqn:E.
  assert (NF : r <> OutOfFuel)
    by (eapply copy_from_local_folder_finishes; [apply le_n | exact E]).
  exists r, st'. split; [exact NF|]. intros fuel Le.
  now apply (copy_from_local_folder_more_fuel (enough_fuel (fs st)) fuel).
Qed.

(** ** Assignment discovery *)

Lemma lookup_Some_In (w : world) (p : str) (n : node) :
  lookup w p = Some n -> In (p, n) w.
Proof.
  induction w as [|[q m] w IH]; simpl; [discriminate|].
  destruct (str_eqb q p) eqn:Q; [|auto].
  apply str_eqb_eq in Q. intro E. injection E as ->. subst. now left.
Qed.

(** In a filesystem where every path is bound once, a path names what it
    is bound to. *)
Lemma lookup_In (w : world) (p : str) (n : node) :
  NoDup (map fst w) -> In (p, n) w -> lookup w p = Some n.
Proof.
  induction w as [|[q m] w IH]; simpl; intros ND I; [contradiction|].
  inversion ND as [|? ? NI ND']; subst. destruct I as [E|I].
  - injection E as -> ->. now rewrite str_eqb_refl.
  - destruct (str_eqb q p) eqn:Q; [|auto].
    apply str_eqb_eq in Q. subst q. exfalso. apply NI.
    apply in_map_iff. exists (p, n). auto.
Qed.

Lemma lookup_Permutation (w w' : world) (p : str) :
  NoDup (map fst w) -> Permutation w w' -> lookup w' p = lookup w p.
Proof.
  intros ND P.
  assert (ND' : NoDup (map fst w'))
    by (eapply Permutation_NoDup; [apply Permutation_map; exact P | exact ND]).
  destruct (lookup w p) as [n|] eqn:E.
  - apply lookup_Some_In in E. apply (Permutation_in _ P) in E.
    now apply lookup_In.
  - apply lookup_None. apply lookup_None in E. intro I. apply E.
    apply (Permutation_in _ (Permutation_sym (Permutation_map fst P))). exact I.
Qed.

Lemma listing_Permutation (w w' : world) (d : str) (e : DirEntry) :
  Permutation w w' -> In e (listing w d) -> In e (listing w' d).
Proof.
  intros P I. unfold listing in *. apply in_flat_map in I as [b [Ib Ie]].
  apply in_flat_map. exists b. split; [exact (Permutation_in _ P Ib) | exact Ie].
Qed.

(** An entry listed as a directory is a directory, when every path is
    bound once. *)
Lemma listing_dir (w : world) (d : str) (e : DirEntry) :
  NoDup (map fst w) -> In e (listing w d) -> is_dir e = true ->
  exists readable, lookup w (path e) = Some (Dir readable).
Proof.
  intros ND I D. unfold listing in I. apply in_flat_map in I as [[p n] [Ib Ie]].
  unfold entry_of in Ie. cbn [fst snd] in Ie.
  destruct (child_name d p) as [nm|] eqn:C; [|contradiction].
  destruct Ie as [<-|[]]. cbn [path is_dir] in *.
  rewrite (child_name_join _ _ _ C).
  destruct n as [data|readable]; [discriminate|].
  exists readable. now apply lookup_In.
Qed.

Lemma scandir_dir (w : world) (p : str) (readable : bool) :
  lookup w p = Some (Dir readable) ->
  scandir w p = Raise PermissionError \/ scandir w p = Ok (listing w p).
Proof. intro L. unfold scandir. rewrite L. destruct readable; auto. Qed.

(** What discovery returns, by what the root is. *)
Lemma collect_assignment_subfolders_cases (w : world) (turned_in_path : str) :
  NoDup (map fst w) ->
  match lookup w turned_in_path with
  | Some (Dir true) =>
      exists names,
        scan_students w (listing w turned_in_path) [] = Ok names /\
        collect_assignment_subfolders w turned_in_path = Ok (sorted names)
  | Some (Dir false) =>
      collect_assignment_subfolders w turned_in_path = Raise PermissionError
  | _ => collect_assignment_subfolders w turned_in_path = Ok []
  end.
Proof.
  intro ND. unfold collect_assignment_subfolders, path_isdir, scandir.
  destruct (lookup w turned_in_path) as [[data|[|]]|]; cbn [negb]; try reflexivity.
  destruct (scan_students_returns w (listing w turned_in_path)) with (names := @nil str)
    as [names E].
  - intros student I D. destruct (listing_dir _ _ _ ND I D) as [readable L].
    destruct (scandir_dir _ _ _ L); eauto.
  - exists names. now rewrite E.
Qed.

Lemma assignment_of_Permutation (w w' : world) (d n : str) :
  NoDup (map fst w) -> Permutation w w' ->
  assignment_of w (listing w d) n -> assignment_of w' (listing w' d) n.
Proof.
  intros ND P [student [subs [sub [I [D [Sc [Is [Ds Ns]]]]]]]].
  assert (E : subs = listing w (path student)).
  { unfold scandir in Sc. destruct (lookup w (path student)) as [[|[]]|];
      try discriminate. now injection Sc. }
  subst subs.
  exists student, (listing w' (path student)), sub.
  split; [now apply (listing_Permutation w w')|]. split; [exact D|].
  split; [|split; [now apply (listing_Permutation w w') | auto]].
  unfold scandir in *. rewrite (lookup_Permutation w w' _ ND P).
  destruct (lookup w (path student)) as [[|[]]|]; try discriminate. reflexivity.
Qed.

(** A sorted list without repeats is determined by its members. *)
Lemma sorted_unique (l l' : list str) :
  StronglySorted (fun a b => str_leb a b = true) l ->
  StronglySorted (fun a b => str_leb a b = true) l' ->
  NoDup l -> NoDup l' -> (forall x, In x l <-> In x l') -> l = l'.
Proof.
  revert l'. induction l as [|x l IH]; intros [|y l'] S S' ND ND' M.
  - reflexivity.
  - exfalso. apply (M y). now left.
  - exfalso. apply (M x). now left.
  - inversion S as [|? ? Sl Fx]; subst. inversion S' as [|? ? Sl' Fy]; subst.
    inversion ND as [|? ? NIx NDl]; subst. inversion ND' as [|? ? NIy NDl']; subst.
    rewrite Forall_forall in Fx, Fy.
    assert (E : x = y).
    { destruct (proj1 (M x) (or_introl eq_refl)) as [E|Ix]; [now symmetry|].
      destruct (proj2 (M y) (or_introl eq_refl)) as [E|Iy]; [exact E|].
      apply str_leb_antisym; auto. }
    subst y. f_equal. apply IH; auto. intro z. split; intro Iz.
    + destruct (proj1 (M z) (or_intror Iz)) as [E|I']; [|exact I'].
      subst z. contradiction.
    + destruct (proj2 (M z) (or_intror Iz)) as [E|I']; [|exact I'].
      subst z. contradiction.
Qed.

(** X14.  What discovery offers can be selected: in a filesystem where
    every path is bound once, each name that discovery returns is a non-empty
    selector for which the collector finds the assignment folder, by its
    test [os.path.isdir(os.path.join(student_dir, assignment_subfolder))],
    in the folder of at least one student. *)
Theorem collect_assignment_subfolders_selectable (w : world)
    (turned_in_path : str) (names : list str) (n : str) :
  NoDup (map fst w) ->
  collect_assignment_subfolders w turned_in_path = Ok names ->
  In n names ->
  truthy n = true /\
  exists student,
    In student (listing w turned_in_path) /\ is_dir student = true /\
    path_isdir w (join (path student) n) = true.
Proof.
  intros ND E I.
  pose proof (collect_assignment_subfolders_cases w turned_in_path ND) as C.
  destruct (lookup w turned_in_path) as [[data|[|]]|];
    try (rewrite C in E; injection E as <-; contradiction);
    try (rewrite C in E; discriminate).
  destruct C as [ns [Sc C]]. rewrite C in E. injection E as <-.
  rewrite sorted_In in I. apply scan_students_Ok in Sc as [_ M].
  apply M in I as [[]|[student [subs [sub [Is [D [Sd [Isub [Dsub <-]]]]]]]]].
  assert (Es : subs = listing w (path student)).
  { unfold scandir in Sd. destruct (lookup w (path student)) as [[|[]]|];
      try discriminate. now injection Sd. }
  subst subs.
  destruct (listing_entry _ _ _ Isub) as [[NE _] P].
  destruct (listing_dir _ _ _ ND Isub Dsub) as [readable L].
  split.
  - destruct (name sub); [contradiction | reflexivity].
  - exists student. repeat split; auto. unfold path_isdir. now rewrite <- P, L.
Qed.

Lemma collect_assignment_subfolders_selectable_witness :
  collect_assignment_subfolders three_students (py "root")
    = Ok [py "Essay"; py "Quiz"] /\
  truthy (py "Quiz") = true /\
  exists student,
    In student (listing three_students (py "root")) /\ is_dir student = true /\
    path_isdir three_students (join (path student) (py "Quiz")) = true.
Proof.
  split; [vm_compute; reflexivity|].
  apply (collect_assignment_subfolders_selectable three_students (py "root")
           [py "Essay"; py "Quiz"] (py "Quiz")).
  - vm_compute. repeat (constructor; [simpl; intuition discriminate|]). constructor.
  - vm_compute. reflexivity.
  - simpl. auto.
Defined.

(** X15.  Discovery does not depend on the order in which the filesystem
    lists its entries: for a filesystem where every path is bound once, its
    outcome (the list, or the exception) is the same for every ordering of
    the bindings. *)
Theorem collect_assignment_subfolders_order (w w' : world) (turned_in_path : str) :
  NoDup (map fst w) -> Permutation w w' ->
  collect_assignment_subfolders w' turned_in_path
  = collect_assignment_subfolders w turned_in_path.
Proof.
  intros ND P.
  assert (ND' : NoDup (map fst w'))
    by (eapply Permutation_NoDup; [apply Permutation_map; exact P | exact ND]).
  pose proof (collect_assignment_subfolders_cases w turned_in_path ND) as C.
  pose proof (collect_assignment_subfolders_cases w' turned_in_path ND') as C'.
  rewrite (lookup_Permutation w w' _ ND P) in C'.
  destruct (lookup w turned_in_path) as [[data|[|]]|]; try congruence.
  destruct C as [ns [Sc ->]]. destruct C' as [ns' [Sc' ->]]. f_equal.
  apply scan_students_Ok in Sc as [N M]. apply scan_students_Ok in Sc' as [N' M'].
  apply sorted_unique.
  - apply sorted_sorted.
  - apply sorted_sorted.
  - apply sorted_NoDup, N'. constructor.
  - apply sorted_NoDup, N. constructor.
  - intro x. rewrite !sorted_In, M, M'. simpl. split; intros [[]|A]; right.
    + apply (assignment_of_Permutation w' w); auto. now apply Permutation_sym.
    + now apply (assignment_of_Permutation w w').
Qed.

Lemma collect_assignment_subfolders_order_witness :
  collect_assignment_subfolders (rev three_students) (py "root")
  = collect_assignment_subfolders three_students (py "root").
Proof.
  apply (collect_assignment_subfolders_order three_students (rev three_students)).
  - vm_compute. repeat (constructor; [simpl; intuition discriminate|]). constructor.
  - apply Permutation_rev.
Defined.

(** X16.  The one exception discovery can raise is the permission error of
    listing the root itself: in a filesystem where every path is bound once,
    discovery raises [PermissionError] when the root is a directory that
    cannot be listed, and returns a list in every other case. *)
Theorem collect_assignment_subfolders_outcome (w : world) (turned_in_path : str) :
  NoDup (map fst w) ->
  (lookup w turned_in_path = Some (Dir false) ->
   collect_assignment_subfolders w turned_in_path = Raise PermissionError) /\
  (lookup w turned_in_path <> Some (Dir false) ->
   exists names, collect_assignment_subfolders w turned_in_path = Ok names).
Proof.
  intro ND.
  pose proof (collect_assignment_subfolders_cases w turned_in_path ND) as C.
  destruct (lookup w turned_in_path) as [[data|[|]]|]; split; intro X;
    try discriminate; try congruence; eauto.
  destruct C as [ns [_ C]]. eauto.
Qed.

Lemma collect_assignment_subfolders_outcome_witness :
  collect_assignment_subfolders three_students (py "root/Cy")
    = Raise PermissionError /\
  exists names, collect_assignment_subfolders three_students (py "root") = Ok names.
Proof.
  assert (ND : NoDup (map fst three_students)).
  { vm_compute. repeat (constructor; [simpl; intuition discriminate|]). constructor. }
  split.
  - apply (proj1 (collect_assignment_subfolders_outcome three_students
                    (py "root/Cy") ND)).
    reflexivity.
  - apply (proj2 (collect_assignment_subfolders_outcome three_students
                    (py "root") ND)).
    discriminate.
Defined.

(** ** The exceptions of a run *)








Lemma absent_error_cases (nm : str) :
  absent_error nm = OSError \/ absent_error nm = FileNotFoundError.
Proof. unfold absent_error. destruct (_ <? _)%N; auto. Qed.

Lemma missing_error_cases (w : world) (n : nat) :
  forall p,
    missing_error w n p = OSError \/ missing_error w n p = FileNotFoundError \/
    missing_error w n p = NotADirectoryError.
Proof.
  induction n as [|n IH]; intro p; cbn [missing_error].
  - destruct (absent_error_cases (basename p)) as [-> | ->]; auto.
  - cbv zeta. destruct (is_empty (dirname p) || str_eqb (dirname p) p).
    + destruct (absent_error_cases (basename p)) as [-> | ->]; auto.
    + destruct (lookup w (dirname p)) as [[data|r]|]; [auto| |apply IH].
      destruct (absent_error_cases (basename p)) as [-> | ->]; auto.
Qed.

(** What creating a file can raise. *)
Lemma create_error_cases (w : world) (dst : str) (e : exn) :
  create_error w dst = Some e ->
  e = OSError \/ e = FileNotFoundError \/ e = NotADirectoryError.
Proof.
  unfold create_error. cbv zeta.
  destruct (is_empty dst); [intro E; injection E as <-; auto|].
  destruct (PATH_MAX <=? fsencode_length dst)%N; [intro E; injection E as <-; auto|].
  assert (T : forall b : bool,
             (if b then Some OSError else None) = Some e -> e = OSError).
  { intros [|] E; [now injection E | discriminate]. }
  destruct (is_empty (dirname dst)); [intro E; left; exact (T _ E)|].
  destruct (lookup w (dirname dst)) as [[data|r]|].
  - intro E. injection E as <-. auto.
  - intro E. left. exact (T _ E).
  - intro E. injection E as <-. apply missing_error_cases.
Qed.

Lemma conversion_error_cases (p : str) (e : exn) :
  conversion_error p = Some e -> e = UnicodeEncodeError \/ e = NullByteError.
Proof.
  unfold conversion_error. destruct (negb _); [intro E; injection E as <-; auto|].
  destruct (char_in _ p); [intro E; injection E as <-; auto | discriminate].
Qed.





(** No copy raises [RuntimeError]. *)
Lemma copy2_no_RuntimeError (src dst : str) (st st' : state) (e : exn) :
  copy2 src dst st = (Raise e, st') -> forall msg, e <> RuntimeError msg.
Proof.
  unfold copy2. cbv zeta. intros E msg ->.
  destruct (conversion_error dst) as [x|] eqn:C.
  { injection E as -> _. now destruct (conversion_error_cases _ _ C). }
  destruct (lookup (fs st) src) as [[data|r]|]; try discriminate.
  destruct (str_eqb src _); [discriminate|].
  destruct (path_isdir (fs st) _); [discriminate|].
  destruct (path_exists (fs st) _); [discriminate|].
  destruct (create_error (fs st) _) as [x|] eqn:C'; [|discriminate].
  injection E as -> _.
  destruct (create_error_cases _ _ _ C') as [X | [X | X]]; discriminate.
Qed.

Section Steps.

Context `{Platform}.

Variables (output : str) (add_to_header : bool).



(** The step for a file does not raise [RuntimeError]. *)
Lemma process_file_no_RuntimeError (base_name d fname : str) (st st' : state)
    (e : exn) :
  process_file add_to_header base_name output d fname st = (Raise e, st') ->
  forall msg, e <> RuntimeError msg.
Proof.
  intro E. unfold process_file in E.
  unfold bind at 1 in E. cbn [incr_found] in E.
  unfold bind at 1 in E. cbn [fs] in E.
  destruct (choose_unique_filename_first_free base_name (snd (splitext fname))
              output (fs st)) as [k [K1 [C [F B]]]].
  rewrite C in E. unfold bind at 1 in E.
  destruct (copy2 _ _ _) as [[[]|e2|] st2] eqn:E2.
  - unfold bind at 1 in E.
    destruct (add_to_header && str_eqb (lower (snd (splitext fname))) (py ".docx")).
    + unfold bind at 1 in E.
      destruct (add_filename_to_docx_header_outcome
                  (candidate_path base_name (snd (splitext fname)) output k)
                  base_name st2) as [b [st4 [E' _]]].
      rewrite E' in E. discriminate.
    + discriminate.
  - injection E as <- _. exact (copy2_no_RuntimeError _ _ _ _ _ E2).
  - discriminate.
Qed.

(** What holds of the states of a run ([I]), what is known of a file
    name that a listing has given ([K]), and the exceptions the step for such
    a file may raise ([P]). *)
Variable I : state -> Prop.
Variable K : state -> str -> str -> Prop.
Variable P : exn -> Prop.
Hypothesis I_fs : forall st st', fs st' = fs st -> I st -> I st'.
Hypothesis I_files : forall st d e,
  I st -> In e (listing (fs st) d) -> is_dir e = false -> K st d (name e).
Hypothesis step : forall base_name d fname st r st',
  I st -> base_name <> [] -> ~ In SLASH base_name ->
  valid_name fname -> K st d fname ->
  process_file add_to_header base_name output d fname st = (r, st') ->
  I st' /\
  (forall d' f', K st d' f' -> K st' d' f') /\
  forall e, r = Raise e -> P e.

(** The files of one directory. *)
Lemma files_raise (base_name d : str) :
  base_name <> [] -> ~ In SLASH base_name ->
  forall files st r st',
    I st -> Forall (fun f => valid_name f /\ K st d f) files ->
    for_each files (process_file add_to_header base_name output d) st = (r, st') ->
    I st' /\ forall e, r = Raise e -> P e.
Proof.
  intros NE NS. induction files as [|fname files IH]; intros st r st' Is Fa E.
  - injection E as <- <-. split; [exact Is | discriminate].
  - inversion Fa as [|? ? F1 Fr]; subst.
    cbn [for_each] in E. unfold bind in E.
    destruct (process_file add_to_header base_name output d fname st)
      as [r1 s1] eqn:E1.
    destruct (step _ _ _ _ _ _ Is NE NS (proj1 F1) (proj2 F1) E1) as [I1 [Fr1 P1]].
    destruct r1 as [[]|e1|].
    + apply (IH _ _ _ I1) in E; [exact E|].
      eapply Forall_impl; [|exact Fr]. intros f [V Kf].
      split; [exact V | now apply Fr1].
    + injection E as <- <-. split; [exact I1|]. intros e0 X.
      injection X as <-. now apply P1.
    + injection E as <- <-. split; [exact I1 | discriminate].
Qed.

Lemma walk_raises (base_name : str) :
  base_name <> [] -> ~ In SLASH base_name ->
  forall fuel stack st r st',
    I st ->
    walk fuel stack
      (fun d files => for_each files (process_file add_to_header base_name output d))
      st = (r, st') ->
    I st' /\ forall e, r = Raise e -> P e.
Proof.
  intros NE NS. induction fuel as [|fuel IH]; intros [|top stack] st r st' Is E;
    try (injection E as <- <-; split; [exact Is | discriminate]).
  cbn [walk] in E. destruct (scandir (fs st) top) as [entries|e|] eqn:Sc.
  - assert (En : entries = listing (fs st) top).
    { unfold scandir in Sc. destruct (lookup (fs st) top) as [[|[]]|];
        try discriminate. now injection Sc. }
    subst entries. unfold bind in E.
    match type of E with context [for_each ?fs0 ?b st] =>
      destruct (for_each fs0 b st) as [r1 s1] eqn:B end.
    apply files_raise in B; auto.
    + destruct B as [I1 P1]. destruct r1 as [[]|e1|].
      * exact (IH _ _ _ _ I1 E).
      * injection E as <- <-. split; [exact I1|]. intros e0 X.
        injection X as <-. now apply P1.
      * injection E as <- <-. split; [exact I1 | discriminate].
    + apply Forall_forall. intros nm In_.
      apply in_map_iff in In_ as [e [<- In_]]. apply filter_In in In_ as [In_ D].
      apply negb_true_iff in D. split.
      * now apply listing_entry in In_.
      * exact (I_files _ _ _ Is In_ D).
  - exact (IH _ _ _ _ Is E).
  - exact (IH _ _ _ _ Is E).
Qed.

Lemma process_student_raises (fuel : nat)
    (assignment_subfolder prefix suffix : option str) (entry : DirEntry)
    (st st' : state) (r : result unit) :
  I st ->
  process_student fuel output assignment_subfolder prefix suffix add_to_header
    entry st = (r, st') ->
  I st' /\ forall e, r = Raise e -> P e.
Proof.
  intros Is E.
  assert (W : forall root s r0 s', I s ->
             walk_roots fuel add_to_header (base_name_of prefix suffix entry)
               output [root] s = (r0, s') ->
             I s' /\ forall e, r0 = Raise e -> P e).
  { intros root s r0 s' Ss E0. unfold walk_roots in E0. cbn [for_each] in E0.
    unfold bind in E0.
    match type of E0 with context [walk fuel [root] ?b s] =>
      destruct (walk fuel [root] b s) as [r1 s1] eqn:B end.
    apply walk_raises in B; auto.
    - destruct B as [I1 P1]. destruct r1 as [[]|e1|].
      + injection E0 as <- <-. split; [exact I1 | discriminate].
      + injection E0 as <- <-. split; [exact I1|]. intros e0 X.
        injection X as <-. now apply P1.
      + injection E0 as <- <-. split; [exact I1 | discriminate].
    - apply base_name_of_nonempty.
    - apply kept_no_slash, base_name_of_kept. }
  unfold process_student in E.
  destruct (negb (is_dir entry)).
  { injection E as <- <-. split; [exact Is | discriminate]. }
  cbv zeta in E. fold (base_name_of prefix suffix entry) in E.
  destruct assignment_subfolder as [sub|]; [|exact (W _ _ _ _ Is E)].
  destruct (truthy sub); [|exact (W _ _ _ _ Is E)].
  destruct (path_isdir (fs st) (join (path entry) sub)).
  - exact (W _ _ _ _ Is E).
  - injection E as <- <-. split; [exact Is | discriminate].
Qed.

Lemma students_raise (fuel : nat)
    (assignment_subfolder prefix suffix : option str) :
  forall entries st r st',
    I st ->
    for_each entries
      (process_student fuel output assignment_subfolder prefix suffix add_to_header)
      st = (r, st') ->
    I st' /\ forall e, r = Raise e -> P e.
Proof.
  induction entries as [|entry entries IH]; intros st r st' Is E.
  - injection E as <- <-. split; [exact Is | discriminate].
  - cbn [for_each] in E. unfold bind in E.
    destruct (process_student fuel output assignment_subfolder prefix suffix
                add_to_header entry st) as [r1 s1] eqn:B.
    apply process_student_raises in B; [|exact Is].
    destruct B as [I1 P1]. destruct r1 as [[]|e1|].
    + exact (IH _ _ _ I1 E).
    + injection E as <- <-. split; [exact I1|]. intros e0 X.
      injection X as <-. now apply P1.
    + injection E as <- <-. split; [exact I1 | discriminate].
Qed.

(** The exceptions a run may raise: that of the test of the root, that of
    listing the root, and those of the steps for the files. *)
Lemma run_raises (fuel : nat) (turned_in_path : str)
    (assignment_subfolder prefix suffix : option str)
    (st st' : state) (e : exn) :
  I st ->
  copy_from_local_folder fuel turned_in_path output assignment_subfolder prefix
    suffix add_to_header st = (Raise e, st') ->
  (e = RuntimeError (not_a_directory_message turned_in_path) /\
   path_isdir (fs st) turned_in_path = false) \/
  (e = PermissionError /\ lookup (fs st) turned_in_path = Some (Dir false)) \/
  P e.
Proof.
  intros Is E. unfold copy_from_local_folder in E.
  destruct (path_isdir (fs st) turned_in_path) eqn:D; cbn [negb] in E.
  2: { injection E as <- _. left. auto. }
  right. unfold bind at 1 in E. unfold reading, scandir in E. cbn [fs] in E.
  unfold path_isdir in D.
  destruct (lookup (fs st) turned_in_path) as [[|[|]]|] eqn:L; try discriminate.
  - unfold bind in E.
    match type of E with context [for_each ?l ?b ?s] =>
      destruct (for_each l b s) as [r1 s1] eqn:B end.
    apply students_raise in B; [|now apply (I_fs st)].
    destruct B as [_ P1]. destruct r1 as [[]|e1|]; try discriminate.
    injection E as <- _. right. now apply P1.
  - injection E as <- _. left. auto.
Qed.

End Steps.






(** The other refusals, on examples: an output folder that is not there,
    and one that is a file. *)
Example lost_run_raises : fst lost_run = Raise FileNotFoundError.
Proof. vm_compute. reflexivity. Qed.

Example file_output_run_raises : fst file_output_run = Raise NotADirectoryError.
Proof. vm_compute. reflexivity. Qed.

(** Without the prefix the name of the copy is 254 bytes long, and the
    file of [long_student] is copied. *)
Example long_student_copied :
  fst (@copy_from_local_folder plain_platform 5 (py "root") (py "out") None None
         None false (start long_student)) = Ok (1, 1).
Proof. vm_compute. reflexivity. Qed.

(** ** Every file is copied *)

Lemma grows_refl (w : world) : grows w w.
Proof. repeat split; auto. Qed.

Lemma grows_trans (a b c : world) : grows a b -> grows b c -> grows a c.
Proof.
  intros [L1 [S1 F1]] [L2 [S2 F2]]. repeat split; auto.
  intro d. now rewrite S2, S1.
Qed.

(** A new file is a file of its directory, next to those that were there. *)
Lemma grows_write (w : world) (p : str) (data : list N) :
  path_exists w p = false -> grows w (write w p data).
Proof.
  intro F. split; [|split].
  - intros q n L. rewrite lookup_write. destruct (str_eqb p q) eqn:Q; [|exact L].
    apply str_eqb_eq in Q. subst q. apply lookup_path_exists in L. congruence.
  - intro d. now apply subdirs_write.
  - intros d f I. rewrite (write_fresh _ _ _ F). unfold files_of, listing in *.
    cbn [flat_map]. rewrite filter_app, map_app. apply in_or_app. now right.
Qed.

Lemma advances_refl (st : state) : advances st st.
Proof. split; [apply grows_refl | exists []; now rewrite app_nil_r]. Qed.

Lemma advances_trans (a b c : state) : advances a b -> advances b c -> advances a c.
Proof.
  intros [G1 [e1 L1]] [G2 [e2 L2]]. split; [eapply grows_trans; eauto|].
  exists (e1 ++ e2). now rewrite L2, L1, app_assoc.
Qed.

Lemma copied_from_before (a b c : state) (src : str) :
  advances a b -> copied_from b c src -> copied_from a c src.
Proof.
  intros [_ [e1 L1]] [e2 [dst [L2 I]]]. exists (e1 ++ e2), dst.
  split; [now rewrite L2, L1, app_assoc | apply in_or_app; now right].
Qed.

Lemma copied_from_after (a b c : state) (src : str) :
  copied_from a b src -> advances b c -> copied_from a c src.
Proof.
  intros [e1 [dst [L1 I]]] [_ [e2 L2]]. exists (e1 ++ e2), dst.
  split; [now rewrite L2, L1, app_assoc | apply in_or_app; now left].
Qed.

Lemma reaches_listable (w : world) (root d : str) :
  reaches w root d -> lookup w d = Some (Dir true) ->
  lookup w root = Some (Dir true).
Proof. now destruct 1. Qed.

Section Complete.

Context `{Platform}.

Variables (fuel : nat) (output : str) (add_to_header : bool).

Lemma always_process_file_advances (base_name d fname : str) :
  always advances (process_file add_to_header base_name output d fname).
Proof.
  intros st r st' E. apply process_file_cases in E.
  destruct E as [[F [L _]] | [k [d0 [d1 [[_ [Fk _]] [_ [F [L _]]]]]]]].
  - split; [rewrite F; apply grows_refl | exists []; now rewrite L, app_nil_r].
  - split; [rewrite F; now apply grows_write | eexists; exact L].
Qed.

Lemma always_files_advance (base_name d : str) (files : list str) :
  always advances
    (for_each files (process_file add_to_header base_name output d)).
Proof.
  apply (always_for_each advances advances_refl advances_trans).
  intro f. apply always_process_file_advances.
Qed.

Lemma always_walk_advances (base_name : str) (n : nat) (stack : list str) :
  always advances
    (walk n stack
       (fun d files => for_each files (process_file add_to_header base_name output d))).
Proof.
  apply (always_walk advances advances_refl advances_trans).
  intros d files. apply always_files_advance.
Qed.

(** The files handed to the body of the walk are all copied, when the body
    ends normally. *)
Lemma files_complete (base_name d : str) :
  forall files st st',
    for_each files (process_file add_to_header base_name output d) st = (Ok tt, st') ->
    forall f, In f files -> copied_from st st' (join d f).
Proof.
  induction files as [|f0 files IH]; intros st st' E f I; [contradiction|].
  cbn [for_each] in E. apply bind_Ok in E as [[] [s1 [E1 E2]]].
  destruct I as [<-|I].
  - apply (copied_from_after st s1 st').
    + apply process_file_Ok in E1 as [dest [_ [_ [_ L]]]].
      eexists. exists dest. split; [exact L | now left].
    + exact (always_files_advance _ _ _ _ _ _ E2).
  - apply (copied_from_before st s1 st').
    + exact (always_process_file_advances _ _ _ _ _ _ E1).
    + exact (IH _ _ E2 _ I).
Qed.

(** A walk that ends normally has copied the files of every directory it
    could list, from each directory on its stack down. *)
Lemma walk_complete (w : world) (base_name : str) :
  forall n stack st st',
    grows w (fs st) ->
    walk n stack
      (fun d files => for_each files (process_file add_to_header base_name output d))
      st = (Ok tt, st') ->
    forall d0 d f,
      In d0 stack -> reaches w d0 d -> lookup w d = Some (Dir true) ->
      In f (files_of w d) -> copied_from st st' (join d f).
Proof.
  induction n as [|n IH]; intros [|top stack] st st' G E d0 d f I0 Re L If;
    try contradiction; try discriminate.
  cbn [walk] in E.
  assert (Top : d0 = top -> lookup (fs st) top = Some (Dir true)).
  { intros ->. apply G. exact (reaches_listable _ _ _ Re L). }
  destruct (scandir (fs st) top) as [entries|e|] eqn:Sc.
  - assert (En : entries = listing (fs st) top).
    { unfold scandir in Sc. destruct (lookup (fs st) top) as [[|[]]|];
        try discriminate. now injection Sc. }
    subst entries. apply bind_Ok in E as [[] [s1 [E1 E2]]].
    pose proof (always_files_advance _ _ _ _ _ _ E1) as A1.
    pose proof (always_walk_advances _ _ _ _ _ _ E2) as A2.
    assert (G1 : grows w (fs s1)) by (eapply grows_trans; [exact G | apply A1]).
    assert (Sub : forall x, In x (map (join top) (subdirs w top) ++ stack) ->
              forall d' f', reaches w x d' -> lookup w d' = Some (Dir true) ->
              In f' (files_of w d') -> copied_from st st' (join d' f')).
    { intros x Ix d' f' Rx Lx Fx. apply (copied_from_before st s1 st' _ A1).
      apply (IH _ _ _ G1 E2 x d' f'); auto.
      change (map name (filter is_dir (listing (fs st) top)))
        with (subdirs (fs st) top).
      destruct G as [_ [S _]]. now rewrite S. }
    destruct I0 as [<-|I0].
    + inversion Re as [|? nm ? Lt Inm Rn]; subst.
      * apply (copied_from_after st s1 st'); [|exact A2].
        apply (files_complete _ _ _ _ _ E1).
        destruct G as [_ [_ Fg]]. exact (Fg _ _ If).
      * apply (Sub (join top nm)); auto. apply in_or_app. left. now apply in_map.
    + apply (Sub d0); auto. apply in_or_app. now right.
  - destruct I0 as [<-|I0]; [|exact (IH _ _ _ G E d0 d f I0 Re L If)].
    unfold scandir in Sc. rewrite (Top eq_refl) in Sc. discriminate.
  - destruct I0 as [<-|I0]; [|exact (IH _ _ _ G E d0 d f I0 Re L If)].
    unfold scandir in Sc. rewrite (Top eq_refl) in Sc. discriminate.
Qed.

Variables (assignment_subfolder prefix suffix : option str).

Lemma always_process_student_advances (entry : DirEntry) :
  always advances
    (process_student fuel output assignment_subfolder prefix suffix add_to_header
       entry).
Proof.
  apply always_process_student.
  - apply advances_refl.
  - apply advances_trans.
  - intros. apply always_process_file_advances.
Qed.

Lemma process_student_complete (w : world) (entry : DirEntry) (st st' : state) :
  grows w (fs st) -> is_dir entry = true ->
  process_student fuel output assignment_subfolder prefix suffix add_to_header
    entry st = (Ok tt, st') ->
  forall d f,
    reaches w (walk_root assignment_subfolder entry) d ->
    lookup w d = Some (Dir true) -> In f (files_of w d) ->
    copied_from st st' (join d f).
Proof.
  intros G D E d f Re L If.
  assert (W : forall root,
             walk_roots fuel add_to_header (base_name_of prefix suffix entry)
               output [root] st = (Ok tt, st') ->
             reaches w root d -> copied_from st st' (join d f)).
  { intros root E0 R0. unfold walk_roots in E0. cbn [for_each] in E0.
    apply bind_Ok in E0 as [[] [s1 [E1 E2]]]. injection E2 as <-.
    apply (walk_complete w _ _ _ _ _ G E1 root d f); auto. now left. }
  unfold process_student in E. rewrite D in E. cbn [negb] in E.
  cbv zeta in E. fold (base_name_of prefix suffix entry) in E.
  unfold walk_root in Re.
  destruct assignment_subfolder as [sub|]; [|exact (W _ E Re)].
  destruct (truthy sub); [|exact (W _ E Re)].
  assert (Dm : path_isdir (fs st) (join (path entry) sub) = true).
  { unfold path_isdir. destruct G as [Fr _].
    now rewrite (Fr _ _ (reaches_listable _ _ _ Re L)). }
  rewrite Dm in E. exact (W _ E Re).
Qed.

Lemma students_complete (w : world) :
  forall entries st st',
    grows w (fs st) ->
    for_each entries
      (process_student fuel output assignment_subfolder prefix suffix add_to_header)
      st = (Ok tt, st') ->
    forall student d f,
      In student entries -> is_dir student = true ->
      reaches w (walk_root assignment_subfolder student) d ->
      lookup w d = Some (Dir true) -> In f (files_of w d) ->
      copied_from st st' (join d f).
Proof.
  induction entries as [|entry entries IH]; intros st st' G E student d f I D Re L If;
    [contradiction|].
  cbn [for_each] in E. apply bind_Ok in E as [[] [s1 [E1 E2]]].
  pose proof (always_process_student_advances _ _ _ _ E1) as A1.
  destruct I as [<-|I].
  - apply (copied_from_after st s1 st').
    + exact (process_student_complete w _ _ _ G D E1 d f Re L If).
    + revert E2.
      apply (always_for_each advances advances_refl advances_trans).
      apply always_process_student_advances.
  - apply (copied_from_before st s1 st' _ A1).
    apply (IH _ _ (grows_trans _ _ _ G (proj1 A1)) E2 student d f); auto.
Qed.

End Complete.

(** X23.  Every file is copied.  When a run ends normally, it has recorded
    a copy of each file of the filesystem it started in that lies in a
    directory the walk for a student folder comes to and can list: the walk
    starts at the student folder or, with a selector, at the folder of that
    name inside it, and goes down through every directory that can be
    listed. *)
Theorem copy_from_local_folder_complete `{Platform} (fuel : nat)
    (turned_in_path output : str) (assignment_subfolder prefix suffix : option str)
    (add_to_header : bool) (st st' : state) (found copied : nat) :
  copy_from_local_folder fuel turned_in_path output assignment_subfolder prefix
    suffix add_to_header st = (Ok (found, copied), st') ->
  forall student d f,
    In student (listing (fs st) turned_in_path) -> is_dir student = true ->
    reaches (fs st) (walk_root assignment_subfolder student) d ->
    lookup (fs st) d = Some (Dir true) -> In f (files_of (fs st) d) ->
    exists es dst, log st' = log st ++ es /\ In (Copied (join d f) dst) es.
Proof.
  intros E student d f I D Re L If. unfold copy_from_local_folder in E.
  destruct (negb (path_isdir (fs st) turned_in_path)); [discriminate|].
  apply bind_Ok in E as [entries [s1 [E1 E]]].
  unfold reading in E1. cbn [fs] in E1.
  assert (En : entries = listing (fs st) turned_in_path /\
               s1 = mkState (fs st) (log st) 0 0).
  { unfold scandir in E1. destruct (lookup (fs st) turned_in_path) as [[|[]]|];
      try discriminate. now injection E1 as <- <-. }
  destruct En as [-> ->].
  apply bind_Ok in E as [[] [s2 [E2 E]]]. injection E as _ _ <-.
  exact (students_complete fuel output add_to_header assignment_subfolder prefix
           suffix (fs st) _ (mkState (fs st) (log st) 0 0) s2
           (grows_refl (fs st)) E2 student d f I D Re L If).
Qed.

Lemma copy_from_local_folder_complete_witness :
  exists es dst,
    log (snd quiz_run) = log (start three_students) ++ es /\
    In (Copied (join (py "root/Ann/Quiz") (py "q1.txt")) dst) es.
Proof.
  apply (@copy_from_local_folder_complete plain_platform 5 (py "root") (py "out")
           (Some (py "Quiz")) None None false (start three_students)
           (snd quiz_run) 1 1 (eq_refl : quiz_run = (Ok (1, 1), snd quiz_run))
           (mkEntry (py "Ann") (py "root/Ann") true)
           (py "root/Ann/Quiz") (py "q1.txt")).
  - vm_compute. auto 10.
  - reflexivity.
  - apply reaches_root.
  - reflexivity.
  - vm_compute. auto.
Defined.

(** ** main: the questions *)

Lemma and_then_Answered {A B : Type} (a : answer A) (k : A -> terminal -> answer B)
    (b : B) (t : terminal) :
  and_then a k = Answered b t ->
  exists x t1, a = Answered x t1 /\ k x t1 = Answered b t.
Proof. destruct a; simpl; [eauto | discriminate]. Qed.

Lemma input_Answered (prompt : str) (t : terminal) (line : str) (t1 : terminal) :
  input prompt t = Answered line t1 ->
  disk t1 = disk t /\ stdin t = line :: stdin t1.
Proof.
  unfold input. destruct (stdin t) as [|l rest] eqn:E; [discriminate|].
  intro X. injection X as <- <-. auto.
Qed.

(** The path the first loop returns is a directory, and not empty. *)
Lemma ask_path_Answered (w : world) (lines : list str) :
  forall out p t,
    ask_path w lines out = Answered p t ->
    truthy p = true /\ path_isdir w p = true /\ disk t = w.
Proof.
  induction lines as [|line rest IH]; intros out p t E; cbn [ask_path] in E;
    [discriminate|].
  cbv zeta in E. destruct (truthy (strip line)) eqn:T; cbn [negb] in E.
  - destruct (path_isdir w (strip line)) eqn:D; cbn [negb] in E.
    + injection E as <- <-. auto.
    + exact (IH _ _ _ E).
  - exact (IH _ _ _ E).
Qed.

(** What the second loop returns is one of the assignments. *)
Lemma ask_selection_Answered `{Builtins} (w : world) (assignments lines : list str) :
  forall out sel t,
    ask_selection w assignments lines out = Answered sel t ->
    In sel assignments /\ disk t = w.
Proof.
  induction lines as [|line rest IH]; intros out sel t E; cbn [ask_selection] in E;
    [discriminate|].
  cbv zeta in E. destruct (str_isdigit (strip line)).
  - destruct (int_of_str (strip line)) as [i|]; [|discriminate].
    destruct ((1 <=? i) && (i <=? N.of_nat (length assignments)))%N eqn:R.
    + injection E as <- <-. split; [|reflexivity].
      apply andb_true_iff in R as [R1 R2].
      apply N.leb_le in R1, R2. apply nth_In. lia.
    + exact (IH _ _ _ E).
  - destruct (truthy (strip line)).
    + destruct (existsb (str_eqb (strip line)) assignments) eqn:X.
      * injection E as <- <-. split; [|reflexivity]. now apply existsb_str_eqb.
      * exact (IH _ _ _ E).
    + exact (IH _ _ _ E).
Qed.

(** X18.  The first question, for every input: the loop takes the first
    line that, stripped, is not empty and is the path of a directory, and
    returns it stripped; every line before it was refused.  When no line
    will do, the loop reads to the end of the input and [input] raises
    [EOFError]; it ends in no other way. *)
Theorem ask_path_first_directory (w : world) (lines : list str)
    (out : list console_event) :
  match ask_path w lines out with
  | Answered p t =>
      truthy p = true /\ path_isdir w p = true /\
      exists before line,
        lines = before ++ line :: stdin t /\ p = strip line /\
        Forall (fun l => truthy (strip l) = false \/ path_isdir w (strip l) = false)
          before
  | Failed e t =>
      e = EOFError /\ stdin t = [] /\
      Forall (fun l => truthy (strip l) = false \/ path_isdir w (strip l) = false)
        lines
  end.
Proof.
  revert out. induction lines as [|line rest IH]; intro out; cbn [ask_path].
  - repeat split; constructor.
  - cbv zeta.
    assert (Step : forall out',
      (truthy (strip line) = false \/ path_isdir w (strip line) = false) ->
      match ask_path w rest out' with
      | Answered p t =>
          truthy p = true /\ path_isdir w p = true /\
          exists before l,
            line :: rest = before ++ l :: stdin t /\ p = strip l /\
            Forall (fun l => truthy (strip l) = false \/ path_isdir w (strip l) = false)
              before
      | Failed e t =>
          e = EOFError /\ stdin t = [] /\
          Forall (fun l => truthy (strip l) = false \/ path_isdir w (strip l) = false)
            (line :: rest)
      end).
    { intros out' Rj. specialize (IH out').
      destruct (ask_path w rest out') as [p t|e t].
      - destruct IH as [Tp [Dp [before [l [E [P F]]]]]]. repeat split; auto.
        exists (line :: before), l. rewrite E. repeat split; auto.
      - destruct IH as [-> [S F]]. repeat split; auto. }
    destruct (truthy (strip line)) eqn:T; cbn [negb]; [|apply Step; now left].
    destruct (path_isdir w (strip line)) eqn:D; cbn [negb]; [|apply Step; now right].
    repeat split; auto. exists [], line. repeat split; auto.
Qed.

(** X19.  The second question.  What the loop returns is one of the
    detected assignments, taken from one line of the input.  A line that
    [str.isdigit] accepts is read as a number, never as a name: it selects the
    assignment at that place of the list, so a detected folder whose name is
    a number is not chosen by typing its name, unless the number is its own
    place.  Any other line selects the assignment it names. *)
Theorem ask_selection_selects `{Builtins} (w : world) (assignments lines : list str)
    (out : list console_event) (sel : str) (t : terminal) :
  ask_selection w assignments lines out = Answered sel t ->
  In sel assignments /\
  exists before line,
    lines = before ++ line :: stdin t /\
    ((str_isdigit (strip line) = true /\
      exists i, int_of_str (strip line) = Some i /\ (1 <= i)%N /\
                nth_error assignments (N.to_nat i - 1) = Some sel) \/
     (str_isdigit (strip line) = false /\ sel = strip line)).
Proof.
  intro E. split; [exact (proj1 (ask_selection_Answered _ _ _ _ _ _ E))|].
  revert out E. induction lines as [|line rest IH]; intros out E;
    cbn [ask_selection] in E; [discriminate|].
  cbv zeta in E.
  assert (Step : forall out',
    ask_selection w assignments rest out' = Answered sel t ->
    exists before l,
      line :: rest = before ++ l :: stdin t /\
      ((str_isdigit (strip l) = true /\
        exists i, int_of_str (strip l) = Some i /\ (1 <= i)%N /\
                  nth_error assignments (N.to_nat i - 1) = Some sel) \/
       (str_isdigit (strip l) = false /\ sel = strip l))).
  { intros out' E'. destruct (IH _ E') as [before [l [X Y]]].
    exists (line :: before), l. rewrite X. auto. }
  destruct (str_isdigit (strip line)) eqn:Dg.
  - destruct (int_of_str (strip line)) as [i|] eqn:I; [|discriminate].
    destruct ((1 <=? i) && (i <=? N.of_nat (length assignments)))%N eqn:R;
      [|exact (Step _ E)].
    injection E as <- <-. exists [], line. split; [reflexivity|]. left.
    split; [exact Dg|]. exists i. apply andb_true_iff in R as [R1 R2].
    apply N.leb_le in R1, R2. repeat split; auto.
    apply nth_error_nth'. lia.
  - destruct (truthy (strip line)); [|exact (Step _ E)].
    destruct (existsb (str_eqb (strip line)) assignments); [|exact (Step _ E)].
    injection E as <- <-. exists [], line. split; [reflexivity|]. right. auto.
Qed.

Lemma ask_selection_selects_witness :
  In (py "Quiz") [py "Essay"; py "Quiz"] /\
  exists before line,
    [py "7"; py "Exam"; py "2"; py "out"]
      = before ++ line ::
        stdin (terminal_of (@ask_selection ascii_builtins three_students
                 [py "Essay"; py "Quiz"] [py "7"; py "Exam"; py "2"; py "out"] [])) /\
    ((@str_isdigit ascii_builtins (strip line) = true /\
      exists i, @int_of_str ascii_builtins (strip line) = Some i /\ (1 <= i)%N /\
                nth_error [py "Essay"; py "Quiz"] (N.to_nat i - 1) = Some (py "Quiz")) \/
     (@str_isdigit ascii_builtins (strip line) = false /\ py "Quiz" = strip line)).
Proof.
  apply (@ask_selection_selects ascii_builtins three_students
           [py "Essay"; py "Quiz"] [py "7"; py "Exam"; py "2"; py "out"] []).
  vm_compute. reflexivity.
Defined.

Lemma join_nonempty (a b : str) : b <> [] -> join a b <> [].
Proof.
  intros NE E. unfold join in E. destruct (startswith SLASH b); [contradiction|].
  destruct (is_empty a || endswith SLASH a); apply app_eq_nil in E as [_ E];
    [contradiction | discriminate].
Qed.

Lemma or_None_Some (x s : str) : or_None x = Some s -> s = x /\ truthy s = true.
Proof.
  unfold or_None. destruct (truthy x) eqn:T; [|discriminate].
  intro E. injection E as <-. auto.
Qed.

(** What the questions of [main] end in, when they end in a call. *)
Lemma main_settings_Answered `{Platform} `{Builtins} (t t' : terminal) (c : call) :
  main_settings t = Answered c t' ->
  exists assignments line3 line4 line5,
    truthy (call_turned_in_path c) = true /\
    path_isdir (disk t) (call_turned_in_path c) = true /\
    collect_assignment_subfolders (disk t) (call_turned_in_path c) = Ok assignments /\
    match call_selected_assignment c with
    | None => assignments = []
    | Some a => In a assignments
    end /\
    call_output c =
      (if truthy (strip line3) then strip line3
       else default_output (call_selected_assignment c)) /\
    ensure_dir (call_output c) (disk t) = Some (disk t') /\
    call_prefix c = or_None (strip line4) /\
    call_suffix c = or_None (strip line5) /\
    (call_add_to_header c = true -> DOCX_AVAILABLE = true).
Proof.
  intro E. unfold main_settings in E. cbv zeta in E.
  apply and_then_Answered in E as [root [t1 [E1 E]]].
  apply ask_path_Answered in E1 as [T1 [D1 K1]]. cbn [disk print] in D1, K1.
  destruct (collect_assignment_subfolders (disk t1) root) as [assignments|e|] eqn:C;
    try discriminate.
  apply and_then_Answered in E as [selected [t2 [E2 E]]].
  assert (S2 : disk t2 = disk t1 /\
               match selected with
               | None => assignments = []
               | Some a => In a assignments
               end).
  { destruct assignments as [|a0 l0].
    - injection E2 as <- <-. auto.
    - apply and_then_Answered in E2 as [sel [t2' [E2 X]]].
      injection X as <- <-.
      apply ask_selection_Answered in E2 as [I K]. auto. }
  destruct S2 as [K2 S2].
  apply and_then_Answered in E as [line3 [t3 [E3 E]]].
  apply input_Answered in E3 as [K3 _].
  match type of E with
  | match ensure_dir ?o _ with _ => _ end = _ => set (output := o) in *
  end.
  destruct (ensure_dir output (disk t3)) as [w'|] eqn:M; [|discriminate].
  apply and_then_Answered in E as [line4 [t4 [E4 E]]].
  apply input_Answered in E4 as [K4 _]. cbn [disk] in K4.
  apply and_then_Answered in E as [line5 [t5 [E5 E]]].
  apply input_Answered in E5 as [K5 _].
  apply and_then_Answered in E as [add_to_header [t6 [E6 E]]].
  injection E as <- <-. cbn.
  assert (A6 : disk t6 = disk t5 /\ (add_to_header = true -> DOCX_AVAILABLE = true)).
  { destruct DOCX_AVAILABLE.
    - apply and_then_Answered in E6 as [l [t' [I X]]].
      apply input_Answered in I as [K _]. injection X as <- <-. auto.
    - apply and_then_Answered in E6 as [l [t' [I X]]].
      apply input_Answered in I as [K _].
      destruct (affirmative _); injection X as <- <-; auto. }
  destruct A6 as [K6 A6].
  rewrite K1 in C.
  exists assignments, line3, line4, line5.
  split; [exact T1|]. split; [exact D1|]. split; [exact C|]. split; [exact S2|].
  split; [reflexivity|].
  split; [rewrite K6, K5, K4, <- M; f_equal; congruence|].
  auto.
Qed.

(** X20.  What [main] calls the collector with, whatever was typed.  The
    root is not empty and was a directory when it was asked for.  The
    selector is absent exactly when discovery found no assignment, and is
    one of the detected assignments otherwise.  The output folder is not
    empty, and [ensure_dir] has returned for it.  A prefix or suffix is
    absent or not empty.  Stamping is requested only when python-docx is
    available. *)
Theorem main_settings_call `{Platform} `{Builtins} (t t' : terminal) (c : call) :
  main_settings t = Answered c t' ->
  truthy (call_turned_in_path c) = true /\
  path_isdir (disk t) (call_turned_in_path c) = true /\
  (exists assignments,
     collect_assignment_subfolders (disk t) (call_turned_in_path c) = Ok assignments /\
     match call_selected_assignment c with
     | None => assignments = []
     | Some a => In a assignments
     end) /\
  call_output c <> [] /\
  ensure_dir (call_output c) (disk t) = Some (disk t') /\
  (forall s, call_prefix c = Some s -> truthy s = true) /\
  (forall s, call_suffix c = Some s -> truthy s = true) /\
  (call_add_to_header c = true -> DOCX_AVAILABLE = true).
Proof.
  intro E.
  destruct (main_settings_Answered t t' c E)
    as [assignments [line3 [line4 [line5 [T [D [C [S [O [M [Pf [Sf A]]]]]]]]]]]].
  split; [exact T|]. split; [exact D|].
  split; [exists assignments; split; [exact C | exact S]|].
  split.
  { rewrite O. destruct (truthy (strip line3)) eqn:T3.
    - intro X. rewrite X in T3. discriminate.
    - unfold default_output.
      destruct (call_selected_assignment c) as [a|]; [destruct (truthy a)|];
        apply join_nonempty; try discriminate. apply sanitize_filename_nonempty. }
  split; [exact M|].
  split; [intros s X; rewrite Pf in X; now apply or_None_Some in X|].
  split; [intros s X; rewrite Sf in X; now apply or_None_Some in X | exact A].
Qed.

Lemma main_settings_call_witness :
  truthy (py "root") = true /\
  path_isdir three_students (py "root") = true /\
  (exists assignments,
     collect_assignment_subfolders three_students (py "root") = Ok assignments /\
     In (py "Quiz") assignments) /\
  py "out" <> [] /\
  @ensure_dir ascii_builtins (py "out") three_students
    = Some (disk (terminal_of (@main_settings plain_platform ascii_builtins
                                 (mkTerminal session [] three_students)))) /\
  (forall s, None = Some s -> truthy s = true) /\
  (forall s, Some (py "final") = Some s -> truthy s = true) /\
  (false = true -> @DOCX_AVAILABLE plain_platform = true).
Proof.
  apply (@main_settings_call plain_platform ascii_builtins
           (mkTerminal session [] three_students)
           (terminal_of (@main_settings plain_platform ascii_builtins
                           (mkTerminal session [] three_students)))
           (mkCall (py "root") (py "out") (Some (py "Quiz")) None
              (Some (py "final")) false)).
  vm_compute. reflexivity.
Defined.

(** X21.  When [main] returns, it has called the collector once, with the
    settings it gathered, on the filesystem [os.makedirs] left; the collector
    has returned; and the last line [main] printed reports one and the same
    number for the files found and the files copied. *)
Theorem main_returns `{Platform} `{Builtins} (fuel : nat) (t t' : terminal) :
  main fuel t = (None, t') ->
  exists c t1 n st',
    main_settings t = Answered c t1 /\
    copy_from_local_folder fuel (call_turned_in_path c) (call_output c)
      (call_selected_assignment c) (call_prefix c) (call_suffix c)
      (call_add_to_header c) (start (disk t1)) = (Ok (n, n), st') /\
    disk t' = fs st' /\
    stdout t' = stdout t1 ++
      [Print (py "Done. Files found: " ++ str_of_int (N.of_nat n)
              ++ py ", copied: " ++ str_of_int (N.of_nat n) ++ py ".")].
Proof.
  intro E. unfold main in E.
  destruct (main_settings t) as [c t1|e t1]; [|discriminate].
  destruct (copy_from_local_folder fuel _ _ _ _ _ _ _) as [[[found copied]|e|] st']
    eqn:R; try discriminate.
  destruct (keeps_run _ _ _ _ _ _ _ in_step _ _ _ _ in_step_refl in_step_trans
              (fun b d f => keeps_process_file _ b _ d f) R) as [S [F C]].
  unfold in_step in S. cbn [total_found total_copied start] in S.
  assert (X : copied = found) by lia. clear S F C. subst copied.
  injection E as <-.
  exists c, t1, found, st'. repeat split; auto.
Qed.

Lemma main_returns_witness :
  exists c t1 n st',
    @main_settings plain_platform ascii_builtins
      (mkTerminal session [] three_students) = Answered c t1 /\
    @copy_from_local_folder plain_platform 5 (call_turned_in_path c) (call_output c)
      (call_selected_assignment c) (call_prefix c) (call_suffix c)
      (call_add_to_header c) (start (disk t1)) = (Ok (n, n), st') /\
    disk (snd (@main plain_platform ascii_builtins 5
                 (mkTerminal session [] three_students))) = fs st' /\
    stdout (snd (@main plain_platform ascii_builtins 5
                   (mkTerminal session [] three_students))) = stdout t1 ++
      [Print (py "Done. Files found: " ++ str_of_int (N.of_nat n)
              ++ py ", copied: " ++ str_of_int (N.of_nat n) ++ py ".")].
Proof.
  apply (@main_returns plain_platform ascii_builtins 5
           (mkTerminal session [] three_students)).
  vm_compute. reflexivity.
Defined.

(** ** main: the root has been checked *)

Lemma and_then_Failed {A B : Type} (a : answer A) (k : A -> terminal -> answer B)
    (e : crash) (t : terminal) :
  and_then a k = Failed e t ->
  a = Failed e t \/ exists x t1, a = Answered x t1 /\ k x t1 = Failed e t.
Proof. destruct a; simpl; [eauto | intro E; injection E as -> ->; now left]. Qed.

Lemma input_Failed (prompt : str) (t : terminal) (e : crash) (t1 : terminal) :
  input prompt t = Failed e t1 -> e = EOFError.
Proof.
  unfold input. destruct (stdin t); [|discriminate]. intro E. now injection E.
Qed.

Lemma ask_path_Failed (w : world) (lines : list str) :
  forall out e t, ask_path w lines out = Failed e t -> e = EOFError.
Proof.
  induction lines as [|line rest IH]; intros out e t E; cbn [ask_path] in E.
  - now injection E.
  - cbv zeta in E. destruct (negb (truthy (strip line))); [exact (IH _ _ _ E)|].
    destruct (negb (path_isdir w (strip line))); [exact (IH _ _ _ E)|].
    discriminate.
Qed.

Lemma ask_selection_Failed `{Builtins} (w : world) (assignments lines : list str) :
  forall out e t,
    ask_selection w assignments lines out = Failed e t ->
    e = EOFError \/ e = ValueError.
Proof.
  induction lines as [|line rest IH]; intros out e t E; cbn [ask_selection] in E.
  - left. now injection E.
  - cbv zeta in E. destruct (str_isdigit (strip line)).
    + destruct (int_of_str (strip line)) as [i|]; [|right; now injection E].
      destruct ((1 <=? i) && (i <=? N.of_nat (length assignments)))%N;
        [discriminate | exact (IH _ _ _ E)].
    + destruct (truthy (strip line)); [|exact (IH _ _ _ E)].
      destruct (existsb (str_eqb (strip line)) assignments);
        [discriminate | exact (IH _ _ _ E)].
Qed.

(** How the questions of [main] end, when they do not end in a call. *)
Lemma main_settings_Failed `{Platform} `{Builtins} (t t' : terminal) (e : crash) :
  main_settings t = Failed e t' ->
  e = EOFError \/ e = ValueError \/ e = MakedirsError \/ e = Fuel \/
  exists x turned_in_path,
    e = Propagated x /\
    collect_assignment_subfolders (disk t) turned_in_path = Raise x.
Proof.
  intro E. unfold main_settings in E. cbv zeta in E.
  apply and_then_Failed in E as [E | [root [t1 [E1 E]]]].
  { left. exact (ask_path_Failed _ _ _ _ _ E). }
  apply ask_path_Answered in E1 as [_ [_ K1]]. cbn [disk print] in K1.
  destruct (collect_assignment_subfolders (disk t1) root) as [assignments|x|] eqn:C.
  2: { injection E as <- _. do 4 right. exists x, root. now rewrite <- K1. }
  2: { injection E as <- _. auto. }
  apply and_then_Failed in E as [E | [selected [t2 [E2 E]]]].
  { destruct assignments as [|a0 l0]; [discriminate|].
    apply and_then_Failed in E as [E | [sel [t2 [_ E]]]]; [|discriminate].
    apply ask_selection_Failed in E as [->| ->]; auto. }
  apply and_then_Failed in E as [E | [line3 [t3 [E3 E]]]].
  { left. exact (input_Failed _ _ _ _ E). }
  destruct (ensure_dir _ (disk t3)) as [w'|]; [|injection E as <- _; auto].
  apply and_then_Failed in E as [E | [line4 [t4 [E4 E]]]].
  { left. exact (input_Failed _ _ _ _ E). }
  apply and_then_Failed in E as [E | [line5 [t5 [E5 E]]]].
  { left. exact (input_Failed _ _ _ _ E). }
  apply and_then_Failed in E as [E | [add [t6 [E6 E]]]]; [|discriminate].
  left. destruct DOCX_AVAILABLE.
  - apply and_then_Failed in E as [E | [l [t6 [_ E]]]]; [|discriminate].
    exact (input_Failed _ _ _ _ E).
  - apply and_then_Failed in E as [E | [l [t6 [_ E]]]].
    + exact (input_Failed _ _ _ _ E).
    + destruct (affirmative _); discriminate.
Qed.

Lemma scan_students_no_RuntimeError (w : world) (entries : list DirEntry) :
  forall names e,
    scan_students w entries names = Raise e -> forall msg, e <> RuntimeError msg.
Proof.
  induction entries as [|entry rest IH]; intros names e E; [discriminate|].
  cbn [scan_students] in E. destruct (negb (is_dir entry)); [exact (IH _ _ E)|].
  cbv zeta in E. unfold scandir in E.
  destruct (lookup w (path entry)) as [[data|[|]]|];
    try exact (IH _ _ E); injection E as <-; discriminate.
Qed.

(** Discovery does not raise [RuntimeError]. *)
Lemma collect_assignment_subfolders_no_RuntimeError (w : world)
    (turned_in_path : str) (e : exn) :
  collect_assignment_subfolders w turned_in_path = Raise e ->
  forall msg, e <> RuntimeError msg.
Proof.
  unfold collect_assignment_subfolders. intro E.
  destruct (negb (path_isdir w turned_in_path)); [discriminate|].
  unfold scandir in E.
  destruct (lookup w turned_in_path) as [[data|[|]]|];
    try (injection E as <-; discriminate).
  destruct (scan_students w (listing w turned_in_path) []) as [names|x|] eqn:S;
    try discriminate.
  injection E as <-. exact (scan_students_no_RuntimeError _ _ _ _ S).
Qed.

(** The collector raises [RuntimeError] for a root that is no directory,
    and for nothing else. *)
Lemma copy_from_local_folder_RuntimeError `{Platform} (fuel : nat)
    (turned_in_path output : str) (assignment_subfolder prefix suffix : option str)
    (add_to_header : bool) (st st' : state) (msg : str) :
  copy_from_local_folder fuel turned_in_path output assignment_subfolder prefix
    suffix add_to_header st = (Raise (RuntimeError msg), st') ->
  path_isdir (fs st) turned_in_path = false.
Proof.
  intro E.
  apply (run_raises output add_to_header (fun _ => True) (fun _ _ _ => True)
           (fun e => forall m, e <> RuntimeError m)) in E; auto.
  - destruct E as [[_ D] | [[X _] | N]]; [exact D | discriminate|].
    now destruct (N msg).
  - intros base_name d fname s r s' _ _ _ _ _ Es. repeat split; auto.
    intros e ->. exact (process_file_no_RuntimeError _ _ _ _ _ _ _ _ Es).
Qed.

(** X24.  The root has been checked.  [main] asks for the root until it is
    given a directory, so the collector's [RuntimeError] for a root that is
    no directory never ends [main], whatever is typed: provided that
    [ensure_dir], which runs between the check and the call, leaves every
    directory a directory. *)
Theorem main_root_checked `{Platform} `{Builtins} (fuel : nat) (t : terminal)
    (msg : str) :
  (forall w p w', ensure_dir p w = Some w' ->
     forall q, path_isdir w q = true -> path_isdir w' q = true) ->
  fst (main fuel t) <> Some (Propagated (RuntimeError msg)).
Proof.
  intros Keep E. unfold main in E.
  destruct (main_settings t) as [c t1|e t1] eqn:S.
  - apply main_settings_Answered in S
      as [assignments [l3 [l4 [l5 [_ [D [_ [_ [_ [M _]]]]]]]]]].
    pose proof (Keep _ _ _ M _ D) as D1.
    destruct (copy_from_local_folder fuel _ _ _ _ _ _ _) as [[[f c0]|e|] st'] eqn:R;
      cbn [fst] in E; try discriminate.
    injection E as ->. apply copy_from_local_folder_RuntimeError in R.
    cbn [fs start] in R. congruence.
  - cbn [fst] in E. injection E as ->.
    apply main_settings_Failed in S
      as [X | [X | [X | [X | [x [root [X C]]]]]]]; try discriminate.
    injection X as <-.
    exact (collect_assignment_subfolders_no_RuntimeError _ _ _ C msg eq_refl).
Qed.

Lemma main_root_checked_witness :
  fst (@main plain_platform ascii_builtins 5
         (mkTerminal session [] three_students))
  <> Some (Propagated (RuntimeError (not_a_directory_message (py "root")))).
Proof.
  apply (@main_root_checked plain_platform ascii_builtins 5
           (mkTerminal session [] three_students)).
  intros w p w' M q D. unfold ensure_dir in M. cbn [makedirs ascii_builtins] in M.
  destruct (path_isdir w p); [now injection M as <-|].
  destruct (path_exists w p); [discriminate|]. injection M as <-.
  unfold path_isdir in *. cbn [lookup]. now destruct (str_eqb p q).
Defined.

(* ================================================================== *)
(** * Part IV.  The files of a run: where they are found, how they are named *)
(* ================================================================== *)

(** ** What a run walks *)

Lemma same_dirs_refl (w : world) : same_dirs w w.
Proof. split; [apply grows_refl | auto]. Qed.

Lemma same_dirs_trans (a b c : world) :
  same_dirs a b -> same_dirs b c -> same_dirs a c.
Proof. intros [G1 B1] [G2 B2]. split; [eapply grows_trans; eauto | auto]. Qed.

(** A new file is no directory. *)
Lemma same_dirs_write (w : world) (p : str) (data : list N) :
  path_exists w p = false -> same_dirs w (write w p data).
Proof.
  intro F. split; [now apply grows_write|].
  intros q b L. rewrite lookup_write in L.
  destruct (str_eqb p q); [discriminate | exact L].
Qed.

(** One more directory down. *)
Lemma reaches_step (w : world) (root d nm : str) :
  reaches w root d -> lookup w d = Some (Dir true) -> In nm (subdirs w d) ->
  reaches w root (join d nm).
Proof.
  induction 1 as [root | root n d L I R IH]; intros Ld Inm.
  - apply (reaches_sub w root nm); [exact Ld | exact Inm | apply reaches_root].
  - apply (reaches_sub w root n); [exact L | exact I | now apply IH].
Qed.

Lemma subdirs_valid (w : world) (d nm : str) : In nm (subdirs w d) -> valid_name nm.
Proof.
  unfold subdirs. intro I. apply in_map_iff in I as [e [<- I]].
  apply filter_In in I as [I _]. now apply listing_entry in I.
Qed.

Lemma inside_below (root nm d : str) :
  valid_name nm -> inside (join root nm) d -> inside root d.
Proof.
  intros V [rest ->]. rewrite (join_relative _ _ (valid_name_relative _ V)).
  unfold inside.
  destruct (is_empty (_ ++ nm) || endswith SLASH (_ ++ nm)).
  - exists (nm ++ rest). now rewrite <- app_assoc.
  - exists (nm ++ [SLASH] ++ rest). now rewrite <- !app_assoc.
Qed.

(** What a walk reaches is its root, or lies below it. *)
Lemma reaches_below (w : world) (root d : str) :
  reaches w root d -> d = root \/ inside root d.
Proof.
  induction 1 as [root | root nm d L I R IH]; [now left|].
  right. pose proof (subdirs_valid _ _ _ I) as V. destruct IH as [-> | IH].
  - apply inside_child. now apply valid_name_relative.
  - exact (inside_below _ _ _ V IH).
Qed.

Lemma from_world_refl (w : world) (P : event -> Prop) (st : state) :
  from_world w P st st.
Proof. intro S. split; [exact S | apply records_refl]. Qed.

Lemma from_world_trans (w : world) (P : event -> Prop) (a b c : state) :
  from_world w P a b -> from_world w P b c -> from_world w P a c.
Proof.
  intros F1 F2 S. destruct (F1 S) as [S1 R1]. destruct (F2 S1) as [S2 R2].
  split; [exact S2 | exact (records_trans _ _ _ _ R1 R2)].
Qed.

Lemma from_world_impl (w : world) (P P' : event -> Prop) (a b : state) :
  (forall e, P e -> P' e) -> from_world w P a b -> from_world w P' a b.
Proof.
  intros I F S. destruct (F S) as [S1 [es [L Fa]]]. split; [exact S1|].
  exists es. split; [exact L|]. eapply Forall_impl; [|exact Fa]. exact I.
Qed.

(** What every step for a student keeps, whatever its end, the run keeps. *)
Lemma always_run_students `{Platform} (R : state -> state -> Prop)
    (fuel : nat) (turned_in_path output : str)
    (assignment_subfolder prefix suffix : option str) (add_to_header : bool)
    (st st' : state) (r : result (nat * nat)) :
  (forall s, R s s) -> (forall a b c, R a b -> R b c -> R a c) ->
  (forall s f c, R s (mkState (fs s) (log s) f c)) ->
  (forall entry, In entry (listing (fs st) turned_in_path) ->
     always R (process_student fuel output assignment_subfolder prefix suffix
                 add_to_header entry)) ->
  copy_from_local_folder fuel turned_in_path output assignment_subfolder prefix
    suffix add_to_header st = (r, st') ->
  R st st'.
Proof.
  intros Rr Rt Reset Hs E. unfold copy_from_local_folder in E.
  destruct (negb (path_isdir (fs st) turned_in_path)).
  { injection E as _ <-. apply Rr. }
  apply (Rt _ _ _ (Reset st 0 0)).
  unfold bind at 1 in E. unfold reading in E. cbn [fs] in E.
  destruct (scandir (fs st) turned_in_path) as [entries|e|] eqn:Sc;
    try (injection E as _ <-; apply Rr).
  assert (En : entries = listing (fs st) turned_in_path).
  { unfold scandir in Sc. destruct (lookup (fs st) turned_in_path) as [[|[]]|];
      try discriminate. now injection Sc. }
  subst entries. revert E. apply (always_bind R Rt).
  - apply (always_for_each_in R Rr Rt). exact Hs.
  - intros _ s r0 s' E0. injection E0 as _ <-. apply Rr.
Qed.

Section Sources.

Context `{Platform}.

Variables (w : world) (output : str) (add_to_header : bool).

(** The step for a file of a directory that the walk lists. *)
Lemma process_file_from_world (root base_name d fname : str) :
  reaches w root d -> lookup w d = Some (Dir true) -> valid_name fname ->
  always (from_world w (walked_copy w root base_name output))
    (process_file add_to_header base_name output d fname).
Proof.
  intros Re Ld V st r st' E S. apply process_file_cases in E.
  destruct E as [[F [L _]] | [k [data [data' [[K1 [Fk _]] [_ [F [L _]]]]]]]].
  - split; [now rewrite F | now apply records_same].
  - split.
    + rewrite F. apply (same_dirs_trans _ _ _ S). now apply same_dirs_write.
    + eexists. split; [exact L|]. constructor.
      * exists d, fname, k. rewrite candidate_path_output_name. auto 10.
      * destruct (add_to_header && _); repeat constructor.
Qed.

(** The walk from [root]: every directory on its stack is reached from
    [root] in [w]. *)
Lemma walk_from_world (root base_name : str) :
  forall n stack,
    Forall (reaches w root) stack ->
    always (from_world w (walked_copy w root base_name output))
      (walk n stack
         (fun d files =>
            for_each files (process_file add_to_header base_name output d))).
Proof.
  pose proof (from_world_refl w (walked_copy w root base_name output)) as Rr.
  pose proof (from_world_trans w (walked_copy w root base_name output)) as Rt.
  induction n as [|n IH]; intros [|top stack] Fs st r st' E;
    try (injection E as _ <-; apply Rr).
  inversion Fs as [|? ? Rtop Rstack]; subst.
  cbn [walk] in E. destruct (scandir (fs st) top) as [entries|e|] eqn:Sc.
  - intro S.
    assert (En : entries = listing (fs st) top /\
                 lookup (fs st) top = Some (Dir true)).
    { unfold scandir in Sc. destruct (lookup (fs st) top) as [[|[]]|];
        try discriminate. now injection Sc. }
    destruct En as [-> Lt]. pose proof (proj2 S _ _ Lt) as Lw.
    pose proof S as [[_ [Sd _]] _].
    revert S. revert E. apply (always_bind _ Rt).
    + apply (always_for_each_in _ Rr Rt). intros fname I.
      apply process_file_from_world; [exact Rtop | exact Lw|].
      apply in_map_iff in I as [e [<- I]]. apply filter_In in I as [I _].
      now apply listing_entry in I.
    + intros _. apply IH. apply Forall_app. split; [|exact Rstack].
      apply Forall_forall. intros p I. apply in_map_iff in I as [nm [<- I]].
      apply reaches_step; [exact Rtop | exact Lw|].
      change (map name (filter is_dir (listing (fs st) top)))
        with (subdirs (fs st) top) in I.
      now rewrite Sd in I.
  - exact (IH _ Rstack _ _ _ E).
  - exact (IH _ Rstack _ _ _ E).
Qed.

Variables (fuel : nat) (assignment_subfolder prefix suffix : option str).

(** The step for a student folder. *)
Lemma process_student_from_world (entry : DirEntry) :
  always
    (from_world w
       (walked_copy w (walk_root assignment_subfolder entry)
          (base_name_of prefix suffix entry) output))
    (process_student fuel output assignment_subfolder prefix suffix add_to_header
       entry).
Proof.
  set (P := walked_copy w (walk_root assignment_subfolder entry)
              (base_name_of prefix suffix entry) output).
  pose proof (from_world_refl w P) as Rr.
  pose proof (from_world_trans w P) as Rt.
  assert (W : always (from_world w P)
                (walk_roots fuel add_to_header (base_name_of prefix suffix entry)
                   output [walk_root assignment_subfolder entry])).
  { unfold walk_roots. apply (always_for_each_in _ Rr Rt).
    intros r0 [<-|[]]. apply walk_from_world.
    constructor; [apply reaches_root | constructor]. }
  unfold process_student.
  destruct (negb (is_dir entry)); [exact (always_ret _ Rr tt)|].
  cbv zeta. fold (base_name_of prefix suffix entry).
  unfold walk_root in W.
  destruct assignment_subfolder as [sub|]; [|exact W].
  destruct (truthy sub); [|exact W].
  intros st r st' E. destruct (path_isdir (fs st) (join (path entry) sub)).
  - exact (W _ _ _ E).
  - injection E as _ <-. apply Rr.
Qed.

(** The record of a run, however it ends, is made of the copies of the
    files of the directories that the walks for the student folders list. *)
Lemma copy_from_local_folder_walked (turned_in_path : str)
    (st st' : state) (r : result (nat * nat)) :
  w = fs st ->
  copy_from_local_folder fuel turned_in_path output assignment_subfolder prefix
    suffix add_to_header st = (r, st') ->
  records
    (student_copy w turned_in_path output prefix suffix
       (walked w assignment_subfolder)) st st'.
Proof.
  intros Ew E.
  set (P := student_copy w turned_in_path output prefix suffix
              (walked w assignment_subfolder)).
  assert (F : from_world w P st st').
  { revert E. apply (always_run_students (from_world w P)).
    - apply from_world_refl.
    - apply from_world_trans.
    - intros s f c S. split; [exact S | now apply records_same].
    - intros entry I s r0 s' E0. rewrite <- Ew in I.
      destruct (is_dir entry) eqn:D.
      + apply (from_world_impl w
                 (walked_copy w (walk_root assignment_subfolder entry)
                    (base_name_of prefix suffix entry) output)).
        * intros [src dst|p f]; [|auto].
          intros [d [fname [k [Re [Ld [V [Es [K Ed]]]]]]]].
          exists entry, d, fname, k. unfold walked. auto 10.
        * exact (process_student_from_world entry _ _ _ E0).
      + unfold process_student in E0. rewrite D in E0. injection E0 as _ <-.
        apply from_world_refl. }
  apply F. rewrite Ew. apply same_dirs_refl.
Qed.

End Sources.

(** ** The extension of a copy *)

(** C4 as the claim states it fails on a file whose name begins with its
    only dot: from the last dot onward [.gitignore] reads [.gitignore], but
    the collector copies the file to [out/Ann], with an empty extension (and a
    file without a dot, next, to [out/Ann (2)]). *)
Lemma copy_from_local_folder_dotfile :
  from_last_dot (py ".gitignore") = py ".gitignore" /\
  dotfile_run = (Ok (3, 3), snd dotfile_run) /\
  log (snd dotfile_run) =
    [Copied (py "root/Ann/.gitignore") (py "out/Ann");
     Copied (py "root/Ann/essay.v2.DOCX") (py "out/Ann.DOCX");
     Copied (py "root/Ann/README") (py "out/Ann (2)")].
Proof. repeat split; vm_compute; reflexivity. Qed.

(** The step for a file raises only what the copy to the path that the
    resolver has made of the extension of the file name raises. *)
Lemma process_file_raised `{Platform} (add_to_header : bool)
    (base_name output d fname : str) (st st' : state) (e : exn) :
  process_file add_to_header base_name output d fname st = (Raise e, st') ->
  exists k s,
    first_free base_name (snd (splitext fname)) output (fs s) k /\
    copy2 (join d fname)
      (join output (output_name base_name (snd (splitext fname)) k)) s
    = (Raise e, st').
Proof.
  intro E. unfold process_file in E.
  unfold bind at 1 in E. cbn [incr_found] in E.
  unfold bind at 1 in E. cbn [fs] in E.
  destruct (choose_unique_filename_first_free base_name (snd (splitext fname))
              output (fs st)) as [k [K1 [C [F B]]]].
  rewrite C in E. unfold bind at 1 in E.
  destruct (copy2 _ _ _) as [[[]|e2|] st2] eqn:E2.
  - unfold bind at 1 in E.
    destruct (add_to_header && str_eqb (lower (snd (splitext fname))) (py ".docx")).
    + unfold bind at 1 in E.
      destruct (add_filename_to_docx_header_outcome
                  (candidate_path base_name (snd (splitext fname)) output k)
                  base_name st2) as [b [st4 [E' _]]].
      rewrite E' in E. discriminate.
    + discriminate.
  - injection E as <- <-. rewrite candidate_path_output_name in E2.
    eexists k, _. split; [|exact E2]. cbn [fs]. repeat split; auto.
  - discriminate.
Qed.

(** C4, amended.  However a run ends, every copy it has recorded is that of
    a file [fname] found in a directory [d], to the path the resolver makes
    in the output folder of the student's base name and the extension of
    [fname].  That extension is empty when [fname] has no dot; otherwise,
    with [fname] cut at its last dot, it is the part from that dot onward
    when some character before it is not a dot, and empty when only dots (or
    nothing) come before it.  A run that raises after the root has been
    listed raises what the copy of a file to a path made with this extension
    raises. *)
Theorem copy_from_local_folder_extension `{Platform} (fuel : nat)
    (turned_in_path output : str) (assignment_subfolder prefix suffix : option str)
    (add_to_header : bool) (st st' : state) (r : result (nat * nat)) :
  copy_from_local_folder fuel turned_in_path output assignment_subfolder prefix
    suffix add_to_header st = (r, st') ->
  (exists es,
     log st' = log st ++ es /\
     forall src dst, In (Copied src dst) es ->
       exists student d fname k,
         In student (listing (fs st) turned_in_path) /\ is_dir student = true /\
         valid_name fname /\ src = join d fname /\ (1 <= k)%N /\
         dst = join output
                 (output_name (base_name_of prefix suffix student)
                    (snd (splitext fname)) k) /\
         (~ In DOT fname -> snd (splitext fname) = []) /\
         (forall pre post, fname = pre ++ DOT :: post -> ~ In DOT post ->
            snd (splitext fname) =
            if forallb (fun c => char_eqb c DOT) pre then [] else DOT :: post)) /\
  (forall e, r = Raise e ->
     (e = RuntimeError (not_a_directory_message turned_in_path) /\
      path_isdir (fs st) turned_in_path = false) \/
     (e = PermissionError /\ lookup (fs st) turned_in_path = Some (Dir false)) \/
     exists base_name d fname k s s',
       valid_name fname /\
       first_free base_name (snd (splitext fname)) output (fs s) k /\
       copy2 (join d fname)
         (join output (output_name base_name (snd (splitext fname)) k)) s
       = (Raise e, s')).
Proof.
  intro E. split.
  - apply (copy_from_local_folder_records (fun _ _ => True)) in E as [es [L F]];
      [|intros; exact I | intros; split; intros; exact I].
    exists es. split; [exact L|]. intros src dst I.
    rewrite Forall_forall in F.
    destruct (F _ I) as [student [d [fname [k [S [D [_ [V [-> [K ->]]]]]]]]]].
    exists student, d, fname, k.
    destruct (splitext_extension fname (proj2 V)) as [X1 X2]. auto 10.
  - intros e ->.
    apply (run_raises output add_to_header (fun _ => True) (fun _ _ _ => True)
             (fun x => exists base_name d fname k s s',
                valid_name fname /\
                first_free base_name (snd (splitext fname)) output (fs s) k /\
                copy2 (join d fname)
                  (join output (output_name base_name (snd (splitext fname)) k)) s
                = (Raise x, s')))
      in E; auto.
    intros base_name d fname s r0 s' _ _ _ V _ Es. repeat split; auto.
    intros x ->. apply process_file_raised in Es as [k [s0 [Fk C]]].
    now exists base_name, d, fname, k, s0, s'.
Qed.

Lemma copy_from_local_folder_extension_witness :
  log (snd dotfile_run) =
    [Copied (py "root/Ann/.gitignore") (py "out/Ann");
     Copied (py "root/Ann/essay.v2.DOCX") (py "out/Ann.DOCX");
     Copied (py "root/Ann/README") (py "out/Ann (2)")] /\
  exists es,
    log (snd dotfile_run) = log (start dot_files) ++ es /\
    forall src dst, In (Copied src dst) es ->
      exists student d fname k,
        In student (listing (fs (start dot_files)) (py "root")) /\
        is_dir student = true /\
        valid_name fname /\ src = join d fname /\ (1 <= k)%N /\
        dst = join (py "out")
                (output_name (base_name_of None None student)
                   (snd (splitext fname)) k) /\
        (~ In DOT fname -> snd (splitext fname) = []) /\
        (forall pre post, fname = pre ++ DOT :: post -> ~ In DOT post ->
           snd (splitext fname) =
           if forallb (fun c => char_eqb c DOT) pre then [] else DOT :: post).
Proof.
  split; [vm_compute; reflexivity|].
  exact (proj1 (@copy_from_local_folder_extension plain_platform 5 (py "root")
           (py "out") None None None false (start dot_files) (snd dotfile_run)
           (fst dotfile_run) (surjective_pairing dotfile_run))).
Defined.

(** ** The base name of a copy *)



(** ** The assignment selector *)





(** ** Whose file a copy is *)

(** A directory that is there is an entry of the directory it is in. *)
Lemma subdirs_name (w : world) (d nm : str) (readable : bool) :
  valid_name nm -> lookup w (join d nm) = Some (Dir readable) ->
  In nm (subdirs w d).
Proof.
  intros V L. apply lookup_Some_In in L. unfold subdirs. apply in_map_iff.
  exists (mkEntry nm (join d nm) true). split; [reflexivity|].
  apply filter_In. split; [|reflexivity].
  unfold listing. apply in_flat_map. exists (join d nm, Dir readable).
  split; [exact L|]. unfold entry_of. cbn [fst snd].
  rewrite (child_name_of_join _ _ V). now left.
Qed.

(** X12.  Every file goes under the name of the student in whose folder it
    was found, when the selector is absent or is the name of one entry of a
    folder: not empty, without a slash, and not the name [..] of the folder
    above.  However a run ends, every copy it has recorded is that of a file
    found in a directory that the walk for a student folder listed in the
    root comes to, going down from directory to listed subdirectory, and
    lists; the walk starts at the student folder or, with a selector, at the
    subdirectory of that name listed in the student folder; the path of the
    source begins with that of the student folder; and the destination is
    named by that student's base name, the extension of the source's file
    name and, from the second candidate on, a number.  (Any other selector is
    joined to the student folder as [os.path.join] does, and the walk may
    then leave the student folder.) *)
Theorem copy_from_local_folder_student_files `{Platform} (fuel : nat)
    (turned_in_path output : str) (assignment_subfolder prefix suffix : option str)
    (add_to_header : bool) (st st' : state) (r : result (nat * nat)) :
  (forall sub, assignment_subfolder = Some sub -> truthy sub = true ->
     valid_name sub /\ sub <> py "..") ->
  copy_from_local_folder fuel turned_in_path output assignment_subfolder prefix
    suffix add_to_header st = (r, st') ->
  exists es,
    log st' = log st ++ es /\
    forall src dst, In (Copied src dst) es ->
      exists student d fname k,
        In student (listing (fs st) turned_in_path) /\ is_dir student = true /\
        path student = join turned_in_path (name student) /\
        (walk_root assignment_subfolder student = path student \/
         exists sub,
           valid_name sub /\ sub <> py ".." /\
           In sub (subdirs (fs st) (path student)) /\
           walk_root assignment_subfolder student = join (path student) sub) /\
        reaches (fs st) (walk_root assignment_subfolder student) d /\
        lookup (fs st) d = Some (Dir true) /\
        valid_name fname /\ src = join d fname /\ inside (path student) src /\
        (1 <= k)%N /\
        dst = join output
                (output_name (base_name_of prefix suffix student)
                   (snd (splitext fname)) k).
Proof.
  intros Plain E.
  pose proof (copy_from_local_folder_walked (fs st) _ _ _ _ _ _ _ _ _ _ eq_refl E)
    as [es [L F]].
  exists es. split; [exact L|]. intros src dst I. rewrite Forall_forall in F.
  destruct (F _ I) as [student [d [fname [k [S [D [[Re Ld] [V [-> [K ->]]]]]]]]]].
  exists student, d, fname, k.
  assert (Root : walk_root assignment_subfolder student = path student \/
            exists sub,
              valid_name sub /\ sub <> py ".." /\
              In sub (subdirs (fs st) (path student)) /\
              walk_root assignment_subfolder student = join (path student) sub).
  { unfold walk_root in *. destruct assignment_subfolder as [sub|]; [|now left].
    destruct (truthy sub) eqn:T; [|now left].
    destruct (Plain sub eq_refl T) as [Vs Ns]. right. exists sub.
    repeat split; try assumption; try apply Vs.
    exact (subdirs_name _ _ _ _ Vs (reaches_listable _ _ _ Re Ld)). }
  assert (In_ : inside (path student) (join d fname)).
  { apply below_join; [|now apply valid_name_relative].
    destruct (reaches_below _ _ _ Re) as [-> | B].
    - destruct Root as [-> | [sub [Vs [_ [_ ->]]]]]; [now left|].
      right. apply inside_child. now apply valid_name_relative.
    - right. destruct Root as [Eq | [sub [Vs [_ [_ Eq]]]]]; rewrite Eq in B.
      + exact B.
      + exact (inside_below _ _ _ Vs B). }
  pose proof (proj2 (listing_entry _ _ _ S)) as Ps.
  repeat split; try assumption; apply V.
Qed.

Lemma copy_from_local_folder_student_files_witness :
  log (snd quiz_run) = [Copied (py "root/Ann/Quiz/q1.txt") (py "out/Ann.txt")] /\
  exists es,
    log (snd quiz_run) = log (start three_students) ++ es /\
    forall src dst, In (Copied src dst) es ->
      exists student d fname k,
        In student (listing (fs (start three_students)) (py "root")) /\
        is_dir student = true /\
        path student = join (py "root") (name student) /\
        (walk_root (Some (py "Quiz")) student = path student \/
         exists sub,
           valid_name sub /\ sub <> py ".." /\
           In sub (subdirs (fs (start three_students)) (path student)) /\
           walk_root (Some (py "Quiz")) student = join (path student) sub) /\
        reaches (fs (start three_students)) (walk_root (Some (py "Quiz")) student) d /\
        lookup (fs (start three_students)) d = Some (Dir true) /\
        valid_name fname /\ src = join d fname /\ inside (path student) src /\
        (1 <= k)%N /\
        dst = join (py "out")
                (output_name (base_name_of None None student)
                   (snd (splitext fname)) k).
Proof.
  split; [vm_compute; reflexivity|].
  apply (@copy_from_local_folder_student_files plain_platform 5 (py "root")
           (py "out") (Some (py "Quiz")) None None false (start three_students)
           (snd quiz_run) (fst quiz_run)).
  - intros sub E _. injection E as <-. repeat split; absent.
  - exact (surjective_pairing quiz_run).
Defined.
